(** * sd-model-organizer: the SQLite record store

    A shallow embedding of [scripts/mo/data/sqlite_storage.py]: the row
    mapper, the schema migrator with its backups, the Record repository
    (with the composed query and its download-state filter) and the Tag
    repository, over a model of the part of SQLite and of Python's
    [sqlite3] binding that the file uses.  Left out are
    [get_records_by_query], which executes a statement passed in as text,
    the choice of the database path, and the per-thread cache of the
    connection: there is one connection. *)

From Stdlib Require Import ZArith QArith String Ascii List Lia.
From stdpp Require Import base option list gmap strings.

Local Open Scope Z_scope.

(** ** Python and SQLite scalars *)

(** A cell of a row, and equally the value of a Python attribute bound to a
    statement: [None]/NULL, an integer, a real or a text.  Strings are byte
    strings; a real is taken as the exact value of a finite float. *)
Inductive value :=
  | VNull
  | VInt (n : Z)
  | VReal (q : Q)
  | VText (s : string).

(** Python truthiness ([if row[14]], [bool(record.location)], [if t]). *)
Definition is_empty (s : string) : bool :=
  match s with EmptyString => true | String _ _ => false end.

Definition truthy (v : value) : bool :=
  match v with
  | VNull => false
  | VInt n => negb (n =? 0)
  | VReal q => negb (Qeq_bool q 0)
  | VText s => negb (is_empty s)
  end.

(** ** Strings: [str.lower], [str.split(',')], [','.join] *)

Definition lower_ascii (c : ascii) : ascii :=
  let n := nat_of_ascii c in
  if ((65 <=? n)%nat && (n <=? 90)%nat)%bool then ascii_of_nat (n + 32) else c.

Fixpoint lower (s : string) : string :=
  match s with
  | EmptyString => EmptyString
  | String c s' => String (lower_ascii c) (lower s')
  end.

Definition comma : ascii := ","%char.

(** [s.split(',')]: never the empty list; [''.split(',')] is [['']]. *)
Fixpoint split_comma (s : string) : list string :=
  match s with
  | EmptyString => [EmptyString]
  | String c s' =>
      if Ascii.eqb c comma then EmptyString :: split_comma s'
      else match split_comma s' with
           | w :: ws => String c w :: ws
           | [] => [String c EmptyString]
           end
  end.

(** [sep.join(l)]. *)
Fixpoint join (sep : string) (l : list string) : string :=
  match l with
  | [] => EmptyString
  | [x] => x
  | x :: xs => x +:+ sep +:+ join sep xs
  end.

Fixpoint has_comma (s : string) : bool :=
  match s with
  | EmptyString => false
  | String c s' => Ascii.eqb c comma || has_comma s'
  end.

(** ** Exceptions and the two monads *)

Inductive exn :=
  | IndexError
  | AttributeError
  | IntegrityError           (* sqlite3.IntegrityError: a constraint failed *)
  | OperationalError         (* sqlite3.OperationalError: syntax, schema *)
  | ProgrammingError         (* sqlite3.ProgrammingError: wrong number of bindings *)
  | MissingMigration (ver : Z). (* Exception('Missing SQLite migration from ...') *)

(** The result of a pure computation that may raise. *)
Inductive outcome (A : Type) :=
  | Ok (a : A)
  | Raise (e : exn).
Arguments Ok {A} a.
Arguments Raise {A} e.

Definition obind {A B} (x : outcome A) (f : A -> outcome B) : outcome B :=
  match x with
  | Ok a => f a
  | Raise e => Raise e
  end.

(** [row[i]] on a tuple. *)
Definition index {A} (row : list A) (i : nat) : outcome A :=
  match row !! i with
  | Some v => Ok v
  | None => Raise IndexError
  end.

Declare Scope outcome_scope.
Delimit Scope outcome_scope with outcome.
Notation "x <- c ;; k" := (obind c (fun x => k))
  (at level 100, c at next level, right associativity) : outcome_scope.

(** ** The database file

    The four relations [_initialize] creates.  [id INTEGER PRIMARY KEY] is
    the rowid, kept apart from the other cells of a Record row; the columns
    after [id] are listed by name with their declared default, since the
    migrations add and rename them.  A relation that does not exist yet and
    one that exists with no rows are not told apart for Tag, TagSet and
    Version (every path into them goes through [CREATE TABLE IF NOT EXISTS]
    first); Record is absent when it has no column. *)

Inductive affinity := TEXT | INTEGER | REAL.

Record column := {
  col_name : string;
  col_affinity : affinity;
  col_default : value
}.

(** A value a column of the given affinity stores as it is: NULL, and a
    value of the column's own storage class. *)
Definition fits (a : affinity) (v : value) : bool :=
  match v, a with
  | VNull, _ => true
  | VText _, TEXT => true
  | VInt _, INTEGER => true
  | VReal _, REAL => true
  | _, _ => false
  end.

Record rec_row := { rowid : Z; cells : list value }.

Record database := {
  record_columns : list column;
  record_rows : list rec_row;
  tag_rows : list (Z * string);      (* Tag(id INTEGER PRIMARY KEY, name TEXT UNIQUE) *)
  tagset_rows : list (Z * Z);        (* TagSet(record_id, tag_id) *)
  version_rows : list Z              (* Version(version) *)
}.

Definition empty_database : database :=
  {| record_columns := []; record_rows := []; tag_rows := [];
     tagset_rows := []; version_rows := [] |}.

Definition with_record (cols : list column) (rows : list rec_row) (d : database) :=
  {| record_columns := cols; record_rows := rows; tag_rows := tag_rows d;
     tagset_rows := tagset_rows d; version_rows := version_rows d |}.

Definition with_tags (t : list (Z * string)) (d : database) :=
  {| record_columns := record_columns d; record_rows := record_rows d;
     tag_rows := t; tagset_rows := tagset_rows d; version_rows := version_rows d |}.

Definition with_tagset (ts : list (Z * Z)) (d : database) :=
  {| record_columns := record_columns d; record_rows := record_rows d;
     tag_rows := tag_rows d; tagset_rows := ts; version_rows := version_rows d |}.

Definition with_version (v : list Z) (d : database) :=
  {| record_columns := record_columns d; record_rows := record_rows d;
     tag_rows := tag_rows d; tagset_rows := tagset_rows d; version_rows := v |}.

(** The rowid SQLite gives a row inserted without one: 1 in an empty table,
    else one more than the largest in use (the engine's random choice once
    the largest is 2^63-1 is left out). *)
Definition next_rowid (ids : list Z) : Z :=
  match ids with
  | [] => 1
  | i :: rest => foldr Z.max i rest + 1
  end.

Definition column_names (d : database) : list string :=
  map col_name (record_columns d).

Fixpoint index_of (c : string) (names : list string) : option nat :=
  match names with
  | [] => None
  | n :: names' => if String.eqb c n then Some O else S <$> index_of c names'
  end.

Fixpoint assoc {A} (k : string) (l : list (string * A)) : option A :=
  match l with
  | [] => None
  | (k', v) :: l' => if String.eqb k k' then Some v else assoc k l'
  end.

(** ** The connection and the files around it *)

Record world := {
  disk : database;            (* the database file: what has been committed *)
  view : database;            (* what the connection reads and writes *)
  in_txn : bool;              (* a transaction is open *)
  foreign_keys : bool;        (* the connection's PRAGMA foreign_keys *)
  backups : gmap Z database   (* the files <database>.v<n>.bak, by n *)
}.

(** [sqlite3.connect(path, timeout)] on a database file and the backup files
    next to it.  Foreign-key enforcement is off on a new connection and stays
    off until [PRAGMA foreign_keys = ON] is executed on it. *)
Definition sqlite3_connect (file : database) (baks : gmap Z database) : world :=
  {| disk := file; view := file; in_txn := false; foreign_keys := false;
     backups := baks |}.

Definition M (A : Type) : Type := world -> outcome A * world.

Definition ret {A} (a : A) : M A := fun w => (Ok a, w).

Definition raise {A} (e : exn) : M A := fun w => (Raise e, w).

Definition bind {A B} (m : M A) (f : A -> M B) : M B :=
  fun w => match m w with
           | (Ok a, w') => f a w'
           | (Raise e, w') => (Raise e, w')
           end.

Declare Scope storage_scope.
Delimit Scope storage_scope with storage.
Notation "x <- c ;; k" := (bind c (fun x => k))
  (at level 100, c at next level, right associativity) : storage_scope.
Notation "c ;; k" := (bind c (fun _ => k))
  (at level 100, right associativity) : storage_scope.
Local Open Scope storage_scope.

Definition lift {A} (x : outcome A) : M A := fun w => (x, w).

(** A SELECT: reads the connection's view. *)
Definition select {A} (q : database -> A) : M A := fun w => (Ok (q (view w)), w).

(** INSERT, UPDATE, DELETE: the binding opens a transaction first; a
    statement that fails changes nothing and leaves the transaction open. *)
Definition dml {A} (stmt : bool -> database -> outcome (A * database)) : M A :=
  fun w =>
    match stmt (foreign_keys w) (view w) with
    | Ok (a, d) =>
        (Ok a, {| disk := disk w; view := d; in_txn := true;
                  foreign_keys := foreign_keys w; backups := backups w |})
    | Raise e =>
        (Raise e, {| disk := disk w; view := view w; in_txn := true;
                     foreign_keys := foreign_keys w; backups := backups w |})
    end.

(** CREATE TABLE, ALTER TABLE: no transaction is opened for them; outside a
    transaction the statement is committed as it completes. *)
Definition ddl (stmt : database -> outcome database) : M unit :=
  fun w =>
    match stmt (view w) with
    | Ok d =>
        (Ok tt, {| disk := if in_txn w then disk w else d; view := d;
                   in_txn := in_txn w; foreign_keys := foreign_keys w;
                   backups := backups w |})
    | Raise e => (Raise e, w)
    end.

(** [self._connection().commit()]. *)
Definition commit : M unit :=
  fun w => (Ok tt, {| disk := view w; view := view w; in_txn := false;
                      foreign_keys := foreign_keys w; backups := backups w |}).

(** [for x in l: body(x)]. *)
Fixpoint for_each {A} (l : list A) (body : A -> M unit) : M unit :=
  match l with
  | [] => ret tt
  | x :: l' => body x ;; for_each l' body
  end.

Fixpoint for_fold {A S} (l : list A) (s : S) (body : S -> A -> M S) : M S :=
  match l with
  | [] => ret s
  | x :: l' => s' <- body s x ;; for_fold l' s' body
  end.

(** A Python dict in insertion order: [d[k] = v]. *)
Fixpoint dict_set {A} (k : string) (v : A) (d : list (string * A)) : list (string * A) :=
  match d with
  | [] => [(k, v)]
  | (k', v') :: d' =>
      if String.eqb k k' then (k, v) :: d' else (k', v') :: dict_set k v d'
  end.

(** ** The joined projection

    Every read of Records runs over
    [Record r LEFT JOIN TagSet ts ON r.id = ts.record_id
              LEFT JOIN Tag t ON t.id = ts.tag_id]. *)

(** The [t.name] of the rows joined to one TagSet row; NULL when no Tag has
    that id. *)
Definition left_join_tag (d : database) (tag_id : Z) : list (option string) :=
  match filter (fun t => t.1 = tag_id) (tag_rows d) with
  | [] => [None]
  | ts => map (fun t => Some t.2) ts
  end.

(** The [t.name] of the rows joined to one Record row; a single NULL when
    the record has no TagSet row. *)
Definition joined (d : database) (rid : Z) : list (option string) :=
  match filter (fun ts => ts.1 = rid) (tagset_rows d) with
  | [] => [None]
  | tss => tss ≫= (fun ts => left_join_tag d ts.2)
  end.

(** [GROUP_CONCAT(t.name, ',')]: the non-NULL names joined, NULL when there
    is none. *)
Definition group_concat (names : list (option string)) : value :=
  match omap id names with
  | [] => VNull
  | ns => VText (join "," ns)
  end.

(** [r.*]. *)
Definition star (r : rec_row) : list value := VInt (rowid r) :: cells r.

(** [SELECT r.*, GROUP_CONCAT(t.name, ',') AS tags FROM <join> WHERE cond
    GROUP BY r.id]: [id] is the primary key, so each Record row with a
    joined row that passes [cond] is one group, in rowid order. *)
Definition select_grouped (cond : rec_row -> option string -> bool)
    (d : database) : list (list value) :=
  omap (fun r =>
          match filter (fun n => cond r n = true) (joined d (rowid r)) with
          | [] => None
          | ns => Some (star r ++ [group_concat ns])
          end)
       (record_rows d).

(** [SELECT r.*, GROUP_CONCAT(t.name, ',') AS tags FROM <join> WHERE r.id=?]
    has an aggregate and no GROUP BY: it returns exactly one row, also when
    no joined row matches; the bare columns are then NULL, and otherwise
    those of a matching row. *)
Definition select_by_id (i : Z) (d : database) : list (list value) :=
  match filter (fun r => rowid r = i) (record_rows d) with
  | [] => [replicate (S (length (record_columns d))) VNull ++ [VNull]]
  | r :: rs =>
      [star r ++ [group_concat ((r :: rs) ≫= (fun r' => joined d (rowid r')))]]
  end.

Definition fetchone {A} (rows : list A) : option A := head rows.

(** ** Preparing a statement from its text

    [query_records] composes its SELECT as a string, so the part of
    [cursor.execute] that reads the text is modelled: the text is split into
    tokens, in which a [?] inside a quoted literal is part of the literal and
    not a placeholder; the tokens are parsed; the number of placeholders is
    compared with the number of values bound. *)

Inductive token :=
  | TWord (s : string)     (* keyword or name: letters, digits, _ . * *)
  | TStr (s : string)      (* 'literal' *)
  | TParam                 (* ? *)
  | TSym (c : ascii).      (* any other character that is not blank *)

Inductive lex_mode :=
  | LBetween
  | LWord (acc : list ascii)      (* reversed *)
  | LQuote (acc : list ascii).    (* reversed *)

Definition is_word_char (c : ascii) : bool :=
  let n := nat_of_ascii c in
  ((97 <=? n) && (n <=? 122) || (65 <=? n) && (n <=? 90)
   || (48 <=? n) && (n <=? 57) || (n =? 95) || (n =? 46) || (n =? 42))%nat.

Definition is_blank (c : ascii) : bool :=
  let n := nat_of_ascii c in ((n =? 32) || (n =? 10) || (n =? 9) || (n =? 13))%nat.

Definition word_of (acc : list ascii) : string := string_of_list_ascii (rev acc).

Definition flush (toks : list token) (m : lex_mode) : list token :=
  match m with
  | LWord acc => TWord (word_of acc) :: toks
  | _ => toks
  end.

(** One character; the tokens read so far are kept in reverse. *)
Definition lex_step (st : list token * lex_mode) (c : ascii) : list token * lex_mode :=
  let '(toks, m) := st in
  match m with
  | LQuote acc =>
      if Ascii.eqb c "'" then (TStr (word_of acc) :: toks, LBetween)
      else (toks, LQuote (c :: acc))
  | _ =>
      if is_word_char c
      then (toks, LWord (c :: match m with LWord acc => acc | _ => [] end))
      else
        let toks := flush toks m in
        if is_blank c then (toks, LBetween)
        else if Ascii.eqb c "'" then (toks, LQuote [])
        else if Ascii.eqb c "?" then (TParam :: toks, LBetween)
        else (TSym c :: toks, LBetween)
  end.

Definition lex_from (st : list token * lex_mode) (s : string) : list token * lex_mode :=
  fold_left lex_step (list_ascii_of_string s) st.

Definition lex (s : string) : outcome (list token) :=
  let '(toks, m) := lex_from ([], LBetween) s in
  match m with
  | LQuote _ => Raise OperationalError
  | _ => Ok (rev (flush toks m))
  end.

Definition token_eqb (a b : token) : bool :=
  match a, b with
  | TWord s, TWord t => String.eqb s t
  | TStr s, TStr t => String.eqb s t
  | TParam, TParam => true
  | TSym c, TSym d => Ascii.eqb c d
  | _, _ => false
  end.

Definition is_word (w : string) (t : token) : bool := token_eqb t (TWord w).
Definition is_sym (c : ascii) (t : token) : bool := token_eqb t (TSym c).

(** [strip_prefix p l]: the rest of [l] after [p]. *)
Fixpoint strip_prefix (p l : list token) : option (list token) :=
  match p, l with
  | [], _ => Some l
  | a :: p', b :: l' => if token_eqb a b then strip_prefix p' l' else None
  | _ :: _, [] => None
  end.

(** The right-hand side of [LIKE] and [=]: a literal, or the n-th placeholder
    of the statement. *)
Inductive operand :=
  | OLit (s : string)
  | OParam (n : nat).

(** The conjuncts [query_records] writes. *)
Inductive cond :=
  | CNameLike (o : operand)              (* LOWER(r.name) LIKE o *)
  | CModelTypeIn (os : list operand)     (* (r.model_type=o OR ...) *)
  | CTagLike (o : operand).              (* t.name LIKE o *)

(** An operand starts with a literal or a placeholder; any other token
    there is a syntax error. *)
Definition parse_operand (t : token) (n : nat) : outcome (operand * nat) :=
  match t with
  | TStr s => Ok (OLit s, n)
  | TParam => Ok (OParam n, S n)
  | _ => Raise OperationalError
  end.

(** [r.model_type = o OR ... OR r.model_type = o )]. *)
Fixpoint parse_eqs (toks : list token) (n : nat)
    : outcome (list operand * list token * nat) :=
  match toks with
  | c :: e :: o :: rest =>
      if is_word "r.model_type" c && is_sym "=" e then
        (on <- parse_operand o n ;;
         match rest with
         | t :: rest' =>
             if is_word "OR" t then
               (r <- parse_eqs rest' on.2 ;;
                Ok (on.1 :: r.1.1, r.1.2, r.2))
             else if is_sym ")" t then Ok ([on.1], rest', on.2)
             else Raise OperationalError
         | [] => Raise OperationalError
         end)%outcome
      else Raise OperationalError
  | _ => Raise OperationalError
  end.

Definition parse_term (toks : list token) (n : nat)
    : outcome (cond * list token * nat) :=
  match toks with
  | t :: rest =>
      if is_sym "(" t then
        (r <- parse_eqs rest n ;; Ok (CModelTypeIn r.1.1, r.1.2, r.2))%outcome
      else if is_word "t.name" t then
        match rest with
        | l :: o :: rest' =>
            if is_word "LIKE" l then
              (on <- parse_operand o n ;; Ok (CTagLike on.1, rest', on.2))%outcome
            else Raise OperationalError
        | _ => Raise OperationalError
        end
      else
        match strip_prefix [TWord "LOWER"; TSym "("; TWord "r.name"; TSym ")";
                            TWord "LIKE"] toks with
        | Some (o :: rest') =>
            (on <- parse_operand o n ;; Ok (CNameLike on.1, rest', on.2))%outcome
        | _ => Raise OperationalError
        end
  | [] => Raise OperationalError
  end.

(** [term AND term AND ...], up to the first token that is not [AND]. *)
Fixpoint parse_conj (fuel : nat) (toks : list token) (n : nat)
    : outcome (list cond * list token * nat) :=
  match fuel with
  | O => Raise OperationalError
  | S fuel' =>
      (r <- parse_term toks n ;;
       match r.1.2 with
       | t :: rest =>
           if is_word "AND" t then
             (r' <- parse_conj fuel' rest r.2 ;;
              Ok (r.1.1 :: r'.1.1, r'.1.2, r'.2))
           else Ok ([r.1.1], r.1.2, r.2)
       | [] => Ok ([r.1.1], [], r.2)
       end)%outcome
  end.

(** The tokens of
    [SELECT r.*, GROUP_CONCAT(t.name, ',') AS tags FROM Record r
     LEFT JOIN TagSet ts ON r.id = ts.record_id
     LEFT JOIN Tag t ON t.id = ts.tag_id]. *)
Definition select_from_tokens : list token :=
  [ TWord "SELECT"; TWord "r.*"; TSym ","; TWord "GROUP_CONCAT"; TSym "(";
    TWord "t.name"; TSym ","; TStr ","; TSym ")"; TWord "AS"; TWord "tags";
    TWord "FROM"; TWord "Record"; TWord "r";
    TWord "LEFT"; TWord "JOIN"; TWord "TagSet"; TWord "ts"; TWord "ON";
    TWord "r.id"; TSym "="; TWord "ts.record_id";
    TWord "LEFT"; TWord "JOIN"; TWord "Tag"; TWord "t"; TWord "ON";
    TWord "t.id"; TSym "="; TWord "ts.tag_id" ].

Definition group_by_tokens : list token :=
  [ TWord "GROUP"; TWord "BY"; TWord "r.id" ].

Definition tokens_eqb (a b : list token) : bool :=
  match strip_prefix a b with
  | Some [] => true
  | _ => false
  end.

(** The joined SELECT with an optional WHERE and the GROUP BY: the
    conjuncts of the WHERE clause. *)
Definition parse_select (toks : list token) : outcome (list cond) :=
  match strip_prefix select_from_tokens toks with
  | None => Raise OperationalError
  | Some rest =>
      match rest with
      | t :: rest' =>
          if is_word "WHERE" t then
            (r <- parse_conj (length rest') rest' 0 ;;
             if tokens_eqb group_by_tokens r.1.2 then Ok r.1.1
             else Raise OperationalError)%outcome
          else if tokens_eqb group_by_tokens rest then Ok []
          else Raise OperationalError
      | [] => Raise OperationalError
      end
  end.

Definition count_placeholders (toks : list token) : nat :=
  length (List.filter (fun t => token_eqb t TParam) toks).

(** ** Evaluating the WHERE clause *)

Fixpoint like_star (f : list ascii -> bool) (t : list ascii) : bool :=
  f t || match t with [] => false | _ :: t' => like_star f t' end.

(** [t LIKE p]: [%] any run of characters, [_] any one character, letters
    compared without case. *)
Fixpoint like (p t : list ascii) : bool :=
  match p with
  | [] => match t with [] => true | _ :: _ => false end
  | c :: p' =>
      if Ascii.eqb c "%" then like_star (like p') t
      else match t with
           | [] => false
           | d :: t' =>
               (Ascii.eqb c "_" || Ascii.eqb (lower_ascii c) (lower_ascii d))
               && like p' t'
           end
  end.

Definition sql_like (text pattern : string) : bool :=
  like (list_ascii_of_string pattern) (list_ascii_of_string text).

Definition operand_value (params : list string) (o : operand) : option string :=
  match o with
  | OLit s => Some s
  | OParam n => params !! n
  end.

Definition cell_of (d : database) (c : string) (r : rec_row) : value :=
  match index_of c (column_names d) with
  | Some i => default VNull (cells r !! i)
  | None => VNull
  end.

Definition eval_cond (d : database) (params : list string) (r : rec_row)
    (tag : option string) (c : cond) : bool :=
  match c with
  | CNameLike o =>
      match cell_of d "name" r, operand_value params o with
      | VText s, Some p => sql_like (lower s) p
      | _, _ => false
      end
  | CModelTypeIn os =>
      existsb (fun o =>
                 match cell_of d "model_type" r, operand_value params o with
                 | VText s, Some p => String.eqb s p
                 | _, _ => false
                 end) os
  | CTagLike o =>
      match tag, operand_value params o with
      | Some n, Some p => sql_like n p
      | _, _ => false
      end
  end.

Definition cond_columns (c : cond) : list string :=
  match c with
  | CNameLike _ => ["name"]
  | CModelTypeIn _ => ["model_type"]
  | CTagLike _ => []
  end.

(** [cursor.execute(query, params)] for the joined SELECT: the text is
    prepared first (a syntax error or an unknown column is an
    OperationalError), then the bindings are counted (a mismatch is a
    ProgrammingError), then the rows are computed. *)
Definition execute_select (query : string) (params : list string)
    (d : database) : outcome (list (list value)) :=
  (toks <- lex query ;;
   conds <- parse_select toks ;;
   if negb (forallb (fun c => bool_decide (c ∈ column_names d))
                    (conds ≫= cond_columns))
   then Raise OperationalError
   else if negb (count_placeholders toks =? length params)%nat
   then Raise ProgrammingError
   else Ok (select_grouped
              (fun r tag => forallb (eval_cond d params r tag) conds) d))%outcome.

(** ** What the file takes from outside

    [scripts.mo.models.ModelType] and [os.path.exists] are used by the file
    and defined outside it: the enumeration, its [.value], its [by_value]
    and the file-system predicate are parameters.  So is the conversion
    SQLite applies to a value stored into a column of a given affinity; what
    is used of it is that it leaves a value that [fits] the column as it
    is. *)
Class Env := {
  ModelType : Type;
  ModelType_value : ModelType -> string;
  ModelType_by_value : value -> ModelType;
  os_path_exists : string -> bool;
  affinity_cast : affinity -> value -> value;
  affinity_cast_fits :
    forall a v, fits a v = true -> affinity_cast a v = v
}.

Section Storage.

Context {env : Env}.

(** The keyword arguments [map_row_to_record] passes to [Record(...)]. *)
Record Record_ := {
  id_ : value;
  name : value;
  model_type : ModelType;
  download_url : value;
  url : value;
  download_path : value;
  download_filename : value;
  preview_url : value;
  description : value;
  positive_prompts : value;
  negative_prompts : value;
  sha256_hash : value;
  md5_hash : value;
  created_at : value;
  groups : list string;
  subdir : value;
  location : value;
  weight : value;
  backup_url : value
}.

(** [x.split(',')] on a cell: only a text has the method. *)
Definition split (v : value) : outcome (list string) :=
  match v with
  | VText s => Ok (split_comma s)
  | _ => Raise AttributeError
  end.

Definition map_row_to_record (row : list value) : outcome Record_ :=
  (r0 <- index row 0 ;;
   r1 <- index row 1 ;;
   r2 <- index row 2 ;;
   r3 <- index row 3 ;;
   r4 <- index row 4 ;;
   r5 <- index row 5 ;;
   r6 <- index row 6 ;;
   r7 <- index row 7 ;;
   r8 <- index row 8 ;;
   r9 <- index row 9 ;;
   r10 <- index row 10 ;;
   r11 <- index row 11 ;;
   r12 <- index row 12 ;;
   r13 <- index row 13 ;;
   r14 <- index row 14 ;;
   gs <- (if truthy r14 then split r14 else Ok []) ;;
   r15 <- index row 15 ;;
   r16 <- index row 16 ;;
   r17 <- index row 17 ;;
   r18 <- index row 18 ;;
   Ok {| id_ := r0;
         name := r1;
         model_type := ModelType_by_value r2;
         download_url := r3;
         url := r4;
         download_path := r5;
         download_filename := r6;
         preview_url := r7;
         description := r8;
         positive_prompts := r9;
         negative_prompts := r10;
         sha256_hash := r11;
         md5_hash := r12;
         created_at := r13;
         groups := gs;
         subdir := r15;
         location := r16;
         weight := r17;
         backup_url := r18 |})%outcome.

(** [result = []; for row in rows: result.append(map_row_to_record(row))]. *)
Fixpoint map_rows (rows : list (list value)) : outcome (list Record_) :=
  match rows with
  | [] => Ok []
  | row :: rows' =>
      (r <- map_row_to_record row ;;
       rs <- map_rows rows' ;;
       Ok (r :: rs))%outcome
  end.

(** ** Statements on Record *)

(** The schema [_initialize] creates: the columns after [id]. *)
Definition current_columns : list column :=
  [ {| col_name := "name"; col_affinity := TEXT;
       col_default := VNull |};
    {| col_name := "model_type"; col_affinity := TEXT;
       col_default := VNull |};
    {| col_name := "download_url"; col_affinity := TEXT;
       col_default := VNull |};
    {| col_name := "url"; col_affinity := TEXT;
       col_default := VText EmptyString |};
    {| col_name := "download_path"; col_affinity := TEXT;
       col_default := VText EmptyString |};
    {| col_name := "download_filename"; col_affinity := TEXT;
       col_default := VText EmptyString |};
    {| col_name := "preview_url"; col_affinity := TEXT;
       col_default := VText EmptyString |};
    {| col_name := "description"; col_affinity := TEXT;
       col_default := VText EmptyString |};
    {| col_name := "positive_prompts"; col_affinity := TEXT;
       col_default := VText EmptyString |};
    {| col_name := "negative_prompts"; col_affinity := TEXT;
       col_default := VText EmptyString |};
    {| col_name := "sha256_hash"; col_affinity := TEXT;
       col_default := VText EmptyString |};
    {| col_name := "md5_hash"; col_affinity := TEXT;
       col_default := VText EmptyString |};
    {| col_name := "created_at"; col_affinity := INTEGER;
       col_default := VInt 0 |};
    {| col_name := "groups"; col_affinity := TEXT;
       col_default := VText EmptyString |};
    {| col_name := "subdir"; col_affinity := TEXT;
       col_default := VText EmptyString |};
    {| col_name := "location"; col_affinity := TEXT;
       col_default := VText EmptyString |};
    {| col_name := "weight"; col_affinity := REAL;
       col_default := VReal 1 |};
    {| col_name := "backup_url"; col_affinity := TEXT;
       col_default := VNull |} ].

(** The positions of the columns a statement names, with the values cast
    to their affinity; a name the table does not have is an error when the
    statement is prepared. *)
Fixpoint resolve (cols : list column) (assign : list (string * value))
    : outcome (list (nat * value)) :=
  match assign with
  | [] => Ok []
  | (c, v) :: assign' =>
      match index_of c (map col_name cols) with
      | None => Raise OperationalError
      | Some i =>
          let a := default TEXT (col_affinity <$> cols !! i) in
          (rest <- resolve cols assign' ;;
           Ok ((i, affinity_cast a v) :: rest))%outcome
      end
  end.

(** [INSERT INTO Record(c1, ..., cn) VALUES (?, ..., ?)]: a fresh rowid, the
    bound value, cast to the column's affinity, in each named column, the
    declared default elsewhere. *)
Definition sql_insert_record (assign : list (string * value)) (fk : bool)
    (d : database) : outcome (Z * database) :=
  (_ <- resolve (record_columns d) assign ;;
   let i := next_rowid (map rowid (record_rows d)) in
   let row := {| rowid := i;
                 cells := map (fun c =>
                                 match assoc (col_name c) assign with
                                 | Some v => affinity_cast (col_affinity c) v
                                 | None => col_default c
                                 end)
                              (record_columns d) |} in
   Ok (i, with_record (record_columns d) (record_rows d ++ [row]) d))%outcome.

(** [id = ?] against the integer primary key. *)
Definition id_matches (v : value) (i : Z) : bool :=
  match v with
  | VInt n => n =? i
  | VReal q => Qeq_bool q (inject_Z i)
  | _ => false
  end.

(** [UPDATE Record SET c1=?, ..., cn=? WHERE id=?]. *)
Definition sql_update_record (assign : list (string * value)) (key : value)
    (fk : bool) (d : database) : outcome (unit * database) :=
  (sets <- resolve (record_columns d) assign ;;
   let upd r :=
     if id_matches key (rowid r)
     then {| rowid := rowid r;
             cells := foldl (fun cs iv => <[iv.1 := iv.2]> cs) (cells r) sets |}
     else r in
   Ok (tt, with_record (record_columns d) (map upd (record_rows d)) d))%outcome.

(** [DELETE FROM Record WHERE id=?].  With foreign keys enforced, the
    [ON DELETE CASCADE] of [TagSet.record_id] removes the TagSet rows of a
    deleted Record row; without, TagSet is left as it is. *)
Definition sql_delete_record (i : Z) (fk : bool) (d : database)
    : outcome (unit * database) :=
  let kept := filter (fun r => rowid r ≠ i) (record_rows d) in
  let deleted := filter (fun r => rowid r = i) (record_rows d) in
  let ts := if fk && negb (bool_decide (deleted = []))
            then filter (fun ts => ts.1 ≠ i) (tagset_rows d)
            else tagset_rows d in
  Ok (tt, with_tagset ts (with_record (record_columns d) kept d)).

(** ** Record repository *)

Definition get_all_records : M (list Record_) :=
  rows <- select (select_grouped (fun _ _ => true)) ;;
  lift (map_rows rows).

Definition get_record_by_id (i : Z) : M (option Record_) :=
  row <- select (fun d => fetchone (select_by_id i d)) ;;
  match row with
  | None => ret None
  | Some row => r <- lift (map_row_to_record row) ;; ret (Some r)
  end.

Definition add_record (record : Record_) : M Z :=
  let data :=
    [ ("name", name record);
      ("model_type", VText (ModelType_value (model_type record)));
      ("download_url", download_url record);
      ("url", url record);
      ("download_path", download_path record);
      ("download_filename", download_filename record);
      ("preview_url", preview_url record);
      ("description", description record);
      ("positive_prompts", positive_prompts record);
      ("negative_prompts", negative_prompts record);
      ("sha256_hash", sha256_hash record);
      ("md5_hash", md5_hash record);
      ("created_at", created_at record);
      ("groups", VText (join "," (groups record)));
      ("subdir", subdir record);
      ("location", location record);
      ("weight", weight record);
      ("backup_url", backup_url record) ] in
  lastrowid <- dml (sql_insert_record data) ;;
  commit ;;
  ret lastrowid.

Definition update_record (record : Record_) : M unit :=
  let data :=
    [ ("name", name record);
      ("model_type", VText (ModelType_value (model_type record)));
      ("download_url", download_url record);
      ("url", url record);
      ("download_path", download_path record);
      ("download_filename", download_filename record);
      ("preview_url", preview_url record);
      ("description", description record);
      ("positive_prompts", positive_prompts record);
      ("negative_prompts", negative_prompts record);
      ("sha256_hash", sha256_hash record);
      ("md5_hash", md5_hash record);
      ("groups", VText (join "," (groups record)));
      ("subdir", subdir record);
      ("location", location record);
      ("weight", weight record);
      ("backup_url", backup_url record) ] in
  dml (sql_update_record data (id_ record)) ;;
  commit.

Definition remove_record (_id : Z) : M unit :=
  dml (sql_delete_record _id) ;;
  commit.

(** ** Tag repository *)

(** [INSERT INTO Tag(name) VALUES(?)]: [name] is UNIQUE. *)
Definition sql_insert_tag (tag : string) (fk : bool) (d : database)
    : outcome (Z * database) :=
  if bool_decide (tag ∈ map snd (tag_rows d)) then Raise IntegrityError
  else
    let i := next_rowid (map fst (tag_rows d)) in
    Ok (i, with_tags (tag_rows d ++ [(i, tag)]) d).

(** [DELETE FROM Tag WHERE <p>]; with foreign keys enforced, the
    [ON DELETE CASCADE] of [TagSet.tag_id] removes the TagSet rows of the
    deleted Tag rows. *)
Definition sql_delete_tags (p : Z * string -> bool) (fk : bool) (d : database)
    : outcome (unit * database) :=
  let kept := filter (fun t => p t = false) (tag_rows d) in
  let gone := map fst (filter (fun t => p t = true) (tag_rows d)) in
  let ts := if fk then filter (fun ts => ts.2 ∉ gone) (tagset_rows d)
            else tagset_rows d in
  Ok (tt, with_tagset ts (with_tags kept d)).

(** [DELETE FROM TagSet WHERE record_id = ?]. *)
Definition sql_delete_tagset (record_id : Z) (fk : bool) (d : database)
    : outcome (unit * database) :=
  Ok (tt, with_tagset (filter (fun ts => ts.1 ≠ record_id) (tagset_rows d)) d).

(** [INSERT INTO TagSet(record_id, tag_id) VALUES(?, ?)]; with foreign keys
    enforced both parents must exist. *)
Definition sql_insert_tagset (record_id tag_id : Z) (fk : bool) (d : database)
    : outcome (unit * database) :=
  if fk && negb (bool_decide (record_id ∈ map rowid (record_rows d))
                 && bool_decide (tag_id ∈ map fst (tag_rows d)))
  then Raise IntegrityError
  else Ok (tt, with_tagset (tagset_rows d ++ [(record_id, tag_id)]) d).

(** [DELETE FROM Tag WHERE id NOT IN (SELECT DISTINCT tag_id FROM TagSet)]. *)
Definition sql_delete_orphan_tags (fk : bool) (d : database)
    : outcome (unit * database) :=
  let used := remove_dups (map snd (tagset_rows d)) in
  sql_delete_tags (fun t => bool_decide (t.1 ∉ used)) fk d.

Definition get_all_tags : M (list string) :=
  rows <- select (fun d => map snd (tag_rows d)) ;;
  let result := map lower (filter (fun n => is_empty n = false) rows) in
  ret (remove_dups result).

Definition add_tag (tag : string) : M Z :=
  let tag := lower tag in
  lastrowid <- dml (sql_insert_tag tag) ;;
  commit ;;
  ret lastrowid.

Definition remove_tag (tag_name : string) (tag_id : option Z) : M unit :=
  let tag_name := if is_empty tag_name then None else Some (lower tag_name) in
  match tag_id with
  | None => dml (sql_delete_tags (fun t => bool_decide (Some t.2 = tag_name)))
  | Some i => dml (sql_delete_tags (fun t => bool_decide (t.1 = i)))
  end ;;
  commit.

(** [SELECT t.name FROM Tag t JOIN TagSet ts ON t.id = ts.tag_id
     WHERE ts.record_id = ?]. *)
Definition select_tag_names (record_id : Z) (d : database) : list string :=
  filter (fun ts => ts.1 = record_id) (tagset_rows d)
    ≫= (fun ts => map snd (filter (fun t => t.1 = ts.2) (tag_rows d))).

Definition get_tags_for_record (record_id : Z) : M (list string) :=
  rows <- select (select_tag_names record_id) ;;
  ret (map lower (filter (fun n => is_empty n = false) rows)).

(** The Python sets of [set_tags_for_record] are kept as duplicate-free
    lists in the order of first occurrence; Python leaves the iteration
    order of a set open. *)
Definition set_tags_for_record (record_id : Z) (tag_list : list string) : M unit :=
  let tag_list := map lower (filter (fun t => is_empty t = false) tag_list) in
  current <- get_tags_for_record record_id ;;
  let current_tags_names := remove_dups current in
  let new_tags := remove_dups (filter (fun t => t ∉ current_tags_names) tag_list) in
  let existing_tags := remove_dups (filter (fun t => t ∈ current_tags_names) tag_list) in
  tag_name_to_id <-
    for_fold new_tags [] (fun dict tag =>
      tag_id <- add_tag tag ;;
      ret (dict_set tag tag_id dict)) ;;
  tag_name_to_id <-
    match existing_tags with
    | [] => ret tag_name_to_id
    | _ =>
        rows <- select (fun d => filter (fun t => t.2 ∈ existing_tags) (tag_rows d)) ;;
        ret (foldl (fun dict row => dict_set row.2 row.1 dict) tag_name_to_id rows)
    end ;;
  dml (sql_delete_tagset record_id) ;;
  for_each tag_name_to_id (fun item =>
    dml (sql_insert_tagset record_id item.2)) ;;
  commit ;;
  dml sql_delete_orphan_tags ;;
  commit.

(** ** Schema statements *)

(** [CREATE TABLE IF NOT EXISTS Record (...)]. *)
Definition sql_create_record (d : database) : outcome database :=
  match record_columns d with
  | [] => Ok (with_record current_columns [] d)
  | _ :: _ => Ok d
  end.

(** [CREATE TABLE IF NOT EXISTS] for Tag, TagSet and Version: a relation
    that is absent shows as one without rows. *)
Definition sql_create_if_not_exists (d : database) : outcome database := Ok d.

(** [ALTER TABLE Record ADD COLUMN c ... DEFAULT v]: fails on a missing
    table and on a column name already in use; existing rows read the
    default in the new column. *)
Definition sql_add_column (c : string) (a : affinity) (v : value) (d : database)
    : outcome database :=
  match record_columns d with
  | [] => Raise OperationalError
  | cols =>
      if bool_decide (c ∈ "id" :: map col_name cols) then Raise OperationalError
      else Ok (with_record
                 (cols ++ [{| col_name := c; col_affinity := a; col_default := v |}])
                 (map (fun r => {| rowid := rowid r; cells := cells r ++ [v] |})
                      (record_rows d))
                 d)
  end.

(** [ALTER TABLE Record RENAME COLUMN a TO b]: fails when [a] is not a
    column or [b] already is one. *)
Definition sql_rename_column (a b : string) (d : database) : outcome database :=
  let names := map col_name (record_columns d) in
  if bool_decide (a ∈ names) && negb (bool_decide (b ∈ "id" :: names))
  then Ok (with_record
             (map (fun c => if String.eqb (col_name c) a
                            then {| col_name := b; col_affinity := col_affinity c;
                                    col_default := col_default c |}
                            else c)
                  (record_columns d))
             (record_rows d) d)
  else Raise OperationalError.

(** [DELETE FROM Version]. *)
Definition sql_delete_version (fk : bool) (d : database)
    : outcome (unit * database) :=
  Ok (tt, with_version [] d).

(** [INSERT INTO Version VALUES (n)]. *)
Definition sql_insert_version (n : Z) (fk : bool) (d : database)
    : outcome (unit * database) :=
  Ok (tt, with_version (version_rows d ++ [n]) d).

(** ** Schema migrator *)

Definition _DB_VERSION : Z := 8.

(** [os.path.isfile], [os.remove] and [shutil.copy] on the backup files. *)
Definition isfile (n : Z) : M bool :=
  fun w => (Ok (bool_decide (is_Some (backups w !! n))), w).

Definition os_remove (n : Z) : M unit :=
  fun w => (Ok tt, {| disk := disk w; view := view w; in_txn := in_txn w;
                      foreign_keys := foreign_keys w;
                      backups := delete n (backups w) |}).

Definition shutil_copy_db (n : Z) : M unit :=
  fun w => (Ok tt, {| disk := disk w; view := view w; in_txn := in_txn w;
                      foreign_keys := foreign_keys w;
                      backups := <[n := disk w]> (backups w) |}).

Definition _backup_database (migrate_from : Z) : M unit :=
  let backup_db_file_path := migrate_from in
  let last_backup_db_file_path :=
    if 1 <? migrate_from then Some (migrate_from - 1) else None in
  match last_backup_db_file_path with
  | Some last =>
      present <- isfile last ;;
      if present then os_remove last else ret tt
  | None => ret tt
  end ;;
  shutil_copy_db backup_db_file_path.

Definition _migrate_1_to_2 : M unit :=
  ddl (sql_add_column "created_at" INTEGER (VInt 0)) ;;
  dml sql_delete_version ;;
  dml (sql_insert_version 2) ;;
  commit.

Definition _migrate_2_to_3 : M unit :=
  ddl (sql_add_column "groups" TEXT (VText EmptyString)) ;;
  dml sql_delete_version ;;
  dml (sql_insert_version 3) ;;
  commit.

Definition _migrate_3_to_4 : M unit :=
  ddl (sql_rename_column "model_hash" "sha256_hash") ;;
  ddl (sql_add_column "subdir" TEXT (VText EmptyString)) ;;
  dml sql_delete_version ;;
  dml (sql_insert_version 4) ;;
  commit.

Definition _migrate_4_to_5 : M unit :=
  ddl (sql_add_column "location" TEXT (VText EmptyString)) ;;
  dml sql_delete_version ;;
  dml (sql_insert_version 5) ;;
  commit.

Definition _migrate_5_to_6 : M unit :=
  ddl (sql_add_column "weight" REAL (VReal 1)) ;;
  dml sql_delete_version ;;
  dml (sql_insert_version 6) ;;
  commit.

Definition _migrate_6_to_7 : M unit :=
  ddl (sql_add_column "backup_url" TEXT (VText EmptyString)) ;;
  dml sql_delete_version ;;
  dml (sql_insert_version 7) ;;
  commit.

Definition _migrate_7_to_8 : M unit :=
  ddl sql_create_if_not_exists ;;
  ddl sql_create_if_not_exists ;;
  ddl (sql_rename_column "_name" "name") ;;
  dml sql_delete_version ;;
  dml (sql_insert_version 8) ;;
  commit.

Definition migration_map : gmap Z (M unit) :=
  {[ 1 := _migrate_1_to_2;
     2 := _migrate_2_to_3;
     3 := _migrate_3_to_4;
     4 := _migrate_4_to_5;
     5 := _migrate_5_to_6;
     6 := _migrate_6_to_7;
     7 := _migrate_7_to_8 ]}.

(** The loop of [_run_migration] over a registry of steps and an upper
    version; [range(a, b)] is [seqZ a (b - a)]. *)
Definition run_migration_with (registry : gmap Z (M unit)) (upto : Z)
    (current_version : Z) : M unit :=
  for_each (seqZ current_version (upto - current_version)) (fun ver =>
    _backup_database ver ;;
    match registry !! ver with
    | None => raise (MissingMigration ver)
    | Some migration => migration
    end).

Definition _run_migration (current_version : Z) : M unit :=
  run_migration_with migration_map _DB_VERSION current_version.

Definition _check_database_version : M unit :=
  row <- select (fun d => fetchone (version_rows d)) ;;
  match row with
  | None => dml (sql_insert_version _DB_VERSION) ;; commit
  | Some _ => ret tt
  end ;;
  let version := match row with None => _DB_VERSION | Some v => v end in
  if bool_decide (version ≠ _DB_VERSION) then _run_migration version else ret tt.

Definition _initialize : M unit :=
  ddl sql_create_record ;;
  ddl sql_create_if_not_exists ;;
  ddl sql_create_if_not_exists ;;
  ddl sql_create_if_not_exists ;;
  commit ;;
  _check_database_version.

(** [SQLiteStorage()] on a database file and its backup files. *)
Definition SQLiteStorage (file : database) (baks : gmap Z database)
    : outcome unit * world :=
  _initialize (sqlite3_connect file baks).

(** ** The composed query *)

Definition select_joined_text : string :=
  "
            SELECT r.*, GROUP_CONCAT(t.name, ',') AS tags
            FROM Record r
            LEFT JOIN TagSet ts ON r.id = ts.record_id
            LEFT JOIN Tag t ON t.id = ts.tag_id
            ".

(** [x is not None and len(x) > 0], [if x:] on an optional string or list. *)
Definition nonempty_str (s : option string) : bool :=
  match s with Some s => negb (is_empty s) | None => false end.

Definition nonempty_list {A} (l : option (list A)) : bool :=
  match l with Some (_ :: _) => true | _ => false end.

(** [for idx, group in enumerate(groups): ...] of [query_records], on its
    variables [query] and [append_and]. *)
Definition groups_loop (query : string) (append_and : bool) (idx : nat)
    (groups : list string) : string :=
  (foldl (fun '(query, append_and, idx) (group : string) =>
            let query :=
              if (append_and : bool) || (0 <? idx)%nat
              then query +:+ " AND" else query in
            let query := query +:+ " t.name LIKE %?%" in
            (query, true, S idx))
         (query, append_and, idx) groups).1.1.

(** The text [query_records] builds.  [query], [is_where_appended] and
    [append_and] are the source's variables, threaded through its three
    [if] blocks and the loop over [groups]. *)
Definition query_text (name_query : option string)
    (groups model_types : option (list string)) : string :=
  let query := select_joined_text in
  let is_where_appended := false in
  let append_and := false in
  let '(query, is_where_appended, append_and) :=
    if nonempty_str name_query then
      let '(query, is_where_appended) :=
        if negb is_where_appended then (query +:+ " WHERE", true)
        else (query, is_where_appended) in
      let query := query +:+ " LOWER(r.name) LIKE '%?%'" in
      (query, is_where_appended, true)
    else (query, is_where_appended, append_and) in
  let '(query, is_where_appended, append_and) :=
    if nonempty_list model_types then
      let '(query, is_where_appended) :=
        if negb is_where_appended then (query +:+ " WHERE", true)
        else (query, is_where_appended) in
      let query := if append_and : bool then query +:+ " AND" else query in
      let query := query +:+ " (" in
      let query :=
        query +:+ join " OR " (map (fun _ => "r.model_type=?")
                                   (default [] model_types)) in
      let query := query +:+ ")" in
      (query, is_where_appended, true)
    else (query, is_where_appended, append_and) in
  let query :=
    if nonempty_list groups then
      let query :=
        if negb is_where_appended then query +:+ " WHERE" else query in
      groups_loop query append_and O (default [] groups)
    else query in
  query +:+ " GROUP BY r.id".

Definition query_params (name_query : option string)
    (groups model_types : option (list string)) : list string :=
  let params := [] in
  let params :=
    if nonempty_str name_query
    then params ++ ["%" +:+ lower (default EmptyString name_query) +:+ "%"]
    else params in
  let params :=
    if nonempty_list model_types then params ++ default [] model_types
    else params in
  let params :=
    if nonempty_list groups
    then params ++ map (fun g => "%" +:+ lower g +:+ "%") (default [] groups)
    else params in
  params.

(** [bool(record.location) and os.path.exists(record.location)].
    [location] is a TEXT column: a cell of it is NULL or a text, and for
    the other storage classes the model answers [false]. *)
Definition is_downloaded (loc : value) : bool :=
  match loc with
  | VText s => truthy loc && os_path_exists s
  | _ => false
  end.

Definition query_records (name_query : option string)
    (groups model_types : option (list string))
    (show_downloaded show_not_downloaded : bool) : M (list Record_) :=
  let query := query_text name_query groups model_types in
  let params := query_params name_query groups model_types in
  rows <- (fun w => (execute_select query params (view w), w)) ;;
  for_fold rows [] (fun result row =>
    record <- lift (map_row_to_record row) ;;
    let is_downloaded := is_downloaded (location record) in
    if show_downloaded && is_downloaded then ret (result ++ [record])
    else if show_not_downloaded && negb is_downloaded then ret (result ++ [record])
    else ret result).

(** ** The reads over the inner join

    [get_records_by_group], [get_records_by_name], [get_records_by_url] and
    [get_records_by_download_destination] run over
    [Record r JOIN TagSet ts ON r.id = ts.record_id
              JOIN Tag t ON t.id = ts.tag_id]. *)

(** The [t.name] of the rows joined to one Record row: none when the record
    has no TagSet row whose Tag row exists. *)
Definition inner_joined (d : database) (rid : Z) : list string :=
  filter (fun ts => ts.1 = rid) (tagset_rows d)
    ≫= (fun ts => map snd (filter (fun t => t.1 = ts.2) (tag_rows d))).

(** [SELECT r.*, GROUP_CONCAT(t.name, ',') AS tags FROM <inner join>
     WHERE cond group by r.id]: one row for each Record row that has a
    joined row passing [cond]. *)
Definition select_inner_grouped (cond : rec_row -> string -> bool)
    (d : database) : list (list value) :=
  omap (fun r =>
          match filter (fun n => cond r n = true) (inner_joined d (rowid r)) with
          | [] => None
          | ns => Some (star r ++ [group_concat (map Some ns)])
          end)
       (record_rows d).

(** [x = y]: never true of NULL; numbers compare by value, texts byte by
    byte, and a number is not a text. *)
Definition sql_eq (x y : value) : bool :=
  match x, y with
  | VInt n, VInt m => n =? m
  | VReal p, VReal q => Qeq_bool p q
  | VInt n, VReal q => Qeq_bool (inject_Z n) q
  | VReal q, VInt n => Qeq_bool q (inject_Z n)
  | VText s, VText t => String.eqb s t
  | _, _ => false
  end.

(** [r.c = ?]: the affinity of the column is applied to the bound value
    before the two are compared. *)
Definition column_eq (d : database) (c : string) (p : value) (r : rec_row) : bool :=
  match index_of c (column_names d) with
  | Some i =>
      let a := default TEXT (col_affinity <$> record_columns d !! i) in
      sql_eq (default VNull (cells r !! i)) (affinity_cast a p)
  | None => false
  end.

(** The SELECT over the inner join with [WHERE r.c1=? AND ... AND r.cn=?];
    a column the table does not have is an error when the statement is
    prepared. *)
Definition select_inner_where (cols : list (string * value)) (d : database)
    : outcome (list (list value)) :=
  if forallb (fun cv => bool_decide (cv.1 ∈ column_names d)) cols
  then Ok (select_inner_grouped
             (fun r _ => forallb (fun cv => column_eq d cv.1 cv.2 r) cols) d)
  else Raise OperationalError.

(** [cursor.execute] of a SELECT that can fail, then [fetchall]. *)
Definition execute {A} (q : database -> outcome A) : M A :=
  fun w => (q (view w), w).

(** [WHERE t.name LIKE '%' || LOWER(?) || '%'] over the inner join; the
    statement names no column of Record, and is rejected when the table is
    not there. *)
Definition get_records_by_group (group : string) : M (list Record_) :=
  rows <- execute (fun d =>
            match record_columns d with
            | [] => Raise OperationalError
            | _ :: _ =>
                Ok (select_inner_grouped
                      (fun _ n => sql_like n ("%" +:+ lower group +:+ "%")) d)
            end) ;;
  lift (map_rows rows).

Definition get_records_by_name (record_name : value) : M (list Record_) :=
  rows <- execute (select_inner_where [("name", record_name)]) ;;
  lift (map_rows rows).

Definition get_records_by_url (url : value) : M (list Record_) :=
  rows <- execute (select_inner_where [("url", url)]) ;;
  lift (map_rows rows).

Definition get_records_by_download_destination
    (download_path download_filename : value) : M (list Record_) :=
  rows <- execute (select_inner_where
                     [("download_path", download_path);
                      ("download_filename", download_filename)]) ;;
  lift (map_rows rows).

(** [SELECT location FROM Record], and the loop that keeps the truthy
    cells. *)
Definition get_all_records_locations : M (list value) :=
  rows <- execute (fun d =>
            if bool_decide ("location" ∈ column_names d)
            then Ok (map (fun r => [cell_of d "location" r]) (record_rows d))
            else Raise OperationalError) ;;
  for_fold rows [] (fun result row =>
    r0 <- lift (index row 0) ;;
    if truthy r0 then ret (result ++ [r0]) else ret result).

(** ** What the theorems speak about *)

(** Names and affinities of the Record columns after [id]. *)
Definition schema_of (d : database) : list (string * affinity) :=
  map (fun c => (col_name c, col_affinity c)) (record_columns d).

Definition current_schema : list (string * affinity) :=
  map (fun c => (col_name c, col_affinity c)) current_columns.

(** The fields of a Record hold values of the classes their columns
    declare (or None). *)
Definition declared_types (r : Record_) : Prop :=
  Forall (fun v => fits TEXT v = true)
    [ name r; download_url r; url r; download_path r; download_filename r;
      preview_url r; description r; positive_prompts r; negative_prompts r;
      sha256_hash r; md5_hash r; subdir r; location r; backup_url r ]
  /\ fits INTEGER (created_at r) = true
  /\ fits REAL (weight r) = true.

(** The groups come back from [','.join] and [split(',')] as they went in:
    no group holds a comma, and the list is not the one empty string (which
    joins to the empty text, as the empty list does). *)
Definition groups_survive (gs : list string) : Prop :=
  Forall (fun g => has_comma g = false) gs /\ gs <> [EmptyString].

(** A Record with the identifier the store assigned. *)
Definition with_id (i : Z) (r : Record_) : Record_ :=
  {| id_ := VInt i;
     name := name r;
     model_type := model_type r;
     download_url := download_url r;
     url := url r;
     download_path := download_path r;
     download_filename := download_filename r;
     preview_url := preview_url r;
     description := description r;
     positive_prompts := positive_prompts r;
     negative_prompts := negative_prompts r;
     sha256_hash := sha256_hash r;
     md5_hash := md5_hash r;
     created_at := created_at r;
     groups := groups r;
     subdir := subdir r;
     location := location r;
     weight := weight r;
     backup_url := backup_url r |}.

(** The stored [created_at] of every Record row, by rowid. *)
Definition created_at_column (d : database) : list (Z * value) :=
  map (fun r => (rowid r, cell_of d "created_at" r)) (record_rows d).

(** The cells [update_record] leaves in a row: the record's fields, and the
    row's own [created_at]. *)
Definition updated_cells (record : Record_) (old : list value) : list value :=
  [ name record;
    VText (ModelType_value (model_type record));
    download_url record;
    url record;
    download_path record;
    download_filename record;
    preview_url record;
    description record;
    positive_prompts record;
    negative_prompts record;
    sha256_hash record;
    md5_hash record;
    default VNull (old !! 12%nat);
    VText (join "," (groups record));
    subdir record;
    location record;
    weight record;
    backup_url record ].

(** ** Vocabulary of the lemmas *)

(** What [get_tags_for_record] returns. *)
Definition tags_for (d : database) (record_id : Z) : list string :=
  map lower (filter (fun n => is_empty n = false) (select_tag_names record_id d)).

(** The world after a statement that failed. *)
Definition after_failed_dml (w : world) : world :=
  {| disk := disk w; view := view w; in_txn := true;
     foreign_keys := foreign_keys w; backups := backups w |}.

(** What [get_all_tags] returns. *)
Definition all_tags (d : database) : list string :=
  remove_dups (map lower (filter (fun n => is_empty n = false) (map snd (tag_rows d)))).

(** The names of the Record columns after [id] at each schema version: the
    current ones with the steps of the chain undone. *)
Definition schema_at (v : Z) : list string :=
  [ if v <? 8 then "_name" else "name";
    "model_type"; "download_url"; "url"; "download_path"; "download_filename";
    "preview_url"; "description"; "positive_prompts"; "negative_prompts";
    if v <? 4 then "model_hash" else "sha256_hash";
    "md5_hash" ]
  ++ (if 2 <=? v then ["created_at"] else [])
  ++ (if 3 <=? v then ["groups"] else [])
  ++ (if 4 <=? v then ["subdir"] else [])
  ++ (if 5 <=? v then ["location"] else [])
  ++ (if 6 <=? v then ["weight"] else [])
  ++ (if 7 <=? v then ["backup_url"] else []).

(** One pass of the loop of [_run_migration]. *)
Definition migration_pass (registry : gmap Z (M unit)) (ver : Z) : M unit :=
  _backup_database ver ;;
  match registry !! ver with
  | None => raise (MissingMigration ver)
  | Some migration => migration
  end.

(** The backup files another run of the same scheme can have left: none, or
    the one taken before the step that led to version [v]. *)
Definition backups_before (v : Z) (w : world) : Prop :=
  forall k, is_Some (backups w !! k) -> k = v - 1 /\ 1 < v.

(** What a step of the chain establishes. *)
Definition migrated_to (n : Z) (w w' : world) : Prop :=
  column_names (view w') = schema_at n
  /\ version_rows (view w') = [n]
  /\ disk w' = view w'
  /\ in_txn w' = false
  /\ backups w' = backups w.

(** The state after [n] passes from version [v]. *)
Definition chain_state (v : Z) (n : nat) (w w' : world) : Prop :=
  column_names (view w') = schema_at (v + Z.of_nat n)
  /\ backups_before (v + Z.of_nat n) w'
  /\ ((0 < n)%nat ->
      disk w' = view w'
      /\ version_rows (view w') = [v + Z.of_nat n]
      /\ in_txn w' = false
      /\ exists snap,
           backups w' = {[ v + Z.of_nat n - 1 := snap ]}
           /\ ((1 < n)%nat -> version_rows snap = [v + Z.of_nat n - 1]))
  /\ (n = O -> w' = w).

Definition quoting (m : lex_mode) : bool :=
  match m with LQuote _ => true | _ => false end.

(** The tokens of [' OR '.join(['r.model_type=?' for _ in model_types])]. *)
Fixpoint eqs_tokens (n : nat) : list token :=
  match n with
  | O => []
  | S O => [TWord "r.model_type"; TSym "="; TParam]
  | S n' => [TWord "r.model_type"; TSym "="; TParam; TWord "OR"] ++ eqs_tokens n'
  end.

(** The tokens of the clauses [query_records] writes for [groups]: [AND]
    before each clause but a first one that opens the WHERE. *)
Fixpoint tag_tokens (append_and : bool) (groups : list string) : list token :=
  match groups with
  | [] => []
  | _ :: groups' =>
      (if append_and then [TWord "AND"] else [])
      ++ [TWord "t.name"; TWord "LIKE"; TSym "%"; TParam; TSym "%"]
      ++ tag_tokens true groups'
  end.

Definition name_tokens : list token :=
  [TWord "LOWER"; TSym "("; TWord "r.name"; TSym ")"; TWord "LIKE"; TStr "%?%"].

(** The tokens between the joined SELECT and [GROUP BY]. *)
Definition where_tokens (name_query : option string)
    (groups model_types : option (list string)) : list token :=
  let n := nonempty_str name_query in
  let m := nonempty_list model_types in
  let g := nonempty_list groups in
  (if n || m || g then [TWord "WHERE"] else [])
  ++ (if n then name_tokens else [])
  ++ (if m then (if n then [TWord "AND"] else [])
                ++ [TSym "("] ++ eqs_tokens (length (default [] model_types))
                ++ [TSym ")"]
      else [])
  ++ (if g then tag_tokens (n || m) (default [] groups) else []).

(** Preparing a statement fails with an OperationalError only. *)
Definition operational {A} (x : outcome A) : Prop :=
  match x with
  | Ok _ => True
  | Raise e => e = OperationalError
  end.

(** The test the loop of [query_records] applies to a mapped row. *)
Definition kept (show_downloaded show_not_downloaded : bool)
    (record : Record_) : bool :=
  let is_downloaded := is_downloaded (location record) in
  if show_downloaded && is_downloaded then true
  else if show_not_downloaded && negb is_downloaded then true
  else false.

(** [r.model_type = m1 OR ... OR r.model_type = mn]. *)
Definition model_type_in (d : database) (model_types : list string)
    (r : rec_row) : bool :=
  match cell_of d "model_type" r with
  | VText s => existsb (String.eqb s) model_types
  | _ => false
  end.

(** [m] leaves the connection's foreign-key setting as it finds it. *)
Definition keeps_foreign_keys {A} (m : M A) : Prop :=
  forall w, foreign_keys (m w).2 = foreign_keys w.

(** ** Vocabulary of the further properties *)

(** A cell [map_row_to_record] can turn into groups: a text, or a value
    that is not truthy. *)
Definition splittable (v : value) : bool :=
  match v with VText _ => true | _ => negb (truthy v) end.

(** The [i]-th cell of a Record row after [id]; NULL where the row is
    shorter. *)
Definition cell (r : rec_row) (i : nat) : value := default VNull (cells r !! i).

(** A Record row the mapper accepts. *)
Definition readable (r : rec_row) : Prop :=
  (18 <= length (cells r))%nat /\ splittable (cell r 13) = true.

(** The Record the mapper makes of a Record row. *)
Definition record_of_row (r : rec_row) : Record_ :=
  {| id_ := VInt (rowid r);
     name := cell r 0;
     model_type := ModelType_by_value (cell r 1);
     download_url := cell r 2;
     url := cell r 3;
     download_path := cell r 4;
     download_filename := cell r 5;
     preview_url := cell r 6;
     description := cell r 7;
     positive_prompts := cell r 8;
     negative_prompts := cell r 9;
     sha256_hash := cell r 10;
     md5_hash := cell r 11;
     created_at := cell r 12;
     groups := match cell r 13 with
               | VText s => if is_empty s then [] else split_comma s
               | _ => []
               end;
     subdir := cell r 14;
     location := cell r 15;
     weight := cell r 16;
     backup_url := cell r 17 |}.

(** The cells [add_record] binds, in the order of the columns. *)
Definition cells_of_record (record : Record_) : list value :=
  [ name record;
    VText (ModelType_value (model_type record));
    download_url record;
    url record;
    download_path record;
    download_filename record;
    preview_url record;
    description record;
    positive_prompts record;
    negative_prompts record;
    sha256_hash record;
    md5_hash record;
    created_at record;
    VText (join "," (groups record));
    subdir record;
    location record;
    weight record;
    backup_url record ].

(** The world after a statement and its commit left the database [d]. *)
Definition committed (d : database) (w : world) : world :=
  {| disk := d; view := d; in_txn := false;
     foreign_keys := foreign_keys w; backups := backups w |}.

(** The Record row has a tag: a TagSet row whose Tag row exists. *)
Definition tagged (d : database) (r : rec_row) : bool :=
  match inner_joined d (rowid r) with [] => false | _ :: _ => true end.

(** The pattern [get_records_by_group] matches the tag names against. *)
Definition group_pattern (group : string) : string :=
  "%" +:+ lower group +:+ "%".

(** A Record as [update_record] leaves it in the store: its fields, under
    the identifier of the row, with the [created_at] the row had. *)
Definition updated_record (i : Z) (created : value) (record : Record_)
    : Record_ :=
  {| id_ := VInt i;
     name := name record;
     model_type := model_type record;
     download_url := download_url record;
     url := url record;
     download_path := download_path record;
     download_filename := download_filename record;
     preview_url := preview_url record;
     description := description record;
     positive_prompts := positive_prompts record;
     negative_prompts := negative_prompts record;
     sha256_hash := sha256_hash record;
     md5_hash := md5_hash record;
     created_at := created;
     groups := groups record;
     subdir := subdir record;
     location := location record;
     weight := weight record;
     backup_url := backup_url record |}.

(** The names of the Record columns after [id] in the current schema. *)
Definition current_names : list string := map col_name current_columns.

(** The Tag table as the store keeps it: ids and names without duplicates,
    names in lower case. *)
Definition tags_wf (d : database) : Prop :=
  NoDup (map fst (tag_rows d))
  /\ NoDup (map snd (tag_rows d))
  /\ Forall (fun t => lower t.2 = t.2) (tag_rows d).



(** The default of the column the migration step from version [k] adds;
    the step from 7 adds none. *)
Definition step_defaults (k : Z) : list value :=
  if k =? 1 then [VInt 0]
  else if k =? 5 then [VReal 1]
  else if (k =? 2) || (k =? 3) || (k =? 4) || (k =? 6) then [VText EmptyString]
  else [].

(** The defaults of the columns added from version [v] to the current
    one, in the order of the steps. *)
Definition added_defaults (v : Z) : list value :=
  seqZ v (_DB_VERSION - v) ≫= step_defaults.

(** A Record row with cells appended. *)
Definition extended (ds : list value) (r : rec_row) : rec_row :=
  {| rowid := rowid r; cells := cells r ++ ds |}.

(** The database the constructor finds or makes before it looks at the
    version: the Record table is created when it is not there. *)
Definition created (file : database) : database :=
  match record_columns file with
  | [] => with_record current_columns [] file
  | _ :: _ => file
  end.

(** [m] keeps a property of the database the connection sees, whether it
    returns or raises. *)
Definition preserves {A} (P : database -> Prop) (m : M A) : Prop :=
  forall w, P (view w) -> P (view (m w).2).

(** [m] leaves the connection, the database file and the backups as they
    are. *)
Definition read_only {A} (m : M A) : Prop := forall w, (m w).2 = w.

End Storage.

(** ** A concrete store

    An instance of the parameters, and a few stores and records, on which
    the theorems below are applied and the code is run. *)

Inductive model_type_demo := Checkpoint | Lora.

Definition value_demo (m : model_type_demo) : string :=
  match m with Checkpoint => "Checkpoint" | Lora => "Lora" end.

Definition by_value_demo (v : value) : model_type_demo :=
  match v with
  | VText s => if String.eqb s "Lora" then Lora else Checkpoint
  | _ => Checkpoint
  end.

(** One file exists. *)
Definition exists_demo (path : string) : bool :=
  String.eqb path "/models/anime.safetensors".

(** All values below fit their columns: the cast has nothing to convert. *)
Definition env_demo : Env :=
  {| ModelType := model_type_demo;
     ModelType_value := value_demo;
     ModelType_by_value := by_value_demo;
     os_path_exists := exists_demo;
     affinity_cast := fun _ v => v;
     affinity_cast_fits := fun _ _ _ => eq_refl |}.

Definition record_demo (n : string) (m : model_type_demo) (gs : list string)
    (loc : string) : Record_ (env := env_demo) :=
  {| id_ := VNull;
     name := VText n;
     model_type := (m : @ModelType env_demo);
     download_url := VText "https://example.org/m";
     url := VText EmptyString;
     download_path := VText EmptyString;
     download_filename := VText EmptyString;
     preview_url := VText EmptyString;
     description := VText EmptyString;
     positive_prompts := VText EmptyString;
     negative_prompts := VText EmptyString;
     sha256_hash := VText EmptyString;
     md5_hash := VText EmptyString;
     created_at := VInt 0;
     groups := gs;
     subdir := VText EmptyString;
     location := VText loc;
     weight := VReal 1;
     backup_url := VNull |}.

Definition add_record_demo := add_record (env := env_demo).
Definition update_record_demo := update_record (env := env_demo).
Definition get_record_by_id_demo := get_record_by_id (env := env_demo).
Definition get_all_records_demo := get_all_records (env := env_demo).
Definition query_records_demo := query_records (env := env_demo).

(** The state after running [m] from [w]. *)
Definition after {A} (m : M A) (w : world) : world := (m w).2.

(** [SQLiteStorage()] where there is no database file yet. *)
Definition store0 : world := (SQLiteStorage empty_database ∅).2.

(** Two records, none tagged. *)
Definition store2 : world :=
  after (add_record_demo (record_demo "Dragon" Lora [] EmptyString))
    (after (add_record_demo
              (record_demo "Anime V1" Checkpoint ["a"; "b"]
                 "/models/anime.safetensors"))
       store0).

(** Record 1 tagged x. *)
Definition store2x : world := after (set_tags_for_record 1 ["x"]) store2.

(** A database file as version 6 left it, with one row: the columns of
    the current schema that version 6 has, under the names it has them. *)
Definition database_v6 : database :=
  {| record_columns :=
       {| col_name := "_name"; col_affinity := TEXT; col_default := VNull |}
       :: filter (fun c => col_name c ∈ schema_at 6) current_columns;
     record_rows :=
       [ {| rowid := 1;
            cells := replicate (length (schema_at 6)) (VText EmptyString) |} ];
     tag_rows := [];
     tagset_rows := [];
     version_rows := [6] |}.

Definition store_v6 : world := sqlite3_connect database_v6 ∅.

(** A row of the joined projection, without its last column. *)
Definition row_demo : list value :=
  VInt 1 :: replicate 18 (VText EmptyString).

(** The registry of the source without its last step. *)
Definition registry_without_7 : gmap Z (M unit) := delete 7 migration_map.

(** What [get_all_records] returns on [store2]. *)
Definition all_demo : list (Record_ (env := env_demo)) :=
  [ with_id 1
      (record_demo "Anime V1" Checkpoint ["a"; "b"] "/models/anime.safetensors");
    with_id 2 (record_demo "Dragon" Lora [] EmptyString) ].

(** Record 1 again, renamed and with another timestamp. *)
Definition record_update_demo : Record_ (env := env_demo) :=
  {| id_ := VInt 1;
     name := VText "Anime V2";
     model_type := (Lora : @ModelType env_demo);
     download_url := VText "https://example.org/m2";
     url := VText EmptyString;
     download_path := VText EmptyString;
     download_filename := VText EmptyString;
     preview_url := VText EmptyString;
     description := VText EmptyString;
     positive_prompts := VText EmptyString;
     negative_prompts := VText EmptyString;
     sha256_hash := VText EmptyString;
     md5_hash := VText EmptyString;
     created_at := VInt 1700000000;
     groups := ["c"];
     subdir := VText EmptyString;
     location := VText EmptyString;
     weight := VReal 1;
     backup_url := VNull |}.

(** Record 2 tagged y. *)
Definition store2y : world := after (set_tags_for_record 2 ["y"]) store2.

(** The database of [store2] as a later version of the code would stamp
    it. *)
Definition database_v9 : database := with_version [9] (view store2).

(** A row of the joined projection whose groups cell holds a comma inside
    a group. *)
Definition row_groups_demo : list value :=
  VInt 1
  :: cells_of_record (env := env_demo)
       (record_demo "Anime V1" Checkpoint ["a,b"] EmptyString)
  ++ [VNull].

(** A Record that was never stored. *)
Definition record_new_demo : Record_ (env := env_demo) :=
  record_demo "Fresh" Lora ["c"] EmptyString.

Section Facts.

Context {env : Env}.

(** ** Strings *)

Lemma split_comma_no_comma s : has_comma s = false -> split_comma s = [s].
Proof.
  induction s as [|c s IH]; simpl; [reflexivity|].
  destruct (Ascii.eqb c comma); simpl; [discriminate|].
  intros H. rewrite (IH H). reflexivity.
Qed.

Lemma split_comma_app s t :
  has_comma s = false ->
  split_comma (s +:+ String comma t) = s :: split_comma t.
Proof.
  induction s as [|c s IH]; simpl.
  - intros _. reflexivity.
  - destruct (Ascii.eqb c comma); simpl; [discriminate|].
    intros H. rewrite (IH H). reflexivity.
Qed.

Lemma split_join gs :
  gs <> [] -> Forall (fun g => has_comma g = false) gs ->
  split_comma (join "," gs) = gs.
Proof.
  induction gs as [|g gs IH]; [congruence|].
  intros _ H. inversion H as [|? ? Hg Hgs]; subst.
  destruct gs as [|g' gs].
  - simpl. apply split_comma_no_comma, Hg.
  - change (join "," (g :: g' :: gs)) with (g +:+ String comma (join "," (g' :: gs))).
    rewrite split_comma_app by exact Hg.
    f_equal. apply IH; [discriminate|exact Hgs].
Qed.

Lemma append_empty s t : is_empty (s +:+ String comma t) = false.
Proof. destruct s; reflexivity. Qed.

Lemma join_is_empty gs :
  is_empty (join "," gs) = true -> gs = [] \/ gs = [EmptyString].
Proof.
  destruct gs as [|g [|g' gs]].
  - auto.
  - simpl. destruct g; [auto|discriminate].
  - intros H. exfalso.
    change (join "," (g :: g' :: gs))
      with (g +:+ String comma (join "," (g' :: gs))) in H.
    rewrite append_empty in H. discriminate.
Qed.

(** What [map_row_to_record] makes of the stored groups cell. *)
Lemma groups_cell_roundtrip gs :
  groups_survive gs ->
  (if truthy (VText (join "," gs)) then split (VText (join "," gs)) else Ok [])
  = Ok gs.
Proof.
  intros [Hc Hne]. simpl.
  destruct (is_empty (join "," gs)) eqn:E; simpl.
  - destruct (join_is_empty _ E) as [->| ->]; [reflexivity|congruence].
  - f_equal. apply split_join; [|exact Hc].
    intros ->. discriminate.
Qed.

(** ** Rowids *)

Lemma foldr_max_ge (i : Z) (l : list Z) :
  i <= foldr Z.max i l /\ Forall (fun j => j <= foldr Z.max i l) l.
Proof.
  induction l as [|j l [IH1 IH2]]; simpl.
  - split; [lia|constructor].
  - split; [lia|]. constructor; [lia|].
    eapply Forall_impl; [exact IH2|]. simpl. intros. lia.
Qed.

Lemma next_rowid_fresh (ids : list Z) :
  Forall (fun i => i < next_rowid ids) ids.
Proof.
  destruct ids as [|i l]; [constructor|]. unfold next_rowid.
  destruct (foldr_max_ge i l) as [H1 H2].
  constructor; [lia|].
  eapply Forall_impl; [exact H2|]. simpl. intros. lia.
Qed.


(** ** Round trip through [add_record] and [get_record_by_id] *)

Lemma schema_current_columns (d : database) :
  schema_of d = current_schema ->
  exists d1 d2 d3 d4 d5 d6 d7 d8 d9 d10 d11 d12 d13 d14 d15 d16 d17 d18,
    record_columns d =
      [ {| col_name := "name"; col_affinity := TEXT; col_default := d1 |};
        {| col_name := "model_type"; col_affinity := TEXT; col_default := d2 |};
        {| col_name := "download_url"; col_affinity := TEXT; col_default := d3 |};
        {| col_name := "url"; col_affinity := TEXT; col_default := d4 |};
        {| col_name := "download_path"; col_affinity := TEXT; col_default := d5 |};
        {| col_name := "download_filename"; col_affinity := TEXT; col_default := d6 |};
        {| col_name := "preview_url"; col_affinity := TEXT; col_default := d7 |};
        {| col_name := "description"; col_affinity := TEXT; col_default := d8 |};
        {| col_name := "positive_prompts"; col_affinity := TEXT; col_default := d9 |};
        {| col_name := "negative_prompts"; col_affinity := TEXT; col_default := d10 |};
        {| col_name := "sha256_hash"; col_affinity := TEXT; col_default := d11 |};
        {| col_name := "md5_hash"; col_affinity := TEXT; col_default := d12 |};
        {| col_name := "created_at"; col_affinity := INTEGER; col_default := d13 |};
        {| col_name := "groups"; col_affinity := TEXT; col_default := d14 |};
        {| col_name := "subdir"; col_affinity := TEXT; col_default := d15 |};
        {| col_name := "location"; col_affinity := TEXT; col_default := d16 |};
        {| col_name := "weight"; col_affinity := REAL; col_default := d17 |};
        {| col_name := "backup_url"; col_affinity := TEXT; col_default := d18 |} ].
Proof.
  unfold schema_of, current_schema. generalize (record_columns d). intros cols H.
  simpl in H.
  repeat (destruct cols as [|[? ? ?] cols]; [discriminate H|];
          simpl in H; injection H as -> -> H).
  destruct cols; [|discriminate H].
  repeat eexists.
Qed.




(** ** [update_record] and [created_at] *)

Lemma index_of_inj (names : list string) (a b : string) (i : nat) :
  index_of a names = Some i -> index_of b names = Some i -> a = b.
Proof.
  revert i. induction names as [|n names IH]; intros i; simpl; [discriminate|].
  destruct (String.eqb a n) eqn:Ea, (String.eqb b n) eqn:Eb.
  - apply String.eqb_eq in Ea, Eb. congruence.
  - intros [= <-]. destruct (index_of b names); discriminate.
  - intros Ha [= <-]. destruct (index_of a names); discriminate.
  - destruct (index_of a names) as [ia|] eqn:Ha; [|discriminate].
    destruct (index_of b names) as [ib|] eqn:Hb; [|discriminate].
    simpl. intros [= <-] [= ->]. eapply IH; eauto.
Qed.

(** Every position [resolve] returns is that of a name in the statement. *)
Lemma resolve_positions (cols : list column) (assign : list (string * value))
    (sets : list (nat * value)) :
  resolve cols assign = Ok sets ->
  Forall (fun iv => exists c, c ∈ map fst assign
                              /\ index_of c (map col_name cols) = Some iv.1) sets.
Proof.
  revert sets. induction assign as [|[c v] assign IH]; intros sets; simpl.
  - intros [= <-]. constructor.
  - destruct (index_of c (map col_name cols)) as [i|] eqn:Hi; [|discriminate].
    destruct (resolve cols assign) as [rest|] eqn:Hr; [|discriminate].
    simpl. intros [= <-]. constructor.
    + exists c. split; [left|exact Hi].
    + eapply Forall_impl; [exact (IH _ eq_refl)|].
      simpl. intros iv (c' & Hin & Hc'). exists c'. split; [right; exact Hin|exact Hc'].
Qed.

Lemma foldl_insert_lookup_ne (sets : list (nat * value)) (cs : list value) (j : nat) :
  Forall (fun iv => iv.1 <> j) sets ->
  foldl (fun cs iv => <[iv.1 := iv.2]> cs) cs sets !! j = cs !! j.
Proof.
  revert cs. induction sets as [|[i v] sets IH]; intros cs H; simpl; [reflexivity|].
  inversion H as [|? ? Hi Hs]; subst. rewrite IH by exact Hs.
  apply list_lookup_insert_ne. exact Hi.
Qed.

(** An UPDATE of Record leaves the cells of a column it does not name. *)
Lemma sql_update_record_frame (assign : list (string * value)) (key : value)
    (fk : bool) (d d' : database) (c : string) :
  c ∉ map fst assign ->
  sql_update_record assign key fk d = Ok (tt, d') ->
  map (fun r => (rowid r, cell_of d' c r)) (record_rows d')
  = map (fun r => (rowid r, cell_of d c r)) (record_rows d).
Proof.
  intros Hc. unfold sql_update_record.
  destruct (resolve (record_columns d) assign) as [sets|] eqn:Hr; [|discriminate].
  simpl. intros [= <-]. simpl. rewrite map_map. apply map_ext. intros r.
  destruct (id_matches key (rowid r)); [|reflexivity].
  simpl. f_equal. unfold cell_of, column_names. simpl.
  destruct (index_of c (map col_name (record_columns d))) as [j|] eqn:Hj;
    [|reflexivity].
  simpl. rewrite foldl_insert_lookup_ne; [reflexivity|].
  eapply Forall_impl; [exact (resolve_positions _ _ _ Hr)|].
  simpl. intros iv (c' & Hin & Hc') Heq. rewrite Heq in Hc'.
  apply Hc. rewrite (index_of_inj _ _ _ _ Hj Hc'). exact Hin.
Qed.

(** C10: [update_record] never changes a stored [created_at], whatever the
    record passed in holds, on any schema and whether or not the statement
    succeeds; on success the update is committed.  On the current schema it
    succeeds, and a row of the record's identifier then holds the record's
    fields in every other column. *)
Theorem update_record_keeps_created_at (record : Record_) (w : world) :
  let w' := (update_record record w).2 in
  created_at_column (view w') = created_at_column (view w)
  /\ ((update_record record w).1 = Ok tt ->
      disk w' = view w' /\
      created_at_column (disk w') = created_at_column (view w))
  /\ (schema_of (view w) = current_schema ->
      declared_types record ->
      (update_record record w).1 = Ok tt
      /\ map rowid (record_rows (view w')) = map rowid (record_rows (view w))
      /\ forall row, row ∈ record_rows (view w) ->
           id_matches (id_ record) (rowid row) = true ->
           length (cells row) = 18%nat ->
           {| rowid := rowid row; cells := updated_cells record (cells row) |}
             ∈ record_rows (view w')).
Proof.
  set (assign := ([ ("name", name record);
      ("model_type", VText (ModelType_value (model_type record)));
      ("download_url", download_url record);
      ("url", url record);
      ("download_path", download_path record);
      ("download_filename", download_filename record);
      ("preview_url", preview_url record);
      ("description", description record);
      ("positive_prompts", positive_prompts record);
      ("negative_prompts", negative_prompts record);
      ("sha256_hash", sha256_hash record);
      ("md5_hash", md5_hash record);
      ("groups", VText (join "," (groups record)));
      ("subdir", subdir record);
      ("location", location record);
      ("weight", weight record);
      ("backup_url", backup_url record) ] : list (string * value))).
  assert (Hnot : "created_at" ∉ map fst assign).
  { unfold assign. simpl. intros H.
    repeat (apply elem_of_cons in H; destruct H as [H|H]; [discriminate H|]).
    inversion H. }
  assert (Hrun : update_record record w
                 = match sql_update_record assign (id_ record) (foreign_keys w) (view w) with
                   | Ok (_, d) =>
                       (Ok tt, {| disk := d; view := d; in_txn := false;
                                  foreign_keys := foreign_keys w;
                                  backups := backups w |})
                   | Raise e =>
                       (Raise e, {| disk := disk w; view := view w; in_txn := true;
                                    foreign_keys := foreign_keys w;
                                    backups := backups w |})
                   end).
  { unfold update_record, bind, dml, commit. fold assign.
    destruct (sql_update_record assign (id_ record) (foreign_keys w) (view w))
      as [[[] d]|e]; reflexivity. }
  cbv zeta. rewrite Hrun.
  destruct (sql_update_record assign (id_ record) (foreign_keys w) (view w))
    as [[[] d]|e] eqn:Hu.
  - pose proof (sql_update_record_frame _ _ _ _ _ _ Hnot Hu) as Hf.
    cbn [fst snd view disk]. split; [exact Hf|]. split; [intros _; split; [reflexivity|exact Hf]|].
    intros Hs (Ht & Hc & Hw). split; [reflexivity|].
    destruct (schema_current_columns _ Hs)
      as (d1&d2&d3&d4&d5&d6&d7&d8&d9&d10&d11&d12&d13&d14&d15&d16&d17&d18&Hcols).
    repeat (apply Forall_cons_1 in Ht; destruct Ht as [? Ht]).
    unfold sql_update_record, assign in Hu. rewrite Hcols in Hu. simpl in Hu.
    rewrite !affinity_cast_fits in Hu by (assumption || reflexivity).
    injection Hu as <-. cbn [record_rows with_record].
    split; [rewrite map_map; apply map_ext; intros r; destruct (id_matches _ _); reflexivity|].
    intros row Hin Hid Hlen. apply list_elem_of_fmap.
    exists row. split; [|exact Hin]. rewrite Hid. f_equal.
    destruct row as [rid cs]. simpl in *.
    do 19 (destruct cs as [|? cs]; try discriminate Hlen). reflexivity.
  - cbn [fst snd view disk]. split; [reflexivity|]. split; [discriminate|].
    intros Hs (Ht & Hc & Hw). exfalso.
    destruct (schema_current_columns _ Hs)
      as (d1&d2&d3&d4&d5&d6&d7&d8&d9&d10&d11&d12&d13&d14&d15&d16&d17&d18&Hcols).
    unfold sql_update_record, assign in Hu. rewrite Hcols in Hu. simpl in Hu.
    discriminate Hu.
Qed.

(** ** [remove_record] and the associations *)

(** C6 does not hold of the code.  On a connection that does not enforce
    foreign keys, as every connection of the store is
    ([SQLiteStorage_foreign_keys] and the [keeps_] lemmas below),
    [remove_record] deletes the Record rows of the identifier and commits,
    and leaves TagSet as it was: the association rows of the removed record
    stay in the store. *)
Theorem remove_record_keeps_associations (i : Z) (w : world) :
  foreign_keys w = false ->
  exists w',
    remove_record i w = (Ok tt, w')
    /\ disk w' = view w'
    /\ (forall r, r ∈ record_rows (view w') -> rowid r <> i)
    /\ tagset_rows (view w') = tagset_rows (view w).
Proof.
  intros Hfk. unfold remove_record, bind, dml, commit, sql_delete_record.
  rewrite Hfk. simpl. eexists. split; [reflexivity|]. simpl.
  split; [reflexivity|]. split; [|reflexivity].
  intros r Hr. apply list_elem_of_filter in Hr. tauto.
Qed.

(** With foreign keys enforced the same call would cascade. *)
Lemma remove_record_cascades_if_enforced (i : Z) (w : world) :
  foreign_keys w = true ->
  i ∈ map rowid (record_rows (view w)) ->
  exists w',
    remove_record i w = (Ok tt, w')
    /\ forall ts, ts ∈ tagset_rows (view w') -> ts.1 <> i.
Proof.
  intros Hfk Hin. unfold remove_record, bind, dml, commit, sql_delete_record.
  rewrite Hfk. simpl.
  destruct (bool_decide (filter (fun r => rowid r = i) (record_rows (view w)) = []))
    eqn:E.
  - exfalso. apply bool_decide_eq_true in E.
    apply list_elem_of_fmap in Hin. destruct Hin as (r & -> & Hr).
    assert (H : r ∈ filter (fun r' => rowid r' = rowid r) (record_rows (view w)))
      by (apply list_elem_of_filter; auto).
    rewrite E in H. inversion H.
  - simpl. eexists. split; [reflexivity|]. simpl.
    intros ts Hts. apply list_elem_of_filter in Hts. tauto.
Qed.

(** No method of the store switches foreign keys on: the connection opened
    by the constructor has them off, and so has every state the store
    reaches. *)
Lemma keeps_bind {A B} (m : M A) (f : A -> M B) :
  keeps_foreign_keys m -> (forall a, keeps_foreign_keys (f a)) ->
  keeps_foreign_keys (bind m f).
Proof.
  intros Hm Hf w. unfold bind. specialize (Hm w).
  destruct (m w) as [[a|e] w1]; simpl in *; [|exact Hm].
  rewrite Hf. exact Hm.
Qed.

Lemma keeps_dml {A} (stmt : bool -> database -> outcome (A * database)) :
  keeps_foreign_keys (dml stmt).
Proof.
  intros w. unfold dml.
  destruct (stmt (foreign_keys w) (view w)) as [[a d]|e]; reflexivity.
Qed.

Lemma keeps_ddl (stmt : database -> outcome database) :
  keeps_foreign_keys (ddl stmt).
Proof. intros w. unfold ddl. destruct (stmt (view w)); reflexivity. Qed.

Lemma keeps_for_each {A} (l : list A) (body : A -> M unit) :
  (forall a, keeps_foreign_keys (body a)) -> keeps_foreign_keys (for_each l body).
Proof.
  intros Hb. induction l as [|a l IH]; [intros w; reflexivity|].
  apply keeps_bind; [apply Hb|intros _; exact IH].
Qed.

Lemma keeps_for_fold {A S} (l : list A) (s : S) (body : S -> A -> M S) :
  (forall s a, keeps_foreign_keys (body s a)) ->
  keeps_foreign_keys (for_fold l s body).
Proof.
  intros Hb. revert s. induction l as [|a l IH]; intros s; [intros w; reflexivity|].
  apply keeps_bind; [apply Hb|intros s'; apply IH].
Qed.

Ltac keeps :=
  repeat first
    [ apply keeps_dml | apply keeps_ddl
    | apply keeps_for_each; intros | apply keeps_for_fold; intros
    | apply keeps_bind; [|intros]
    | intros ?w; reflexivity ].

Lemma keeps_add_tag (tag : string) : keeps_foreign_keys (add_tag tag).
Proof. unfold add_tag. keeps. Qed.

Lemma keeps_add_record (record : Record_) : keeps_foreign_keys (add_record record).
Proof. unfold add_record. keeps. Qed.

Lemma keeps_update_record (record : Record_) :
  keeps_foreign_keys (update_record record).
Proof. unfold update_record. keeps. Qed.

Lemma keeps_remove_record (i : Z) : keeps_foreign_keys (remove_record i).
Proof. unfold remove_record. keeps. Qed.

Lemma keeps_remove_tag (tag_name : string) (tag_id : option Z) :
  keeps_foreign_keys (remove_tag tag_name tag_id).
Proof. unfold remove_tag. destruct tag_id; keeps. Qed.

Lemma keeps_set_tags_for_record (record_id : Z) (tag_list : list string) :
  keeps_foreign_keys (set_tags_for_record record_id tag_list).
Proof.
  unfold set_tags_for_record, get_tags_for_record.
  apply keeps_bind; [keeps|intros current].
  apply keeps_bind; [apply keeps_for_fold; intros; unfold add_tag; keeps|intros dict].
  apply keeps_bind; [destruct (remove_dups _); keeps|intros dict'].
  keeps.
Qed.

Lemma keeps_migrations (ver : Z) (migration : M unit) :
  migration_map !! ver = Some migration -> keeps_foreign_keys migration.
Proof.
  unfold migration_map. intros H.
  repeat (apply lookup_insert_Some in H; destruct H as [[_ <-]|[_ H]];
          [unfold _migrate_1_to_2, _migrate_2_to_3, _migrate_3_to_4,
             _migrate_4_to_5, _migrate_5_to_6, _migrate_6_to_7; keeps|]).
  apply lookup_singleton_Some in H. destruct H as [_ <-].
  unfold _migrate_7_to_8. keeps.
Qed.

Lemma keeps_backup_database (ver : Z) :
  keeps_foreign_keys (_backup_database ver).
Proof.
  intros w. unfold _backup_database, bind, isfile, os_remove, shutil_copy_db, ret.
  destruct (1 <? ver); [destruct (bool_decide _)|]; reflexivity.
Qed.

Lemma keeps_initialize : keeps_foreign_keys _initialize.
Proof.
  unfold _initialize, _check_database_version, select.
  do 5 (apply keeps_bind; [keeps|intros _]).
  apply keeps_bind; [keeps|intros row].
  apply keeps_bind; [destruct row; keeps|intros _].
  destruct (bool_decide _); [|keeps].
  unfold _run_migration, run_migration_with. apply keeps_for_each. intros ver.
  apply keeps_bind; [apply keeps_backup_database|intros _].
  destruct (migration_map !! ver) as [m|] eqn:E; [|keeps].
  exact (keeps_migrations ver m E).
Qed.

Lemma SQLiteStorage_foreign_keys (file : database) (baks : gmap Z database) :
  foreign_keys (SQLiteStorage file baks).2 = false.
Proof. unfold SQLiteStorage. rewrite keeps_initialize. reflexivity. Qed.

(** ** Tags of a record *)

Lemma get_tags_for_record_eq (record_id : Z) (w : world) :
  get_tags_for_record record_id w = (Ok (tags_for (view w) record_id), w).
Proof. reflexivity. Qed.

Lemma lower_ascii_idem (c : ascii) : lower_ascii (lower_ascii c) = lower_ascii c.
Proof.
  destruct c as [[] [] [] [] [] [] [] []]; reflexivity.
Qed.

Lemma lower_idem (s : string) : lower (lower s) = lower s.
Proof.
  induction s as [|c s IH]; simpl; [reflexivity|].
  rewrite lower_ascii_idem, IH. reflexivity.
Qed.

Lemma bind_ok {A B} (m : M A) (f : A -> M B) (w w1 : world) (a : A) :
  m w = (Ok a, w1) -> bind m f w = f a w1.
Proof. unfold bind. intros ->. reflexivity. Qed.

Lemma bind_raise {A B} (m : M A) (f : A -> M B) (w w1 : world) (e : exn) :
  m w = (Raise e, w1) -> bind m f w = (Raise e, w1).
Proof. unfold bind. intros ->. reflexivity. Qed.

Lemma remove_dups_singleton (a : string) : remove_dups [a] = [a].
Proof.
  simpl. destruct (decide_rel elem_of a []) as [H|]; [inversion H|reflexivity].
Qed.

Lemma tag_list_singleton (x : string) :
  is_empty x = false ->
  map lower (filter (fun t => is_empty t = false) [x]) = [lower x].
Proof.
  intros Hx. rewrite filter_cons, filter_nil.
  destruct (decide (is_empty x = false)); [reflexivity|congruence].
Qed.

Lemma add_tag_duplicate (tag : string) (w : world) :
  lower tag ∈ map snd (tag_rows (view w)) ->
  add_tag tag w = (Raise IntegrityError, after_failed_dml w).
Proof.
  intros Hin. unfold add_tag, bind, dml, sql_insert_tag.
  rewrite bool_decide_eq_true_2 by exact Hin. reflexivity.
Qed.

(** C1 does not hold of the code.  When a Tag row of the lower-cased name
    exists and the record is not associated with it, which is the state
    [set_tags_for_record] on another record leaves, [set_tags_for_record]
    does not reuse the row: its [add_tag] runs into the UNIQUE constraint,
    the call raises IntegrityError, and no association is added. *)
Theorem set_tags_for_record_shared_tag_raises (b : Z) (x : string) (w : world) :
  is_empty x = false ->
  lower x ∈ map snd (tag_rows (view w)) ->
  lower x ∉ tags_for (view w) b ->
  exists w',
    set_tags_for_record b [x] w = (Raise IntegrityError, w')
    /\ view w' = view w.
Proof.
  intros Hx Hin Hnot.
  unfold set_tags_for_record.
  rewrite (bind_ok _ _ _ _ _ (get_tags_for_record_eq b w)).
  rewrite (tag_list_singleton _ Hx).
  rewrite filter_cons, filter_nil.
  destruct (decide (lower x ∉ remove_dups (tags_for (view w) b))) as [_|Hn].
  2:{ exfalso. apply Hn. rewrite elem_of_remove_dups. exact Hnot. }
  rewrite remove_dups_singleton. cbn [for_fold].
  eexists. split.
  - do 3 apply bind_raise.
    apply add_tag_duplicate. rewrite lower_idem. exact Hin.
  - reflexivity.
Qed.

Lemma add_tag_fresh (tag : string) (w : world) :
  lower tag ∉ map snd (tag_rows (view w)) ->
  let t := next_rowid (map fst (tag_rows (view w))) in
  let d := with_tags (tag_rows (view w) ++ [(t, lower tag)]) (view w) in
  add_tag tag w
  = (Ok t, {| disk := d; view := d; in_txn := false;
              foreign_keys := foreign_keys w; backups := backups w |}).
Proof.
  intros Hnew. unfold add_tag, bind, dml, commit, ret, sql_insert_tag.
  rewrite bool_decide_eq_false_2 by exact Hnew. reflexivity.
Qed.

(** The first half of the scenario of C1: a tag that is new to the store is
    created for the record and survives the garbage collection. *)
Lemma set_tags_for_record_new_tag (a : Z) (x : string) (w : world) :
  is_empty x = false ->
  foreign_keys w = false ->
  lower x ∉ map snd (tag_rows (view w)) ->
  lower x ∉ tags_for (view w) a ->
  exists w1,
    set_tags_for_record a [x] w = (Ok tt, w1)
    /\ lower x ∈ map snd (tag_rows (view w1))
    /\ (a, next_rowid (map fst (tag_rows (view w)))) ∈ tagset_rows (view w1).
Proof.
  intros Hx Hfk Hnew Hnot.
  set (t := next_rowid (map fst (tag_rows (view w)))).
  unfold set_tags_for_record.
  rewrite (bind_ok _ _ _ _ _ (get_tags_for_record_eq a w)).
  rewrite (tag_list_singleton _ Hx).
  rewrite !filter_cons, !filter_nil.
  destruct (decide (lower x ∉ remove_dups (tags_for (view w) a))) as [_|Hn].
  2:{ exfalso. apply Hn. rewrite elem_of_remove_dups. exact Hnot. }
  destruct (decide (lower x ∈ remove_dups (tags_for (view w) a))) as [Hin|_].
  { exfalso. rewrite elem_of_remove_dups in Hin. exact (Hnot Hin). }
  rewrite remove_dups_singleton. cbn [remove_dups].
  erewrite bind_ok.
  2:{ cbn [for_fold]. erewrite bind_ok; [reflexivity|].
      erewrite bind_ok; [reflexivity|].
      apply add_tag_fresh. rewrite lower_idem. exact Hnew. }
  rewrite lower_idem. fold t.
  unfold bind, dml, commit, ret, for_each, sql_delete_tagset, sql_insert_tagset,
    sql_delete_orphan_tags, sql_delete_tags.
  cbn [view foreign_keys dict_set fst snd]. rewrite Hfk.
  cbn [andb view foreign_keys tagset_rows tag_rows with_tagset with_tags].
  eexists. split; [reflexivity|].
  cbn [view tag_rows tagset_rows with_tagset with_tags].
  assert (Hts : (a, t) ∈ filter (fun ts : Z * Z => ts.1 <> a) (tagset_rows (view w))
                          ++ [(a, t)]).
  { apply elem_of_app. right. left. }
  split; [|exact Hts].
  apply list_elem_of_fmap. exists (t, lower x). split; [reflexivity|].
  apply list_elem_of_filter. split.
  - apply bool_decide_eq_false. intros Hc. apply Hc.
    rewrite elem_of_remove_dups. apply list_elem_of_fmap.
    exists (a, t). split; [reflexivity|exact Hts].
  - apply elem_of_app. right. left.
Qed.

(** ** Orphan tags *)

Lemma bind_inv_ok {A B} (m : M A) (f : A -> M B) (w w' : world) (b : B) :
  bind m f w = (Ok b, w') ->
  exists a w1, m w = (Ok a, w1) /\ f a w1 = (Ok b, w').
Proof.
  unfold bind. destruct (m w) as [[a|e] w1]; [eauto|discriminate].
Qed.

Lemma get_all_tags_eq (w : world) : get_all_tags w = (Ok (all_tags (view w)), w).
Proof. reflexivity. Qed.

Lemma all_tags_elem (d : database) (x : string) :
  x ∈ all_tags d -> exists t, t ∈ tag_rows d /\ lower t.2 = x.
Proof.
  unfold all_tags. rewrite elem_of_remove_dups, list_elem_of_fmap.
  intros (n & -> & Hn). apply list_elem_of_filter in Hn. destruct Hn as [_ Hn].
  apply list_elem_of_fmap in Hn. destruct Hn as (t & -> & Ht). eauto.
Qed.

(** After the last statement of [set_tags_for_record] every Tag row left is
    referenced by a TagSet row. *)
Lemma sql_delete_orphan_tags_spec (fk : bool) (d d' : database) :
  sql_delete_orphan_tags fk d = Ok (tt, d') ->
  (forall t, t ∈ tag_rows d' ->
     t ∈ tag_rows d /\ exists ts, ts ∈ tagset_rows d /\ ts ∈ tagset_rows d' /\ ts.2 = t.1).
Proof.
  unfold sql_delete_orphan_tags, sql_delete_tags. intros [= <-] t. simpl.
  rewrite list_elem_of_filter. intros [Hp Ht]. split; [exact Ht|].
  apply bool_decide_eq_false in Hp. apply dec_stable in Hp.
  rewrite elem_of_remove_dups, list_elem_of_fmap in Hp.
  destruct Hp as (ts & Hts1 & Hts). exists ts.
  split; [exact Hts|]. split; [|congruence].
  destruct fk; [|exact Hts]. apply list_elem_of_filter. split; [|exact Hts].
  rewrite list_elem_of_fmap. intros (t' & Heq & Ht').
  apply list_elem_of_filter in Ht'. destruct Ht' as [Hp' _].
  apply bool_decide_eq_true in Hp'. apply Hp'.
  rewrite elem_of_remove_dups, list_elem_of_fmap. exists ts. split; [congruence|exact Hts].
Qed.

(** C5: when [set_tags_for_record a [x]] has run and no TagSet row of
    another record refers to a Tag named x, [set_tags_for_record a []]
    succeeds, commits, and leaves [get_all_tags] without x; and after any
    successful [set_tags_for_record] no Tag row without a TagSet row is
    left in the store. *)
Theorem set_tags_for_record_collects_orphans :
  (forall (a : Z) (x : string) (w w1 : world),
     set_tags_for_record a [x] w = (Ok tt, w1) ->
     (forall ts t, ts ∈ tagset_rows (view w1) -> t ∈ tag_rows (view w1) ->
                   ts.2 = t.1 -> lower t.2 = lower x -> ts.1 = a) ->
     exists w2 tags,
       set_tags_for_record a [] w1 = (Ok tt, w2)
       /\ disk w2 = view w2
       /\ get_all_tags w2 = (Ok tags, w2)
       /\ (lower x ∉ tags) /\ (x ∉ tags))
  /\ (forall (a : Z) (tag_list : list string) (w w' : world),
        set_tags_for_record a tag_list w = (Ok tt, w') ->
        disk w' = view w' /\
        forall t, t ∈ tag_rows (view w') ->
                  exists ts, ts ∈ tagset_rows (view w') /\ ts.2 = t.1).
Proof.
  split.
  - intros a x w w1 _ Hother.
    destruct (sql_delete_orphan_tags (foreign_keys w1)
                (with_tagset (filter (fun ts => ts.1 <> a) (tagset_rows (view w1)))
                   (view w1))) as [[[] d2]|e] eqn:Hgc;
      [|discriminate Hgc].
    exists {| disk := d2; view := d2; in_txn := false;
              foreign_keys := foreign_keys w1; backups := backups w1 |}, (all_tags d2).
    split.
    { unfold set_tags_for_record, bind, get_tags_for_record, select, ret, dml, commit.
      cbn -[sql_delete_orphan_tags]. rewrite Hgc. reflexivity. }
    split; [reflexivity|]. split; [reflexivity|].
    assert (Hl : lower x ∉ all_tags d2).
    { intros Hin. apply all_tags_elem in Hin. destruct Hin as (t & Ht & Hlow).
      destruct (sql_delete_orphan_tags_spec _ _ _ Hgc t Ht) as (Ht1 & ts & Hts & _ & Heq).
      simpl in Ht1, Hts. apply list_elem_of_filter in Hts. destruct Hts as [Hne Hts].
      apply Hne. eapply Hother; eauto. }
    split; [exact Hl|].
    intros Hin. apply Hl. destruct (all_tags_elem _ _ Hin) as (t & _ & Hlow).
    rewrite <- Hlow, lower_idem, Hlow. exact Hin.
  - intros a tag_list w w' H. unfold set_tags_for_record in H.
    repeat (apply bind_inv_ok in H; destruct H as (? & ? & ? & H)).
    match goal with
    | Hgc : dml sql_delete_orphan_tags ?w0 = (Ok _, ?w1) |- _ =>
        unfold dml in Hgc;
        destruct (sql_delete_orphan_tags (foreign_keys w0) (view w0))
          as [[[] d2]|e] eqn:Hd; [|discriminate Hgc];
        injection Hgc as _ <-
    end.
    unfold commit in H. injection H as <-. simpl.
    split; [reflexivity|]. intros t Ht.
    destruct (sql_delete_orphan_tags_spec _ _ _ Hd t Ht) as (_ & ts & _ & Hts & Heq).
    eauto.
Qed.

(** ** The aggregated tags column *)

Lemma left_join_tag_nonempty (d : database) (t : Z) : left_join_tag d t <> [].
Proof.
  unfold left_join_tag.
  destruct (filter (fun t0 => t0.1 = t) (tag_rows d)); discriminate.
Qed.

Lemma joined_nonempty (d : database) (i : Z) : joined d i <> [].
Proof.
  unfold joined.
  destruct (filter (fun ts => ts.1 = i) (tagset_rows d)) as [|ts tss];
    [discriminate|].
  simpl. destruct (left_join_tag d ts.2) eqn:E; [|discriminate].
  exfalso. exact (left_join_tag_nonempty _ _ E).
Qed.

Lemma filter_all {A} (l : list A) : filter (fun _ => true = true) l = l.
Proof.
  induction l as [|a l IH]; [reflexivity|].
  rewrite filter_cons. destruct (decide (true = true)); [|congruence].
  f_equal. exact IH.
Qed.

Lemma omap_total {A B} (f : A -> option B) (g : A -> B) (l : list A) :
  (forall x, f x = Some (g x)) -> omap f l = map g l.
Proof.
  intros H. induction l as [|a l IH]; [reflexivity|].
  simpl. rewrite H. f_equal. exact IH.
Qed.

(** Without a WHERE clause the joined SELECT has one row for every Record
    row, tagged or not. *)
Lemma select_grouped_all (d : database) :
  select_grouped (fun _ _ => true) d
  = map (fun r => star r ++ [group_concat (joined d (rowid r))]) (record_rows d).
Proof.
  unfold select_grouped. apply omap_total. intros r.
  rewrite filter_all.
  destruct (joined d (rowid r)) eqn:E; [|reflexivity].
  exfalso. exact (joined_nonempty _ _ E).
Qed.

Lemma map_row_to_record_tags (row : list value) (t1 t2 : value) :
  length row = 19%nat ->
  map_row_to_record (row ++ [t1]) = map_row_to_record (row ++ [t2]).
Proof.
  intros H. do 20 (destruct row as [|? row]; try discriminate H). reflexivity.
Qed.

Lemma map_rows_tags (f g : rec_row -> value) (rows : list rec_row) :
  Forall (fun r => length (cells r) = 18%nat) rows ->
  map_rows (map (fun r => star r ++ [f r]) rows)
  = map_rows (map (fun r => star r ++ [g r]) rows).
Proof.
  induction 1 as [|r rows Hr _ IH]; [reflexivity|].
  cbn [map map_rows]. rewrite IH.
  rewrite (map_row_to_record_tags (star r) (f r) (g r)); [reflexivity|].
  unfold star. simpl. rewrite Hr. reflexivity.
Qed.

(** C2 does not hold of the code in its first part.  The mapper reads the
    nineteen Record columns and never the trailing aggregated-tags column:
    two rows that differ only there map to the same Record, whose only
    list, [groups], is split from the [groups] column; what
    [get_all_records] returns is computed from the Record rows alone.  The
    second part holds: every Record row, tagged or not, is returned. *)
Theorem map_row_to_record_drops_tags :
  (forall (row : list value) (t1 t2 : value),
     length row = 19%nat ->
     map_row_to_record (row ++ [t1]) = map_row_to_record (row ++ [t2]))
  /\ (forall w : world,
        Forall (fun r => length (cells r) = 18%nat) (record_rows (view w)) ->
        get_all_records w
        = (map_rows (map (fun r => star r ++ [VNull]) (record_rows (view w))), w)).
Proof.
  split; [exact map_row_to_record_tags|].
  intros w H. unfold get_all_records, bind, select, lift.
  rewrite select_grouped_all.
  rewrite (map_rows_tags _ (fun _ => VNull) _ H).
  destruct (map_rows _); reflexivity.
Qed.

(** ** The migration chain *)

Lemma run_migration_with_eq (registry : gmap Z (M unit)) (upto v : Z) :
  run_migration_with registry upto v
  = for_each (seqZ v (upto - v)) (migration_pass registry).
Proof. reflexivity. Qed.

Lemma sql_add_column_ok (c : string) (a : affinity) (v : value) (d : database) :
  column_names d <> [] ->
  c ∉ "id" :: column_names d ->
  exists d',
    sql_add_column c a v d = Ok d'
    /\ column_names d' = column_names d ++ [c]
    /\ version_rows d' = version_rows d.
Proof.
  unfold sql_add_column, column_names. intros Hne Hc.
  destruct (record_columns d) as [|c0 cols] eqn:E; [simpl in Hne; congruence|].
  rewrite bool_decide_eq_false_2 by exact Hc.
  eexists. split; [reflexivity|]. simpl. rewrite map_app. auto.
Qed.

Lemma sql_rename_column_ok (a b : string) (d : database) :
  a ∈ column_names d ->
  b ∉ "id" :: column_names d ->
  exists d',
    sql_rename_column a b d = Ok d'
    /\ column_names d' = map (fun n => if String.eqb n a then b else n) (column_names d)
    /\ version_rows d' = version_rows d.
Proof.
  unfold sql_rename_column, column_names. intros Ha Hb.
  rewrite bool_decide_eq_true_2 by exact Ha.
  rewrite bool_decide_eq_false_2 by exact Hb.
  eexists. split; [reflexivity|]. simpl. split; [|reflexivity].
  rewrite !map_map. apply map_ext. intros c.
  destruct (String.eqb (col_name c) a); reflexivity.
Qed.

Ltac not_in_names :=
  let H := fresh in
  intros H;
  repeat (apply elem_of_cons in H; destruct H as [H|H]; [discriminate H|]);
  inversion H.

(** The shape of the steps that add one column. *)
Lemma add_column_migration (c : string) (a : affinity) (v : value) (n : Z)
    (w : world) :
  column_names (view w) <> [] ->
  c ∉ "id" :: column_names (view w) ->
  exists w',
    (ddl (sql_add_column c a v) ;;
     dml sql_delete_version ;;
     dml (sql_insert_version n) ;;
     commit) w = (Ok tt, w')
    /\ column_names (view w') = column_names (view w) ++ [c]
    /\ version_rows (view w') = [n]
    /\ disk w' = view w'
    /\ in_txn w' = false
    /\ backups w' = backups w.
Proof.
  intros Hne Hc.
  destruct (sql_add_column_ok c a v (view w) Hne Hc) as (d & Hd & Hn & _).
  unfold bind, ddl, dml, commit. rewrite Hd. simpl.
  eexists. split; [reflexivity|]. simpl. auto.
Qed.

Lemma migrate_spec (ver : Z) (w : world) :
  1 <= ver <= 7 ->
  column_names (view w) = schema_at ver ->
  exists (migration : M unit) (w' : world),
    migration_map !! ver = Some migration
    /\ migration w = (Ok tt, w')
    /\ migrated_to (ver + 1) w w'.
Proof.
  intros Hver Hs. unfold migrated_to.
  assert (Hcases : ver = 1 \/ ver = 2 \/ ver = 3 \/ ver = 4 \/ ver = 5
                   \/ ver = 6 \/ ver = 7) by lia.
  destruct Hcases as [->|[->|[->|[->|[->|[->| ->]]]]]].
  - destruct (add_column_migration "created_at" INTEGER (VInt 0) 2 w)
      as (w' & H1 & H2 & H3); [rewrite Hs; discriminate|rewrite Hs; not_in_names|].
    exists _migrate_1_to_2, w'. rewrite H2, Hs. auto.
  - destruct (add_column_migration "groups" TEXT (VText EmptyString) 3 w)
      as (w' & H1 & H2 & H3); [rewrite Hs; discriminate|rewrite Hs; not_in_names|].
    exists _migrate_2_to_3, w'. rewrite H2, Hs. auto.
  - destruct (sql_rename_column_ok "model_hash" "sha256_hash" (view w))
      as (d & Hd & Hn & _); [rewrite Hs; apply list_elem_of_In; simpl; tauto|rewrite Hs; not_in_names|].
    rewrite Hs in Hn. simpl in Hn.
    set (w1 := {| disk := if in_txn w then disk w else d; view := d;
                  in_txn := in_txn w; foreign_keys := foreign_keys w;
                  backups := backups w |}).
    destruct (add_column_migration "subdir" TEXT (VText EmptyString) 4 w1)
      as (w' & H1 & H2 & H3);
      [simpl; rewrite Hn; discriminate|simpl; rewrite Hn; not_in_names|].
    exists _migrate_3_to_4, w'. split; [reflexivity|]. split.
    + unfold _migrate_3_to_4. erewrite bind_ok; [exact H1|].
      unfold ddl. rewrite Hd. reflexivity.
    + destruct H3 as (H3 & H4 & H5 & H6). repeat split; try assumption.
      rewrite H2. simpl. rewrite Hn. reflexivity.
  - destruct (add_column_migration "location" TEXT (VText EmptyString) 5 w)
      as (w' & H1 & H2 & H3); [rewrite Hs; discriminate|rewrite Hs; not_in_names|].
    exists _migrate_4_to_5, w'. rewrite H2, Hs. auto.
  - destruct (add_column_migration "weight" REAL (VReal 1) 6 w)
      as (w' & H1 & H2 & H3); [rewrite Hs; discriminate|rewrite Hs; not_in_names|].
    exists _migrate_5_to_6, w'. rewrite H2, Hs. auto.
  - destruct (add_column_migration "backup_url" TEXT (VText EmptyString) 7 w)
      as (w' & H1 & H2 & H3); [rewrite Hs; discriminate|rewrite Hs; not_in_names|].
    exists _migrate_6_to_7, w'. rewrite H2, Hs. auto.
  - destruct (sql_rename_column_ok "_name" "name" (view w))
      as (d & Hd & Hn & _); [rewrite Hs; apply list_elem_of_In; simpl; tauto|rewrite Hs; not_in_names|].
    rewrite Hs in Hn. simpl in Hn.
    eexists _migrate_7_to_8, _. split; [reflexivity|]. split.
    + unfold _migrate_7_to_8, bind, ddl, dml, commit, sql_create_if_not_exists.
      cbn [view]. rewrite Hd. reflexivity.
    + repeat split; try reflexivity. exact Hn.
Qed.

Lemma for_each_app {A} (l1 l2 : list A) (body : A -> M unit) (w : world) :
  for_each (l1 ++ l2) body w = (for_each l1 body ;; for_each l2 body) w.
Proof.
  revert w. induction l1 as [|a l1 IH]; intros w; [reflexivity|].
  simpl. unfold bind. destruct (body a w) as [[[]|e] w1]; [|reflexivity].
  rewrite IH. reflexivity.
Qed.

Lemma backups_before_delete (ver : Z) (w : world) :
  backups_before ver w -> delete (ver - 1) (backups w) = ∅.
Proof.
  intros Hb. apply map_eq. intros k. rewrite lookup_empty.
  destruct (decide (k = ver - 1)) as [->|Hne].
  - apply lookup_delete_eq.
  - rewrite lookup_delete_ne by congruence.
    apply eq_None_not_Some. intros H. apply Hb in H. lia.
Qed.

Lemma backups_before_absent (ver : Z) (w : world) :
  backups_before ver w -> (1 < ver -> backups w !! (ver - 1) = None) ->
  backups w = ∅.
Proof.
  intros Hb Hn. apply map_eq. intros k. rewrite lookup_empty.
  apply eq_None_not_Some. intros H. destruct (Hb k H) as [-> Hlt].
  rewrite (Hn Hlt) in H. destruct H; discriminate.
Qed.

(** [_backup_database] leaves the snapshot of the committed database as the
    only backup file. *)
Lemma backup_database_spec (ver : Z) (w : world) :
  backups_before ver w ->
  _backup_database ver w
  = (Ok tt, {| disk := disk w; view := view w; in_txn := in_txn w;
               foreign_keys := foreign_keys w;
               backups := {[ ver := disk w ]} |}).
Proof.
  intros Hb. unfold _backup_database, bind, isfile, os_remove, shutil_copy_db, ret.
  destruct (1 <? ver) eqn:E.
  - destruct (bool_decide (is_Some (backups w !! (ver - 1)))) eqn:Ef; simpl.
    + rewrite (backups_before_delete _ _ Hb). reflexivity.
    + rewrite (backups_before_absent ver w Hb).
      * reflexivity.
      * intros _. apply bool_decide_eq_false in Ef.
        apply eq_None_not_Some. exact Ef.
  - simpl. rewrite (backups_before_absent ver w Hb); [reflexivity|].
    apply Z.ltb_ge in E. lia.
Qed.

Lemma migration_pass_ok (registry : gmap Z (M unit)) (ver : Z) (w : world) :
  1 <= ver <= 7 ->
  registry !! ver = migration_map !! ver ->
  column_names (view w) = schema_at ver ->
  backups_before ver w ->
  exists w',
    migration_pass registry ver w = (Ok tt, w')
    /\ column_names (view w') = schema_at (ver + 1)
    /\ version_rows (view w') = [ver + 1]
    /\ disk w' = view w'
    /\ in_txn w' = false
    /\ backups w' = {[ ver := disk w ]}.
Proof.
  intros Hver Hreg Hs Hb.
  set (w1 := {| disk := disk w; view := view w; in_txn := in_txn w;
                foreign_keys := foreign_keys w;
                backups := {[ ver := disk w ]} |}).
  destruct (migrate_spec ver w1 Hver Hs) as (m & w' & Hm & Hrun & H1 & H2 & H3 & H4 & H5).
  exists w'. split.
  - unfold migration_pass.
    rewrite (bind_ok _ _ _ _ _ (backup_database_spec ver w Hb)).
    rewrite Hreg, Hm. exact Hrun.
  - auto.
Qed.

Lemma migration_pass_missing (registry : gmap Z (M unit)) (ver : Z) (w : world) :
  registry !! ver = None ->
  backups_before ver w ->
  migration_pass registry ver w
  = (Raise (MissingMigration ver),
     {| disk := disk w; view := view w; in_txn := in_txn w;
        foreign_keys := foreign_keys w;
        backups := {[ ver := disk w ]} |}).
Proof.
  intros Hreg Hb. unfold migration_pass.
  rewrite (bind_ok _ _ _ _ _ (backup_database_spec ver w Hb)).
  rewrite Hreg. reflexivity.
Qed.

Lemma chain_ok (registry : gmap Z (M unit)) (n : nat) (v : Z) (w : world) :
  1 <= v ->
  v + Z.of_nat n <= 8 ->
  (forall k, v <= k < v + Z.of_nat n -> registry !! k = migration_map !! k) ->
  column_names (view w) = schema_at v ->
  backups_before v w ->
  exists w',
    for_each (seqZ v (Z.of_nat n)) (migration_pass registry) w = (Ok tt, w')
    /\ chain_state v n w w'.
Proof.
  intros Hv. induction n as [|n IH]; intros Hn Hreg Hs Hb.
  - exists w. split; [reflexivity|]. unfold chain_state.
    change (Z.of_nat 0) with 0. rewrite Z.add_0_r.
    split; [exact Hs|]. split; [exact Hb|]. split; [intros; lia|reflexivity].
  - destruct IH as (w1 & Hrun & Hs1 & Hb1 & Hpos & Hzero);
      [lia|intros k Hk; apply Hreg; lia|exact Hs|exact Hb|].
    destruct (migration_pass_ok registry (v + Z.of_nat n) w1)
      as (w' & Hpass & H1 & H2 & H3 & H4 & H5);
      [lia|apply Hreg; lia|exact Hs1|exact Hb1|].
    exists w'. split.
    + rewrite seqZ_S, for_each_app, (bind_ok _ _ _ _ _ Hrun).
      simpl. rewrite (bind_ok _ _ _ _ _ Hpass). reflexivity.
    + unfold chain_state.
      replace (v + Z.of_nat (S n)) with (v + Z.of_nat n + 1) by lia.
      split; [exact H1|]. split.
      { intros k Hk. rewrite H5 in Hk.
        destruct (decide (k = v + Z.of_nat n)) as [->|Hne]; [lia|].
        rewrite lookup_singleton_ne in Hk by congruence.
        destruct Hk; discriminate. }
      split; [|discriminate].
      intros _. split; [exact H3|]. split; [exact H2|]. split; [exact H4|].
      exists (disk w1). split.
      { rewrite H5. f_equal. lia. }
      intros Hn1. destruct Hpos as (Hd & Hver & _); [lia|].
      rewrite Hd, Hver. f_equal. lia.
Qed.

(** C7: from a stored version two or more steps below the current one, on
    the schema of that version and with no backup file other than the one a
    previous run may have left, the chain succeeds and exactly one backup
    file remains: the snapshot of the database at version CURRENT-1, taken
    before the last step; the backup for [v] is gone.  The same holds after
    each pass of the loop: the only backup is the one just taken. *)
Theorem backup_retention (v : Z) (w : world) :
  1 <= v <= _DB_VERSION - 2 ->
  column_names (view w) = schema_at v ->
  backups_before v w ->
  (exists w' snap,
     _run_migration v w = (Ok tt, w')
     /\ version_rows (disk w') = [_DB_VERSION]
     /\ backups w' = {[ _DB_VERSION - 1 := snap ]}
     /\ version_rows snap = [_DB_VERSION - 1]
     /\ backups w' !! v = None)
  /\ (forall n, v < n <= _DB_VERSION ->
        exists wn snap,
          run_migration_with migration_map n v w = (Ok tt, wn)
          /\ backups wn = {[ n - 1 := snap ]}).
Proof.
  unfold _DB_VERSION. intros Hv Hs Hb. split.
  - destruct (chain_ok migration_map (Z.to_nat (8 - v)) v w)
      as (w' & Hrun & _ & _ & Hpos & _);
      [lia|lia|reflexivity|exact Hs|exact Hb|].
    destruct Hpos as (Hd & Hver & _ & snap & Hbk & Hsnap); [lia|].
    replace (v + Z.of_nat (Z.to_nat (8 - v))) with 8 in * by lia.
    exists w', snap. split.
    { unfold _run_migration, _DB_VERSION. rewrite run_migration_with_eq.
      rewrite Z2Nat.id in Hrun by lia. exact Hrun. }
    split; [rewrite Hd; exact Hver|]. split; [exact Hbk|].
    split; [apply Hsnap; lia|].
    rewrite Hbk. apply lookup_singleton_ne. lia.
  - intros n Hn.
    destruct (chain_ok migration_map (Z.to_nat (n - v)) v w)
      as (wn & Hrun & _ & _ & Hpos & _);
      [lia|lia|reflexivity|exact Hs|exact Hb|].
    destruct Hpos as (_ & _ & _ & snap & Hbk & _); [lia|].
    replace (v + Z.of_nat (Z.to_nat (n - v))) with n in * by lia.
    exists wn, snap. split; [|exact Hbk].
    rewrite run_migration_with_eq. rewrite Z2Nat.id in Hrun by lia. exact Hrun.
Qed.

Lemma migration_map_below (v : Z) : v < 1 -> migration_map !! v = None.
Proof.
  intros Hv. unfold migration_map.
  repeat (rewrite lookup_insert_ne by lia). apply lookup_singleton_ne. lia.
Qed.

(** C8: when the step from [m] is not registered and the steps from [v] up
    to [m] are, the chain raises at [m]; the steps before it stay applied
    and committed (the database file is at version [m], on the schema of
    [m], with the snapshot taken at [m] as its only backup).  With the
    registry of the source, where the steps from 1 to 7 are all
    registered, this is the case of a stored version below 1: the chain
    raises at once and the database is left as it was. *)
Theorem missing_migration_keeps_progress :
  (forall (registry : gmap Z (M unit)) (v m : Z) (w : world),
     1 <= v <= m -> m < _DB_VERSION ->
     (forall k, v <= k < m -> registry !! k = migration_map !! k) ->
     registry !! m = None ->
     column_names (view w) = schema_at v ->
     backups_before v w ->
     exists w',
       run_migration_with registry _DB_VERSION v w
       = (Raise (MissingMigration m), w')
       /\ column_names (view w') = schema_at m
       /\ (v < m -> disk w' = view w' /\ version_rows (disk w') = [m])
       /\ (v = m -> disk w' = disk w /\ view w' = view w)
       /\ backups w' = {[ m := disk w' ]})
  /\ (forall (v : Z) (w : world),
        v < 1 ->
        exists w',
          _run_migration v w = (Raise (MissingMigration v), w')
          /\ disk w' = disk w /\ view w' = view w
          /\ backups w' = <[ v := disk w ]> (backups w)).
Proof.
  unfold _DB_VERSION. split.
  - intros registry v m w Hv Hm Hreg Hnone Hs Hb.
    destruct (chain_ok registry (Z.to_nat (m - v)) v w)
      as (w1 & Hrun & Hs1 & Hb1 & Hpos & Hzero);
      [lia|lia|intros k Hk; apply Hreg; lia|exact Hs|exact Hb|].
    replace (v + Z.of_nat (Z.to_nat (m - v))) with m in * by lia.
    rewrite Z2Nat.id in Hrun by lia.
    eexists. split.
    { rewrite run_migration_with_eq.
      replace (8 - v) with ((m - v) + (8 - m)) by lia.
      rewrite seqZ_app by lia. rewrite for_each_app, (bind_ok _ _ _ _ _ Hrun).
      replace (v + (m - v)) with m by lia.
      rewrite seqZ_cons by lia. cbn [for_each].
      apply bind_raise. apply migration_pass_missing; assumption. }
    cbn [view disk backups]. split; [exact Hs1|]. split.
    { intros Hlt. destruct Hpos as (Hd & Hver & _); [lia|].
      split; [exact Hd|rewrite Hd; exact Hver]. }
    split; [|reflexivity].
    intros ->. rewrite Hzero by lia. split; reflexivity.
  - intros v w Hv. eexists. split.
    { unfold _run_migration, _DB_VERSION. rewrite run_migration_with_eq.
      rewrite seqZ_cons by lia. cbn [for_each]. apply bind_raise.
      unfold migration_pass. rewrite (migration_map_below v Hv).
      unfold _backup_database.
      replace (1 <? v) with false by (symmetry; apply Z.ltb_ge; lia).
      reflexivity. }
    cbn [view disk backups]. auto.
Qed.

(** ** The text of the composed query, token by token *)

Lemma list_ascii_of_string_app (s t : string) :
  list_ascii_of_string (s +:+ t) = list_ascii_of_string s ++ list_ascii_of_string t.
Proof.
  induction s as [|c s IH]; [reflexivity|]. simpl. rewrite IH. reflexivity.
Qed.

Lemma lex_from_app (st : list token * lex_mode) (s t : string) :
  lex_from st (s +:+ t) = lex_from (lex_from st s) t.
Proof.
  unfold lex_from. rewrite list_ascii_of_string_app. apply fold_left_app.
Qed.

Lemma lex_select_joined_text :
  lex_from ([], LBetween) select_joined_text = (rev select_from_tokens, LBetween).
Proof. vm_compute. reflexivity. Qed.

Lemma lex_where (T : list token) (m : lex_mode) :
  quoting m = false ->
  lex_from (T, m) " WHERE" = (flush T m, LWord (rev (list_ascii_of_string "WHERE"))).
Proof. destruct m; [reflexivity|reflexivity|discriminate]. Qed.

Lemma lex_and (T : list token) (m : lex_mode) :
  quoting m = false ->
  lex_from (T, m) " AND" = (flush T m, LWord (rev (list_ascii_of_string "AND"))).
Proof. destruct m; [reflexivity|reflexivity|discriminate]. Qed.

Lemma lex_name_clause (T : list token) (m : lex_mode) :
  quoting m = false ->
  lex_from (T, m) " LOWER(r.name) LIKE '%?%'"
  = (rev [TWord "LOWER"; TSym "("; TWord "r.name"; TSym ")"; TWord "LIKE";
          TStr "%?%"] ++ flush T m, LBetween).
Proof. destruct m; [reflexivity|reflexivity|discriminate]. Qed.

Lemma lex_open (T : list token) (m : lex_mode) :
  quoting m = false ->
  lex_from (T, m) " (" = (TSym "(" :: flush T m, LBetween).
Proof. destruct m; [reflexivity|reflexivity|discriminate]. Qed.

Lemma lex_close (T : list token) :
  lex_from (T, LBetween) ")" = (TSym ")" :: T, LBetween).
Proof. reflexivity. Qed.

Lemma lex_eq (T : list token) :
  lex_from (T, LBetween) "r.model_type=?"
  = (rev [TWord "r.model_type"; TSym "="; TParam] ++ T, LBetween).
Proof. reflexivity. Qed.

Lemma lex_or (T : list token) :
  lex_from (T, LBetween) " OR " = (TWord "OR" :: T, LBetween).
Proof. reflexivity. Qed.

Lemma lex_tag_clause (T : list token) (m : lex_mode) :
  quoting m = false ->
  lex_from (T, m) " t.name LIKE %?%"
  = (rev [TWord "t.name"; TWord "LIKE"; TSym "%"; TParam; TSym "%"] ++ flush T m,
     LBetween).
Proof. destruct m; [reflexivity|reflexivity|discriminate]. Qed.

Lemma lex_group_by (T : list token) (m : lex_mode) :
  quoting m = false ->
  lex_from (T, m) " GROUP BY r.id"
  = (TWord "BY" :: TWord "GROUP" :: flush T m,
     LWord (rev (list_ascii_of_string "r.id"))).
Proof. destruct m; [reflexivity|reflexivity|discriminate]. Qed.

Lemma lex_eqs {A} (T : list token) (l : list A) :
  lex_from (T, LBetween) (join " OR " (map (fun _ => "r.model_type=?") l))
  = (rev (eqs_tokens (length l)) ++ T, LBetween).
Proof.
  revert T. induction l as [|a l IH]; intros T; [reflexivity|].
  destruct l as [|b l]; [reflexivity|].
  change (join " OR " (map (fun _ => "r.model_type=?") (a :: b :: l)))
    with ("r.model_type=?" +:+ " OR "
          +:+ join " OR " (map (fun _ : A => "r.model_type=?") (b :: l))).
  rewrite !lex_from_app, lex_eq, lex_or, IH.
  change (eqs_tokens (length (a :: b :: l)))
    with ([TWord "r.model_type"; TSym "="; TParam; TWord "OR"]
          ++ eqs_tokens (length (b :: l))).
  rewrite rev_app_distr, <- app_assoc. reflexivity.
Qed.

Lemma lex_groups_loop (groups : list string) (st : list token * lex_mode)
    (query : string) (append_and : bool) (idx : nat) (T : list token)
    (m : lex_mode) :
  lex_from st query = (T, m) ->
  quoting m = false ->
  lex_from st (groups_loop query append_and idx groups)
  = match groups with
    | [] => (T, m)
    | _ :: _ =>
        (rev (tag_tokens (append_and || (0 <? idx)%nat) groups) ++ flush T m,
         LBetween)
    end.
Proof.
  revert query append_and idx T m.
  induction groups as [|g groups IH]; intros query append_and idx T m Hq Hm.
  - exact Hq.
  - unfold groups_loop. cbn [foldl]. fold (groups_loop
      ((if append_and || (0 <? idx)%nat then query +:+ " AND" else query)
       +:+ " t.name LIKE %?%") true (S idx) groups).
    destruct (append_and || (0 <? idx)%nat) eqn:Ec.
    + erewrite IH;
        [|rewrite lex_from_app, lex_from_app, Hq, lex_and by exact Hm;
          apply lex_tag_clause; reflexivity
         |reflexivity].
      destruct groups as [|g' groups]; cbn [tag_tokens flush orb];
        rewrite ?rev_app_distr; simpl; rewrite <- ?app_assoc; reflexivity.
    + erewrite IH;
        [|rewrite lex_from_app, Hq; apply lex_tag_clause; exact Hm
         |reflexivity].
      destruct groups as [|g' groups]; cbn [tag_tokens flush orb];
        rewrite ?rev_app_distr; simpl; rewrite <- ?app_assoc; reflexivity.
Qed.

Ltac lex_prefix :=
  rewrite ?lex_from_app, ?lex_select_joined_text;
  repeat first
    [ rewrite lex_where by reflexivity
    | rewrite lex_name_clause by reflexivity
    | rewrite lex_and by reflexivity
    | rewrite lex_open by reflexivity
    | rewrite lex_eqs
    | rewrite lex_close
    | rewrite lex_group_by by reflexivity ].

Lemma lex_query_text (name_query : option string)
    (groups model_types : option (list string)) :
  lex (query_text name_query groups model_types)
  = Ok (select_from_tokens
        ++ where_tokens name_query groups model_types
        ++ group_by_tokens).
Proof.
  unfold lex, query_text, where_tokens.
  destruct (nonempty_str name_query);
    destruct model_types as [[|mt mts]|]; destruct groups as [[|g gs]|];
    cbn [nonempty_list negb orb default from_option id].
  all: rewrite lex_from_app.
  all: try (erewrite lex_groups_loop; [|lex_prefix; reflexivity|reflexivity]).
  all: lex_prefix.
  all: try (vm_compute; reflexivity).
  all: cbn [flush orb Nat.ltb Nat.leb]; f_equal; unfold name_tokens.
  all: repeat match goal with
              | |- context [eqs_tokens ?n] => generalize (eqs_tokens n); intro
              | |- context [tag_tokens ?b ?l] => generalize (tag_tokens b l); intro
              end.
  all: repeat (progress (simpl; rewrite ?rev_app_distr, ?rev_involutive,
                                 <- ?app_assoc)).
  all: reflexivity.
Qed.

(** ** Placeholders and bindings *)

Lemma count_placeholders_app (a b : list token) :
  count_placeholders (a ++ b) = (count_placeholders a + count_placeholders b)%nat.
Proof.
  unfold count_placeholders. rewrite List.filter_app, length_app. reflexivity.
Qed.

Lemma count_eqs_tokens (n : nat) : count_placeholders (eqs_tokens n) = n.
Proof.
  induction n as [|n IH]; [reflexivity|].
  destruct n as [|n]; [reflexivity|].
  change (eqs_tokens (S (S n)))
    with ([TWord "r.model_type"; TSym "="; TParam; TWord "OR"] ++ eqs_tokens (S n)).
  rewrite count_placeholders_app, IH. reflexivity.
Qed.

Lemma count_tag_tokens (b : bool) (l : list string) :
  count_placeholders (tag_tokens b l) = length l.
Proof.
  revert b. induction l as [|g l IH]; intros b; [reflexivity|].
  cbn [tag_tokens]. rewrite !count_placeholders_app, IH.
  destruct b; reflexivity.
Qed.

(** The text has one placeholder for each model type and each group, and
    none for the name: its [?] is inside the literal ['%?%']. *)
Lemma placeholders_query_text (name_query : option string)
    (groups model_types : option (list string)) :
  count_placeholders
    (select_from_tokens ++ where_tokens name_query groups model_types
     ++ group_by_tokens)
  = (length (default [] model_types) + length (default [] groups))%nat.
Proof.
  unfold where_tokens. rewrite !count_placeholders_app.
  destruct (nonempty_str name_query);
    destruct model_types as [[|mt mts]|]; destruct groups as [[|g gs]|];
    cbn [nonempty_list orb default from_option id];
    rewrite ?count_placeholders_app, ?count_eqs_tokens, ?count_tag_tokens;
    unfold count_placeholders; simpl; lia.
Qed.

(** The bindings: one more than the placeholders when a name is given. *)
Lemma length_query_params (name_query : option string)
    (groups model_types : option (list string)) :
  length (query_params name_query groups model_types)
  = ((if nonempty_str name_query then 1 else 0)
     + length (default [] model_types) + length (default [] groups))%nat.
Proof.
  unfold query_params.
  destruct (nonempty_str name_query);
    destruct model_types as [[|mt mts]|]; destruct groups as [[|g gs]|];
    cbn [nonempty_list default from_option id];
    rewrite ?length_app, ?length_map; simpl; lia.
Qed.

Lemma operational_bind {A B} (x : outcome A) (f : A -> outcome B) :
  operational x -> (forall a, operational (f a)) -> operational (obind x f).
Proof. destruct x as [a|e]; simpl; auto. Qed.

Lemma parse_operand_operational (t : token) (n : nat) :
  operational (parse_operand t n).
Proof. destruct t; simpl; auto. Qed.

Lemma parse_eqs_operational (toks : list token) :
  forall n, operational (parse_eqs toks n).
Proof.
  assert (H : forall k toks, (length toks <= k)%nat ->
                forall n, operational (parse_eqs toks n)).
  { induction k as [|k IH]; intros l Hl n.
    - destruct l; [simpl; auto|simpl in Hl; lia].
    - destruct l as [|c [|e [|o rest]]]; simpl; auto.
      destruct (is_word "r.model_type" c && is_sym "=" e); simpl; auto.
      apply operational_bind; [apply parse_operand_operational|].
      intros on. destruct rest as [|t rest']; simpl; auto.
      destruct (is_word "OR" t).
      + apply operational_bind; [|simpl; auto].
        apply IH. simpl in Hl. lia.
      + destruct (is_sym ")" t); simpl; auto. }
  intros n. exact (H (length toks) toks (le_n _) n).
Qed.

Lemma parse_term_operational (toks : list token) (n : nat) :
  operational (parse_term toks n).
Proof.
  unfold parse_term. destruct toks as [|t rest]; [simpl; auto|].
  destruct (is_sym "(" t).
  - apply operational_bind; [apply parse_eqs_operational|simpl; auto].
  - destruct (is_word "t.name" t).
    + destruct rest as [|l [|o rest']]; simpl; auto.
      destruct (is_word "LIKE" l); simpl; auto.
      apply operational_bind; [apply parse_operand_operational|simpl; auto].
    + destruct (strip_prefix _ (t :: rest)) as [[|o rest']|]; simpl; auto.
      apply operational_bind; [apply parse_operand_operational|simpl; auto].
Qed.

Lemma parse_conj_operational (fuel : nat) :
  forall toks n, operational (parse_conj fuel toks n).
Proof.
  induction fuel as [|fuel IH]; intros toks n; simpl; auto.
  apply operational_bind; [apply parse_term_operational|].
  intros r. destruct r.1.2 as [|t rest]; simpl; auto.
  destruct (is_word "AND" t); simpl; auto.
  apply operational_bind; [apply IH|simpl; auto].
Qed.

Lemma parse_select_operational (toks : list token) :
  operational (parse_select toks).
Proof.
  unfold parse_select. destruct (strip_prefix _ _) as [[|t rest]|]; simpl; auto.
  destruct (is_word "WHERE" t).
  - apply operational_bind; [apply parse_conj_operational|].
    intros r. destruct (tokens_eqb _ _); simpl; auto.
  - destruct (tokens_eqb _ _); simpl; auto.
Qed.

(** C4 does not hold of the code.  With a non-empty name substring
    [query_records] never returns: the statement is rejected before any row
    is read, as a syntax error when preparing it or as a wrong number of
    bindings (the name pattern is bound though the text has no placeholder
    for it). *)
Theorem query_records_name_filter_raises (name_query : string)
    (groups model_types : option (list string))
    (show_downloaded show_not_downloaded : bool) (w : world) :
  is_empty name_query = false ->
  exists e,
    query_records (Some name_query) groups model_types
      show_downloaded show_not_downloaded w = (Raise e, w)
    /\ (e = OperationalError \/ e = ProgrammingError).
Proof.
  intros Hn.
  assert (Hex : exists e,
             execute_select (query_text (Some name_query) groups model_types)
               (query_params (Some name_query) groups model_types) (view w)
             = Raise e /\ (e = OperationalError \/ e = ProgrammingError)).
  { unfold execute_select. rewrite lex_query_text. cbn [obind].
    destruct (parse_select _) as [conds|e] eqn:Hp.
    - cbn [obind].
      destruct (negb (forallb _ _)); [eauto|].
      rewrite placeholders_query_text, length_query_params.
      cbn [nonempty_str]. rewrite Hn. cbn [negb].
      replace (_ =? _)%nat with false; [cbn [negb]; eauto|].
      symmetry. apply Nat.eqb_neq. lia.
    - pose proof (parse_select_operational
                    (select_from_tokens
                     ++ where_tokens (Some name_query) groups model_types
                     ++ group_by_tokens)) as Hop.
      rewrite Hp in Hop. simpl in Hop. subst e.
      cbn [obind]. eauto. }
  destruct Hex as (e & He & Hcase). exists e. split; [|exact Hcase].
  unfold query_records. apply bind_raise. rewrite He. reflexivity.
Qed.

(** ** The download-state filter *)

Lemma post_filter_loop (show_downloaded show_not_downloaded : bool)
    (rows : list (list value)) (acc : list Record_) (w : world) :
  for_fold rows acc (fun result row =>
    record <- lift (map_row_to_record row) ;;
    let is_downloaded := is_downloaded (location record) in
    if show_downloaded && is_downloaded then ret (result ++ [record])
    else if show_not_downloaded && negb is_downloaded
         then ret (result ++ [record])
    else ret result) w
  = (match map_rows rows with
     | Ok rs =>
         Ok (acc ++ List.filter (kept show_downloaded show_not_downloaded) rs)
     | Raise e => Raise e
     end, w).
Proof.
  revert acc. induction rows as [|row rows IH]; intros acc.
  - simpl. rewrite app_nil_r. reflexivity.
  - cbn [for_fold map_rows]. unfold bind at 1. unfold bind at 1. unfold lift at 1.
    destruct (map_row_to_record row) as [r|e]; [|reflexivity].
    cbn [obind]. unfold kept at 1.
    destruct (show_downloaded && is_downloaded (location r)) eqn:E1.
    + unfold ret at 1. rewrite IH.
      destruct (map_rows rows) as [rs|e]; [|reflexivity].
      cbn [obind List.filter]. unfold kept at 1. rewrite E1.
      rewrite <- app_assoc. reflexivity.
    + destruct (show_not_downloaded && negb (is_downloaded (location r))) eqn:E2.
      * unfold ret at 1. rewrite IH.
        destruct (map_rows rows) as [rs|e]; [|reflexivity].
        cbn [obind List.filter]. unfold kept at 1. rewrite E1, E2.
        rewrite <- app_assoc. reflexivity.
      * unfold ret at 1. rewrite IH.
        destruct (map_rows rows) as [rs|e]; [|reflexivity].
        cbn [obind List.filter]. unfold kept at 1. rewrite E1, E2.
        reflexivity.
Qed.



(** ** The query by model types *)

Lemma token_eqb_refl (t : token) : token_eqb t t = true.
Proof.
  destruct t; simpl; auto using String.eqb_refl, Ascii.eqb_refl.
Qed.

Lemma strip_prefix_app (p l : list token) : strip_prefix p (p ++ l) = Some l.
Proof.
  induction p as [|t p IH]; [reflexivity|].
  simpl. rewrite token_eqb_refl. exact IH.
Qed.

Lemma parse_eqs_eqs_tokens (n k : nat) (rest : list token) :
  parse_eqs (eqs_tokens (S n) ++ TSym ")" :: rest) k
  = Ok (map OParam (seq k (S n)), rest, (k + S n)%nat).
Proof.
  revert k. induction n as [|n IH]; intros k.
  - simpl. repeat f_equal. lia.
  - change (eqs_tokens (S (S n)))
      with ([TWord "r.model_type"; TSym "="; TParam; TWord "OR"]
            ++ eqs_tokens (S n)).
    rewrite <- app_assoc.
    change (parse_eqs ([TWord "r.model_type"; TSym "="; TParam; TWord "OR"]
                       ++ eqs_tokens (S n) ++ TSym ")" :: rest) k)
      with (r <- parse_eqs (eqs_tokens (S n) ++ TSym ")" :: rest) (S k) ;;
            Ok (OParam k :: r.1.1, r.1.2, r.2))%outcome.
    rewrite IH. simpl. repeat f_equal. lia.
Qed.

Lemma parse_select_model_types (n : nat) :
  parse_select (select_from_tokens
                ++ ([TWord "WHERE"] ++ [] ++ ([] ++ [TSym "("]
                     ++ eqs_tokens (S n) ++ [TSym ")"]) ++ [])
                ++ group_by_tokens)
  = Ok [CModelTypeIn (map OParam (seq 0 (S n)))].
Proof.
  unfold parse_select. rewrite strip_prefix_app.
  cbn [app is_word token_eqb String.eqb Ascii.eqb Bool.eqb].
  rewrite app_nil_r, <- app_assoc.
  change ([TSym ")"] ++ group_by_tokens) with (TSym ")" :: group_by_tokens).
  destruct (length (TSym "(" :: eqs_tokens (S n) ++ TSym ")" :: group_by_tokens))
    as [|fuel] eqn:Hf; [discriminate Hf|].
  cbn [parse_conj parse_term is_sym token_eqb Ascii.eqb Bool.eqb].
  rewrite parse_eqs_eqs_tokens. reflexivity.
Qed.

Lemma existsb_params (cell : value) (pre l : list string) :
  existsb (fun o =>
             match cell, operand_value (pre ++ l) o with
             | VText s, Some p => String.eqb s p
             | _, _ => false
             end)
          (map OParam (seq (length pre) (length l)))
  = match cell with
    | VText s => existsb (String.eqb s) l
    | _ => false
    end.
Proof.
  revert pre. induction l as [|x l IH]; intros pre.
  - destruct cell; reflexivity.
  - cbn [length seq map existsb operand_value].
    replace (pre ++ x :: l) with ((pre ++ [x]) ++ l) by (rewrite <- app_assoc; reflexivity).
    replace (S (length pre)) with (length (pre ++ [x]))
      by (rewrite length_app; simpl; lia).
    rewrite IH.
    rewrite <- app_assoc. cbn [app].
    rewrite (list_lookup_middle pre l x (length pre) eq_refl).
    destruct cell; reflexivity.
Qed.

Lemma omap_filter {A B} (f : A -> option B) (p : A -> bool) (g : A -> B)
    (l : list A) :
  (forall x, f x = if p x then Some (g x) else None) ->
  omap f l = map g (List.filter p l).
Proof.
  intros H. induction l as [|a l IH]; [reflexivity|].
  simpl. rewrite H. destruct (p a); simpl; [f_equal|]; exact IH.
Qed.

(** A WHERE clause on the Record columns alone keeps or drops a Record row
    with all its joined rows. *)
Lemma select_grouped_filter (cond : rec_row -> option string -> bool)
    (p : rec_row -> bool) (d : database) :
  (forall r n, cond r n = p r) ->
  select_grouped cond d
  = map (fun r => star r ++ [group_concat (joined d (rowid r))])
        (List.filter p (record_rows d)).
Proof.
  intros H. unfold select_grouped. apply omap_filter. intros r.
  assert (Hf : filter (fun n => cond r n = true) (joined d (rowid r))
               = if p r then joined d (rowid r) else []).
  { generalize (joined d (rowid r)). intros l.
    induction l as [|n l IHl]; [destruct (p r); reflexivity|].
    rewrite filter_cons, (H r n), IHl.
    destruct (p r); [|reflexivity].
    destruct (decide (true = true)); [reflexivity|congruence]. }
  rewrite Hf. destruct (p r); [|reflexivity].
  destruct (joined d (rowid r)) eqn:E; [|reflexivity].
  exfalso. exact (joined_nonempty _ _ E).
Qed.

(** X25: With model types alone the statement is well formed and its bindings
    match: [query_records] returns the records whose model type is one of
    those asked for, compared as the texts are, and then filtered by
    download state. *)
Theorem query_records_model_types (model_types : list string)
    (show_downloaded show_not_downloaded : bool) (w : world) :
  model_types <> [] ->
  "model_type" ∈ column_names (view w) ->
  query_records None None (Some model_types)
    show_downloaded show_not_downloaded w
  = (match map_rows
             (map (fun r => star r
                            ++ [group_concat (joined (view w) (rowid r))])
                  (List.filter (model_type_in (view w) model_types)
                     (record_rows (view w)))) with
     | Ok rs => Ok (List.filter (kept show_downloaded show_not_downloaded) rs)
     | Raise e => Raise e
     end, w).
Proof.
  intros Hne Hcol. destruct model_types as [|mt mts]; [congruence|].
  assert (Hex : execute_select (query_text None None (Some (mt :: mts)))
                  (query_params None None (Some (mt :: mts))) (view w)
                = Ok (map (fun r => star r
                                    ++ [group_concat (joined (view w) (rowid r))])
                          (List.filter (model_type_in (view w) (mt :: mts))
                             (record_rows (view w))))).
  { unfold execute_select. rewrite lex_query_text. cbn [obind].
    rewrite placeholders_query_text, length_query_params.
    unfold where_tokens.
    cbn [nonempty_str nonempty_list orb default from_option id length].
    rewrite parse_select_model_types.
    cbn [obind mbind list_bind cond_columns app forallb].
    rewrite bool_decide_eq_true_2 by exact Hcol.
    cbn [andb negb Nat.add]. rewrite Nat.add_0_r, Nat.eqb_refl. cbn [negb].
    f_equal. apply select_grouped_filter. intros r n.
    cbn [forallb eval_cond]. rewrite andb_true_r.
    unfold model_type_in, query_params.
    cbn [nonempty_str nonempty_list default from_option id app].
    exact (existsb_params (cell_of (view w) "model_type" r) [] (mt :: mts)). }
  unfold query_records.
  erewrite bind_ok; [apply post_filter_loop|].
  cbv beta. rewrite Hex. reflexivity.
Qed.

End Facts.

Lemma by_value_value_demo (m : model_type_demo) :
  by_value_demo (VText (value_demo m)) = m.
Proof. destruct m; reflexivity. Qed.

(** ** The theorems at concrete inputs *)

Ltac by_compute := vm_compute; reflexivity.

Lemma set_tags_for_record_shared_tag_raises_witness :
  is_empty "x" = false
  /\ lower "x" ∈ map snd (tag_rows (view store2x))
  /\ (lower "x" ∉ tags_for (view store2x) 2)
  /\ exists w',
       set_tags_for_record 2 ["x"] store2x = (Raise IntegrityError, w')
       /\ view w' = view store2x.
Proof.
  assert (H1 : is_empty "x" = false) by reflexivity.
  assert (H2 : lower "x" ∈ map snd (tag_rows (view store2x))) by compute_done.
  assert (H3 : lower "x" ∉ tags_for (view store2x) 2) by compute_done.
  exact (conj H1 (conj H2 (conj H3
           (set_tags_for_record_shared_tag_raises 2 "x" store2x H1 H2 H3)))).
Defined.

(** The failing input of C1: the second record cannot take the tag of the
    first. *)
Example set_tags_for_record_second_record :
  (set_tags_for_record 1 ["x"] store2).1 = Ok tt
  /\ (set_tags_for_record 2 ["x"] store2x).1 = Raise IntegrityError
  /\ tags_for (view (after (set_tags_for_record 2 ["x"]) store2x)) 2 = [].
Proof. repeat split; by_compute. Qed.

Lemma map_row_to_record_drops_tags_witness :
  length row_demo = 19%nat
  /\ map_row_to_record (env := env_demo) (row_demo ++ [VText "x,y"])
     = map_row_to_record (env := env_demo) (row_demo ++ [VNull]).
Proof.
  assert (H : length row_demo = 19%nat) by reflexivity.
  exact (conj H (proj1 (map_row_to_record_drops_tags (env := env_demo))
                   row_demo (VText "x,y") VNull H)).
Defined.

(** The failing input of C2: record 1 is tagged x, and the Record read back
    is the one read before it was tagged; its only list holds the groups. *)
Example get_record_by_id_without_tags :
  tags_for (view store2x) 1 = ["x"]
  /\ (get_record_by_id_demo 1 store2x).1 = (get_record_by_id_demo 1 store2).1
  /\ (get_record_by_id_demo 1 store2x).1
     = Ok (Some (with_id (env := env_demo) 1
                   (record_demo "Anime V1" Checkpoint ["a"; "b"]
                      "/models/anime.safetensors"))).
Proof. repeat split; by_compute. Qed.


(** A group with a comma comes back as two. *)
Example add_then_get_by_id_comma :
  let record := record_demo "Anime V1" Checkpoint ["a,b"] EmptyString in
  (get_record_by_id_demo 1 (after (add_record_demo record) store0)).1
  = Ok (Some (with_id (env := env_demo) 1
                (record_demo "Anime V1" Checkpoint ["a"; "b"] EmptyString))).
Proof. by_compute. Qed.


Lemma query_records_name_filter_raises_witness :
  is_empty "drag" = false
  /\ exists e,
       query_records_demo (Some "drag") None (Some ["Checkpoint"]) true true store2
       = (Raise e, store2)
       /\ (e = OperationalError \/ e = ProgrammingError).
Proof.
  assert (H : is_empty "drag" = false) by reflexivity.
  exact (conj H (query_records_name_filter_raises (env := env_demo) "drag"
                   None (Some ["Checkpoint"]) true true store2 H)).
Defined.

(** The failing inputs of C4: a name substring alone, with model types, and
    with groups; and the query that works, by model types alone. *)
Example query_records_by_name :
  (query_records_demo (Some "drag") None None true true store2).1
  = Raise ProgrammingError
  /\ (query_records_demo (Some "drag") None (Some ["Checkpoint"]) true true
        store2).1
     = Raise ProgrammingError
  /\ (query_records_demo (Some "drag") (Some ["x"]) None true true store2).1
     = Raise OperationalError
  /\ (query_records_demo None (Some ["x"]) None true true store2).1
     = Raise OperationalError
  /\ (query_records_demo None None (Some ["Lora"; "Other"]) true true store2).1
     = Ok [with_id (env := env_demo) 2 (record_demo "Dragon" Lora [] EmptyString)].
Proof. repeat split; by_compute. Qed.

Lemma set_tags_for_record_collects_orphans_witness :
  set_tags_for_record 1 ["x"] store2 = (Ok tt, store2x)
  /\ "x" ∈ all_tags (view store2x)
  /\ exists w2 tags,
       set_tags_for_record 1 [] store2x = (Ok tt, w2)
       /\ disk w2 = view w2
       /\ get_all_tags w2 = (Ok tags, w2)
       /\ (lower "x" ∉ tags) /\ ("x" ∉ tags).
Proof.
  assert (H1 : set_tags_for_record 1 ["x"] store2 = (Ok tt, store2x)) by by_compute.
  assert (H2 : forall ts t,
             ts ∈ tagset_rows (view store2x) -> t ∈ tag_rows (view store2x) ->
             ts.2 = t.1 -> lower t.2 = lower "x" -> ts.1 = 1).
  { intros ts t Hts _ _ _. apply list_elem_of_In in Hts. vm_compute in Hts.
    destruct Hts as [<-|[]]. reflexivity. }
  split; [exact H1|]. split; [compute_done|].
  exact (proj1 set_tags_for_record_collects_orphans 1 "x" store2 store2x H1 H2).
Defined.

Lemma remove_record_keeps_associations_witness :
  foreign_keys store2x = false
  /\ exists w',
       remove_record 1 store2x = (Ok tt, w')
       /\ disk w' = view w'
       /\ (forall r, r ∈ record_rows (view w') -> rowid r <> 1)
       /\ tagset_rows (view w') = tagset_rows (view store2x).
Proof.
  assert (H : foreign_keys store2x = false) by reflexivity.
  exact (conj H (remove_record_keeps_associations 1 store2x H)).
Defined.

(** The failing input of C6: record 1 is removed and its association row
    (1, 1) is still in TagSet. *)
Example remove_record_leaves_tagset :
  tagset_rows (view store2x) = [(1, 1)]
  /\ map rowid (record_rows (view (after (remove_record 1) store2x))) = [2]
  /\ tagset_rows (view (after (remove_record 1) store2x)) = [(1, 1)]
  /\ tagset_rows (disk (after (remove_record 1) store2x)) = [(1, 1)].
Proof. repeat split; by_compute. Qed.

Lemma backups_before_empty (v : Z) (w : world) :
  backups w = ∅ -> backups_before v w.
Proof. intros H k [d Hk]. rewrite H, lookup_empty in Hk. discriminate Hk. Qed.

Lemma backup_retention_witness :
  1 <= 6 <= _DB_VERSION - 2
  /\ column_names (view store_v6) = schema_at 6
  /\ backups_before 6 store_v6
  /\ exists w' snap,
       _run_migration 6 store_v6 = (Ok tt, w')
       /\ version_rows (disk w') = [_DB_VERSION]
       /\ backups w' = {[ _DB_VERSION - 1 := snap ]}
       /\ version_rows snap = [_DB_VERSION - 1]
       /\ backups w' !! 6 = None.
Proof.
  assert (H1 : 1 <= 6 <= _DB_VERSION - 2) by (unfold _DB_VERSION; lia).
  assert (H2 : column_names (view store_v6) = schema_at 6) by reflexivity.
  assert (H3 : backups_before 6 store_v6)
    by (apply backups_before_empty; reflexivity).
  exact (conj H1 (conj H2 (conj H3
           (proj1 (backup_retention 6 store_v6 H1 H2 H3))))).
Defined.

(** [SQLiteStorage()] on the version 6 file: the constructor runs the two
    steps and leaves the backup for version 7 alone. *)
Example SQLiteStorage_from_v6 :
  let w := (SQLiteStorage database_v6 ∅).2 in
  (SQLiteStorage database_v6 ∅).1 = Ok tt
  /\ version_rows (disk w) = [8]
  /\ column_names (disk w) = map col_name current_columns
  /\ dom (backups w) = {[ 7 ]}.
Proof. repeat split; by_compute. Qed.

Lemma missing_migration_keeps_progress_witness :
  1 <= 6 <= 7 /\ 7 < _DB_VERSION
  /\ registry_without_7 !! 7 = None
  /\ column_names (view store_v6) = schema_at 6
  /\ exists w',
       run_migration_with registry_without_7 _DB_VERSION 6 store_v6
       = (Raise (MissingMigration 7), w')
       /\ column_names (view w') = schema_at 7
       /\ (6 < 7 -> disk w' = view w' /\ version_rows (disk w') = [7])
       /\ (6 = 7 -> disk w' = disk store_v6 /\ view w' = view store_v6)
       /\ backups w' = {[ 7 := disk w' ]}.
Proof.
  assert (H1 : 1 <= 6 <= 7) by lia.
  assert (H2 : 7 < _DB_VERSION) by (unfold _DB_VERSION; lia).
  assert (H3 : forall k, 6 <= k < 7 ->
                         registry_without_7 !! k = migration_map !! k).
  { intros k Hk. unfold registry_without_7. apply lookup_delete_ne. lia. }
  assert (H4 : registry_without_7 !! 7 = None) by apply lookup_delete_eq.
  assert (H5 : column_names (view store_v6) = schema_at 6) by reflexivity.
  assert (H6 : backups_before 6 store_v6)
    by (apply backups_before_empty; reflexivity).
  exact (conj H1 (conj H2 (conj H4 (conj H5
           (proj1 missing_migration_keeps_progress registry_without_7 6 7
              store_v6 H1 H2 H3 H4 H5 H6))))).
Defined.

(** A stored version of 0, for which the source has no step. *)
Example run_migration_from_0 :
  (_run_migration 0 store0).1 = Raise (MissingMigration 0)
  /\ disk (after (_run_migration 0) store0) = disk store0.
Proof. split; by_compute. Qed.


(** The two flags on the two records: the first is downloaded, the second
    is not. *)
Example query_records_by_download_state :
  (query_records_demo None None None false true store2).1
  = Ok [with_id (env := env_demo) 2 (record_demo "Dragon" Lora [] EmptyString)]
  /\ (query_records_demo None None None true false store2).1
     = Ok [with_id (env := env_demo) 1
             (record_demo "Anime V1" Checkpoint ["a"; "b"]
                "/models/anime.safetensors")]
  /\ (query_records_demo None None None true true store2).1 = Ok all_demo
  /\ (query_records_demo None None None false false store2).1 = Ok [].
Proof. repeat split; by_compute. Qed.

Lemma update_record_keeps_created_at_witness :
  schema_of (view store2) = current_schema
  /\ declared_types (env := env_demo) record_update_demo
  /\ created_at_column (view (after (update_record_demo record_update_demo) store2))
     = created_at_column (view store2)
  /\ (update_record_demo record_update_demo store2).1 = Ok tt.
Proof.
  assert (H1 : schema_of (view store2) = current_schema) by reflexivity.
  assert (H2 : declared_types (env := env_demo) record_update_demo).
  { unfold declared_types. split; [|split; reflexivity]. repeat constructor. }
  pose proof (update_record_keeps_created_at (env := env_demo)
                record_update_demo store2) as H.
  cbv zeta in H. destruct H as (Hframe & _ & Hwrite).
  exact (conj H1 (conj H2 (conj Hframe (proj1 (Hwrite H1 H2))))).
Defined.

(** After the update the row holds the new fields and the old timestamp. *)
Example update_record_row :
  (get_record_by_id_demo 1 (after (update_record_demo record_update_demo) store2)).1
  = Ok (Some {| id_ := VInt 1;
                name := VText "Anime V2";
                model_type := (Lora : @ModelType env_demo);
                download_url := VText "https://example.org/m2";
                url := VText EmptyString;
                download_path := VText EmptyString;
                download_filename := VText EmptyString;
                preview_url := VText EmptyString;
                description := VText EmptyString;
                positive_prompts := VText EmptyString;
                negative_prompts := VText EmptyString;
                sha256_hash := VText EmptyString;
                md5_hash := VText EmptyString;
                created_at := VInt 0;
                groups := ["c"];
                subdir := VText EmptyString;
                location := VText EmptyString;
                weight := VReal 1;
                backup_url := VNull |}).
Proof. by_compute. Qed.

(** * Further properties of the store *)

Section Coverage.

Context {env : Env}.

(** ** The mapper: the rows it accepts *)

Lemma splittable_groups (v : value) :
  splittable v = true ->
  (if truthy v then split v else Ok [])
  = Ok (match v with
        | VText s => if is_empty s then [] else split_comma s
        | _ => []
        end).
Proof.
  destruct v as [|n|q|s]; simpl; intros H.
  - reflexivity.
  - apply negb_true_iff in H. rewrite negb_false_iff in H. rewrite H. reflexivity.
  - apply negb_true_iff in H. rewrite negb_false_iff in H. rewrite H. reflexivity.
  - destruct (is_empty s); reflexivity.
Qed.

Lemma unsplittable_groups (v : value) :
  splittable v = false ->
  (if truthy v then split v else Ok []) = Raise AttributeError.
Proof.
  destruct v as [|n|q|s]; simpl; intros H; try discriminate H.
  - apply negb_false_iff in H. rewrite H. reflexivity.
  - apply negb_false_iff in H. rewrite H. reflexivity.
Qed.

Lemma map_row_to_record_attribute (row : list value) :
  (15 <= length row)%nat ->
  splittable (default VNull (row !! 14%nat)) = false ->
  map_row_to_record row = Raise AttributeError.
Proof.
  intros Hlen Hs.
  do 15 (destruct row as [|? row]; [simpl in Hlen; lia|]).
  simpl in Hs. unfold map_row_to_record, index. simpl.
  rewrite (unsplittable_groups _ Hs). reflexivity.
Qed.

Lemma map_row_to_record_index (row : list value) :
  (length row < 19)%nat ->
  splittable (default VNull (row !! 14%nat)) = true ->
  map_row_to_record row = Raise IndexError.
Proof.
  intros Hlen Hs.
  do 15 (destruct row as [|? row]; [reflexivity|]).
  simpl in Hs. unfold map_row_to_record, index. simpl.
  rewrite (splittable_groups _ Hs).
  do 4 (destruct row as [|? row]; [reflexivity|]).
  simpl in Hlen. lia.
Qed.

Lemma map_row_to_record_ok (row : list value) (r : Record_) :
  map_row_to_record row = Ok r ->
  (19 <= length row)%nat /\ splittable (default VNull (row !! 14%nat)) = true.
Proof.
  intros Hr.
  destruct (splittable (default VNull (row !! 14%nat))) eqn:Hs.
  - split; [|reflexivity].
    destruct (decide (19 <= length row)%nat) as [|Hn]; [assumption|].
    rewrite map_row_to_record_index in Hr by (lia || exact Hs). discriminate Hr.
  - exfalso.
    destruct (decide (15 <= length row)%nat) as [Hl|Hn].
    + rewrite (map_row_to_record_attribute row Hl Hs) in Hr. discriminate Hr.
    + clear Hs. do 15 (destruct row as [|? row]; [discriminate Hr|]).
      simpl in Hn. lia.
Qed.

(** X1: [map_row_to_record] returns a Record exactly for a row of at least
    nineteen cells whose [groups] cell is a text or is not truthy.  A
    truthy [groups] cell that is not a text raises AttributeError (it has
    no [split]); otherwise a row of fewer than nineteen cells raises
    IndexError. *)
Theorem map_row_to_record_accepts (row : list value) :
  ((exists r, map_row_to_record row = Ok r)
   <-> (19 <= length row)%nat /\ splittable (default VNull (row !! 14%nat)) = true)
  /\ ((15 <= length row)%nat ->
      splittable (default VNull (row !! 14%nat)) = false ->
      map_row_to_record row = Raise AttributeError)
  /\ ((length row < 19)%nat ->
      splittable (default VNull (row !! 14%nat)) = true ->
      map_row_to_record row = Raise IndexError).
Proof.
  split; [|split; [apply map_row_to_record_attribute
                  |apply map_row_to_record_index]].
  split.
  - intros [r Hr]. exact (map_row_to_record_ok row r Hr).
  - intros [Hlen Hs].
    do 19 (destruct row as [|? row]; [simpl in Hlen; lia|]).
    simpl in Hs. unfold map_row_to_record, index. simpl.
    rewrite (splittable_groups _ Hs). eexists. reflexivity.
Qed.

(** The Record made of a Record row that is [readable], whatever the
    aggregated column holds. *)
Lemma map_row_to_record_row (r : rec_row) (t : value) :
  readable r -> map_row_to_record (star r ++ [t]) = Ok (record_of_row r).
Proof.
  intros [Hlen Hs]. destruct r as [i cs]. unfold cell in Hs. simpl in *.
  do 18 (destruct cs as [|? cs]; [simpl in Hlen; lia|]).
  simpl in Hs. unfold map_row_to_record, index, star. simpl.
  rewrite (splittable_groups _ Hs). reflexivity.
Qed.

Lemma map_rows_rows (rows : list rec_row) (f : rec_row -> value) :
  Forall readable rows ->
  map_rows (map (fun r => star r ++ [f r]) rows) = Ok (map record_of_row rows).
Proof.
  induction 1 as [|r rows Hr _ IH]; [reflexivity|].
  cbn [map map_rows]. rewrite (map_row_to_record_row r (f r) Hr), IH. reflexivity.
Qed.

(** ** The groups text: reading it and writing it back *)

Lemma split_comma_nonempty (s : string) : split_comma s <> [].
Proof.
  destruct s as [|c s]; simpl; [discriminate|].
  destruct (Ascii.eqb c comma); [discriminate|].
  destruct (split_comma s); discriminate.
Qed.

Lemma join_cons_char (c : ascii) (w : string) (ws : list string) :
  join "," (String c w :: ws) = String c (join "," (w :: ws)).
Proof. destruct ws; reflexivity. Qed.

Lemma join_split_comma (s : string) : join "," (split_comma s) = s.
Proof.
  induction s as [|c s IH]; [reflexivity|].
  simpl. destruct (Ascii.eqb c comma) eqn:Ec.
  - apply Ascii.eqb_eq in Ec. subst c.
    destruct (split_comma s) as [|w ws] eqn:E;
      [exfalso; exact (split_comma_nonempty _ E)|].
    change (join "," (EmptyString :: w :: ws))
      with (String comma (join "," (w :: ws))).
    rewrite IH. reflexivity.
  - destruct (split_comma s) as [|w ws] eqn:E;
      [exfalso; exact (split_comma_nonempty _ E)|].
    rewrite join_cons_char, IH. reflexivity.
Qed.

(** X2: The groups of a Record the mapper returns, joined with commas as
    [add_record] and [update_record] join them, are the text of the
    [groups] cell the Record was read from: reading a row and writing its
    groups back stores the same text. *)
Theorem groups_written_back (row : list value) (s : string) (r : Record_) :
  map_row_to_record row = Ok r ->
  row !! 14%nat = Some (VText s) ->
  join "," (groups r) = s.
Proof.
  intros Hr Hc.
  assert (Hlen : (19 <= length row)%nat)
    by exact (proj1 (map_row_to_record_ok row r Hr)).
  do 19 (destruct row as [|? row]; [simpl in Hlen; lia|]).
  simpl in Hc. injection Hc as ->.
  unfold map_row_to_record, index in Hr. simpl in Hr.
  destruct (is_empty s) eqn:Es; simpl in Hr; injection Hr as <-; simpl.
  - destruct s; [reflexivity|discriminate Es].
  - apply join_split_comma.
Qed.

(** ** Identifiers the store does not hold *)

Lemma database_eta (d : database) :
  with_tagset (tagset_rows d) (with_record (record_columns d) (record_rows d) d) = d.
Proof. destruct d; reflexivity. Qed.

Lemma filter_none {A} (P : A -> Prop) `{forall x, Decision (P x)} (l : list A) :
  (forall x, x ∈ l -> ~ P x) -> filter P l = [].
Proof.
  induction l as [|a l IH]; intros Hl; [reflexivity|].
  rewrite filter_cons. destruct (decide (P a)) as [Hp|_].
  - exfalso. apply (Hl a); [left|exact Hp].
  - apply IH. intros x Hx. apply Hl. right. exact Hx.
Qed.

Lemma filter_every {A} (P : A -> Prop) `{forall x, Decision (P x)} (l : list A) :
  (forall x, x ∈ l -> P x) -> filter P l = l.
Proof.
  induction l as [|a l IH]; intros Hl; [reflexivity|].
  rewrite filter_cons. destruct (decide (P a)) as [_|Hn].
  - f_equal. apply IH. intros x Hx. apply Hl. right. exact Hx.
  - exfalso. apply Hn, Hl. left.
Qed.

(** X3: [get_record_by_id] never returns None: its SELECT has an aggregate and
    no GROUP BY, so there is always a row to fetch.  For an identifier no
    Record row has, the row fetched holds NULL in every column and the
    mapper is applied to it; on a table of the current width the result is
    a Record whose fields are all None, with no groups. *)
Theorem get_record_by_id_never_none (i : Z) (w : world) :
  (get_record_by_id i w).1 <> Ok None
  /\ ((forall r, r ∈ record_rows (view w) -> rowid r <> i) ->
      get_record_by_id i w
      = (match map_row_to_record
                 (replicate (S (length (record_columns (view w)))) VNull ++ [VNull])
         with
         | Ok r => Ok (Some r)
         | Raise e => Raise e
         end, w)
      /\ (length (record_columns (view w)) = 18%nat ->
          exists r,
            get_record_by_id i w = (Ok (Some r), w)
            /\ id_ r = VNull /\ name r = VNull /\ created_at r = VNull
            /\ groups r = [] /\ location r = VNull
            /\ model_type r = ModelType_by_value VNull)).
Proof.
  split.
  - unfold get_record_by_id, bind, select, lift, ret, select_by_id. simpl.
    destruct (filter _ _) as [|r rs]; simpl;
      destruct (map_row_to_record _); simpl; discriminate.
  - intros Hno.
    assert (Hsel : select_by_id i (view w)
                   = [replicate (S (length (record_columns (view w)))) VNull
                      ++ [VNull]]).
    { unfold select_by_id. rewrite filter_none; [reflexivity|].
      intros r Hr Heq. exact (Hno r Hr Heq). }
    assert (Hget : get_record_by_id i w
                   = (match map_row_to_record
                              (replicate (S (length (record_columns (view w)))) VNull
                               ++ [VNull])
                      with
                      | Ok r => Ok (Some r)
                      | Raise e => Raise e
                      end, w)).
    { unfold get_record_by_id, bind, select, lift, ret. rewrite Hsel. simpl.
      destruct (map_row_to_record _); reflexivity. }
    split; [exact Hget|].
    intros Hlen. rewrite Hget, Hlen. simpl.
    eexists. split; [reflexivity|]. simpl. repeat split.
Qed.


(** X5: [remove_record] with an identifier no Record row has returns normally
    and leaves the database as it was; what it does is commit. *)
Theorem remove_record_missing_id (i : Z) (w : world) :
  (forall r, r ∈ record_rows (view w) -> rowid r <> i) ->
  remove_record i w
  = (Ok tt, {| disk := view w; view := view w; in_txn := false;
               foreign_keys := foreign_keys w; backups := backups w |}).
Proof.
  intros Hno. unfold remove_record, bind, dml, commit, sql_delete_record.
  rewrite (filter_none (fun r => rowid r = i)) by exact Hno.
  rewrite (filter_every (fun r => rowid r <> i)) by exact Hno.
  rewrite bool_decide_eq_true_2 by reflexivity.
  rewrite andb_false_r. simpl. rewrite database_eta. reflexivity.
Qed.


(** ** Identifiers [add_record] assigns *)






(** ** [add_record] and [get_all_records] *)


Lemma get_all_records_rows (w : world) :
  Forall readable (record_rows (view w)) ->
  get_all_records w = (Ok (map record_of_row (record_rows (view w))), w).
Proof.
  intros H. unfold get_all_records, bind, select, lift.
  rewrite select_grouped_all, (map_rows_rows _ _ H). reflexivity.
Qed.


(** ** Reads *)

Lemma read_only_bind {A B} (m : M A) (f : A -> M B) :
  read_only m -> (forall a, read_only (f a)) -> read_only (bind m f).
Proof.
  intros Hm Hf w. unfold bind. specialize (Hm w).
  destruct (m w) as [[a|e] w1]; simpl in *; subst w1; [apply Hf|reflexivity].
Qed.

Lemma read_only_for_fold {A S} (l : list A) (s : S) (body : S -> A -> M S) :
  (forall s a, read_only (body s a)) -> read_only (for_fold l s body).
Proof.
  intros Hb. revert s. induction l as [|a l IH]; intros s; [intros w; reflexivity|].
  apply read_only_bind; [apply Hb|intros s'; apply IH].
Qed.

Ltac reads :=
  repeat first
    [ apply read_only_bind; [|intros]
    | apply read_only_for_fold; intros
    | match goal with |- read_only (if ?b then _ else _) => destruct b end
    | match goal with |- read_only (match ?x with Some _ => _ | None => _ end) =>
        destruct x end
    | intros ?w; reflexivity ].

(** X8: No read of the store changes anything: the connection, the database
    file and the backup files are after the call what they were before,
    whether the call returns or raises. *)
Theorem reads_change_nothing :
  read_only get_all_records
  /\ (forall i, read_only (get_record_by_id i))
  /\ (forall name_query groups model_types show_downloaded show_not_downloaded,
        read_only (query_records name_query groups model_types
                     show_downloaded show_not_downloaded))
  /\ (forall group, read_only (get_records_by_group group))
  /\ (forall record_name, read_only (get_records_by_name record_name))
  /\ (forall u, read_only (get_records_by_url u))
  /\ (forall download_path download_filename,
        read_only (get_records_by_download_destination
                     download_path download_filename))
  /\ read_only get_all_records_locations
  /\ read_only get_all_tags
  /\ (forall record_id, read_only (get_tags_for_record record_id)).
Proof.
  repeat split; intros;
    unfold get_all_records, get_record_by_id, query_records, get_records_by_group,
      get_records_by_name, get_records_by_url, get_records_by_download_destination,
      get_all_records_locations, get_all_tags, get_tags_for_record;
    reads.
Qed.

(** ** The reads over the inner join *)

Lemma filter_nil_existsb {A} (f : A -> bool) (l : list A) :
  filter (fun n => f n = true) l = [] <-> existsb f l = false.
Proof.
  induction l as [|a l IH]; simpl; [tauto|].
  rewrite filter_cons. destruct (decide (f a = true)) as [Ha|Ha].
  - rewrite Ha. simpl. split; discriminate.
  - apply not_true_is_false in Ha. rewrite Ha. simpl. exact IH.
Qed.

Lemma filter_const {A} (b : bool) (l : list A) :
  filter (fun _ => b = true) l = if b then l else [].
Proof.
  induction l as [|a l IH]; [destruct b; reflexivity|].
  rewrite filter_cons, IH.
  destruct b; [destruct (decide (true = true)); [reflexivity|congruence]|].
  destruct (decide (false = true)); [discriminate|reflexivity].
Qed.

(** A WHERE clause on the Record columns alone keeps the Record rows that
    pass it and have a tag. *)
Lemma select_inner_grouped_filter (cond : rec_row -> string -> bool)
    (p : rec_row -> bool) (d : database) :
  (forall r n, cond r n = p r) ->
  select_inner_grouped cond d
  = map (fun r => star r
                  ++ [group_concat (map Some (inner_joined d (rowid r)))])
        (List.filter (fun r => p r && tagged d r) (record_rows d)).
Proof.
  intros H. unfold select_inner_grouped. apply omap_filter. intros r.
  rewrite (list_filter_iff (fun n => cond r n = true) (fun _ => p r = true))
    by (intros n; rewrite H; tauto).
  rewrite filter_const. unfold tagged.
  destruct (p r); [|reflexivity].
  destruct (inner_joined d (rowid r)); reflexivity.
Qed.

Lemma Forall_list_filter {A} (P : A -> Prop) (p : A -> bool) (l : list A) :
  Forall P l -> Forall P (List.filter p l).
Proof.
  induction 1 as [|a l Ha _ IH]; simpl; [constructor|].
  destruct (p a); [constructor; assumption|assumption].
Qed.

Lemma list_filter_ext_in {A} (p q : A -> bool) (l : list A) :
  (forall x, x ∈ l -> p x = q x) -> List.filter p l = List.filter q l.
Proof.
  induction l as [|a l IH]; intros H; [reflexivity|].
  simpl. rewrite (H a) by left. rewrite IH; [reflexivity|].
  intros x Hx. apply H. right. exact Hx.
Qed.

Lemma list_filter_none {A} (p : A -> bool) (l : list A) :
  (forall x, x ∈ l -> p x = false) -> List.filter p l = [].
Proof.
  induction l as [|a l IH]; intros H; [reflexivity|].
  simpl. rewrite (H a) by left. apply IH. intros x Hx. apply H. right. exact Hx.
Qed.

Lemma tagged_no_tagset (d : database) (r : rec_row) :
  (forall ts, ts ∈ tagset_rows d -> ts.1 <> rowid r) -> tagged d r = false.
Proof.
  intros H. unfold tagged, inner_joined.
  rewrite filter_none; [reflexivity|]. intros ts Hts Heq. exact (H ts Hts Heq).
Qed.

(** X9: [get_records_by_name] returns the Records whose name is the one asked
    for and that have a tag: its SELECT runs over the inner join of Record
    with TagSet and Tag, so a Record without a tag is never found by its
    name, though [get_all_records] returns it.  A name of None finds
    nothing. *)
Theorem get_records_by_name_tagged (record_name : value) (w : world) :
  schema_of (view w) = current_schema ->
  Forall readable (record_rows (view w)) ->
  fits TEXT record_name = true ->
  get_records_by_name record_name w
  = (Ok (map record_of_row
           (List.filter (fun r => sql_eq (cell r 0) record_name
                                  && tagged (view w) r)
              (record_rows (view w)))), w)
  /\ ((forall r ts, r ∈ record_rows (view w) -> ts ∈ tagset_rows (view w) ->
                    ts.1 <> rowid r) ->
      get_records_by_name record_name w = (Ok [], w))
  /\ (record_name = VNull -> get_records_by_name record_name w = (Ok [], w)).
Proof.
  intros Hs Hrows Hfit.
  destruct (schema_current_columns _ Hs)
    as (d1&d2&d3&d4&d5&d6&d7&d8&d9&d10&d11&d12&d13&d14&d15&d16&d17&d18&Hcols).
  assert (Hget : get_records_by_name record_name w
                 = (Ok (map record_of_row
                          (List.filter (fun r => sql_eq (cell r 0) record_name
                                                 && tagged (view w) r)
                             (record_rows (view w)))), w)).
  { unfold get_records_by_name, bind, execute, lift, select_inner_where.
    unfold column_names. rewrite Hcols. cbn [map forallb fst snd andb].
    rewrite bool_decide_eq_true_2 by (apply list_elem_of_In; simpl; tauto).
    rewrite (select_inner_grouped_filter _
               (fun r => sql_eq (cell r 0) record_name)).
    2:{ intros r _. cbn [forallb fst snd]. rewrite andb_true_r.
        unfold column_eq, column_names. rewrite Hcols. simpl.
        rewrite (affinity_cast_fits _ _ Hfit). reflexivity. }
    cbn [andb]. cbv beta iota.
    rewrite map_rows_rows by (apply Forall_list_filter; exact Hrows).
    reflexivity. }
  split; [exact Hget|]. split.
  - intros Hno. rewrite Hget. rewrite list_filter_none; [reflexivity|].
    intros r Hr. rewrite (tagged_no_tagset (view w) r), andb_false_r;
      [reflexivity|].
    intros ts Hts. exact (Hno r ts Hr Hts).
  - intros ->. rewrite Hget. rewrite list_filter_none; [reflexivity|].
    intros r _. destruct (cell r 0); reflexivity.
Qed.

(** X10: [get_records_by_url]: the Records with that url that have a tag; a
    Record without a tag is never found by its url. *)
Theorem get_records_by_url_tagged (u : value) (w : world) :
  schema_of (view w) = current_schema ->
  Forall readable (record_rows (view w)) ->
  fits TEXT u = true ->
  get_records_by_url u w
  = (Ok (map record_of_row
           (List.filter (fun r => sql_eq (cell r 3) u && tagged (view w) r)
              (record_rows (view w)))), w)
  /\ ((forall r ts, r ∈ record_rows (view w) -> ts ∈ tagset_rows (view w) ->
                    ts.1 <> rowid r) ->
      get_records_by_url u w = (Ok [], w)).
Proof.
  intros Hs Hrows Hfit.
  destruct (schema_current_columns _ Hs)
    as (d1&d2&d3&d4&d5&d6&d7&d8&d9&d10&d11&d12&d13&d14&d15&d16&d17&d18&Hcols).
  assert (Hget : get_records_by_url u w
                 = (Ok (map record_of_row
                          (List.filter (fun r => sql_eq (cell r 3) u
                                                 && tagged (view w) r)
                             (record_rows (view w)))), w)).
  { unfold get_records_by_url, bind, execute, lift, select_inner_where.
    unfold column_names. rewrite Hcols. cbn [map forallb fst snd andb].
    rewrite bool_decide_eq_true_2 by (apply list_elem_of_In; simpl; tauto).
    rewrite (select_inner_grouped_filter _ (fun r => sql_eq (cell r 3) u)).
    2:{ intros r _. cbn [forallb fst snd]. rewrite andb_true_r.
        unfold column_eq, column_names. rewrite Hcols. simpl.
        rewrite (affinity_cast_fits _ _ Hfit). reflexivity. }
    cbn [andb]. cbv beta iota.
    rewrite map_rows_rows by (apply Forall_list_filter; exact Hrows).
    reflexivity. }
  split; [exact Hget|].
  intros Hno. rewrite Hget. rewrite list_filter_none; [reflexivity|].
  intros r Hr. rewrite (tagged_no_tagset (view w) r), andb_false_r;
    [reflexivity|].
  intros ts Hts. exact (Hno r ts Hr Hts).
Qed.

(** X11: [get_records_by_download_destination]: the Records with that download
    path and that file name, both, that have a tag. *)
Theorem get_records_by_download_destination_tagged
    (path filename : value) (w : world) :
  schema_of (view w) = current_schema ->
  Forall readable (record_rows (view w)) ->
  fits TEXT path = true ->
  fits TEXT filename = true ->
  get_records_by_download_destination path filename w
  = (Ok (map record_of_row
           (List.filter (fun r => sql_eq (cell r 4) path
                                  && sql_eq (cell r 5) filename
                                  && tagged (view w) r)
              (record_rows (view w)))), w)
  /\ ((forall r ts, r ∈ record_rows (view w) -> ts ∈ tagset_rows (view w) ->
                    ts.1 <> rowid r) ->
      get_records_by_download_destination path filename w = (Ok [], w)).
Proof.
  intros Hs Hrows Hp Hf.
  destruct (schema_current_columns _ Hs)
    as (d1&d2&d3&d4&d5&d6&d7&d8&d9&d10&d11&d12&d13&d14&d15&d16&d17&d18&Hcols).
  assert (Hget : get_records_by_download_destination path filename w
                 = (Ok (map record_of_row
                          (List.filter (fun r => sql_eq (cell r 4) path
                                                 && sql_eq (cell r 5) filename
                                                 && tagged (view w) r)
                             (record_rows (view w)))), w)).
  { unfold get_records_by_download_destination, bind, execute, lift,
      select_inner_where.
    unfold column_names. rewrite Hcols. cbn [map forallb fst snd andb].
    rewrite !bool_decide_eq_true_2 by (apply list_elem_of_In; simpl; tauto).
    cbn [andb].
    rewrite (select_inner_grouped_filter _
               (fun r => sql_eq (cell r 4) path && sql_eq (cell r 5) filename)).
    2:{ intros r _. cbn [forallb fst snd]. rewrite andb_true_r.
        unfold column_eq, column_names. rewrite Hcols. simpl.
        rewrite (affinity_cast_fits _ _ Hp), (affinity_cast_fits _ _ Hf).
        reflexivity. }
    cbn [andb]. cbv beta iota.
    rewrite map_rows_rows by (apply Forall_list_filter; exact Hrows).
    reflexivity. }
  split; [exact Hget|].
  intros Hno. rewrite Hget. rewrite list_filter_none; [reflexivity|].
  intros r Hr. rewrite (tagged_no_tagset (view w) r), andb_false_r;
    [reflexivity|].
  intros ts Hts. exact (Hno r ts Hr Hts).
Qed.

(** ** LIKE *)

Lemma like_star_here (f : list ascii -> bool) (t : list ascii) :
  f t = true -> like_star f t = true.
Proof. intros H. destruct t; simpl; rewrite H; reflexivity. Qed.

Lemma like_star_app (f : list ascii -> bool) (pre t : list ascii) :
  like_star f t = true -> like_star f (pre ++ t) = true.
Proof.
  intros H. induction pre as [|c pre IH]; [exact H|].
  cbn [app like_star]. rewrite IH. apply orb_true_r.
Qed.

Lemma like_percent (t : list ascii) : like ["%"%char] t = true.
Proof.
  cbn [like]. change (Ascii.eqb "%" "%") with true. cbv iota.
  induction t as [|c t IH]; [reflexivity|].
  cbn [like_star]. rewrite IH. apply orb_true_r.
Qed.

(** A pattern in lower case matches, letter by letter, a text that differs
    from it in case only; the wildcards in it match as well. *)
Lemma like_lower (g x q t : list ascii) :
  map lower_ascii x = map lower_ascii g ->
  like q t = true ->
  like (map lower_ascii g ++ q) (x ++ t) = true.
Proof.
  revert x. induction g as [|a g IH]; intros x Hx Hq.
  - destruct x; [exact Hq|discriminate Hx].
  - destruct x as [|d x]; [discriminate Hx|].
    cbn [map] in Hx. injection Hx as Hd Hx.
    cbn [map app like].
    destruct (Ascii.eqb (lower_ascii a) "%").
    + cbn [like_star]. rewrite (like_star_here _ _ (IH x Hx Hq)).
      apply orb_true_r.
    + rewrite lower_ascii_idem, Hd, Ascii.eqb_refl, orb_true_r.
      exact (IH x Hx Hq).
Qed.

Lemma list_ascii_of_lower (s : string) :
  list_ascii_of_string (lower s) = map lower_ascii (list_ascii_of_string s).
Proof.
  induction s as [|c s IH]; [reflexivity|]. simpl. rewrite IH. reflexivity.
Qed.

(** A name that contains the group asked for, in whatever case, matches
    the pattern of [get_records_by_group]. *)
Lemma sql_like_group_pattern (pre x post group : string) :
  lower x = lower group ->
  sql_like (pre +:+ x +:+ post) (group_pattern group) = true.
Proof.
  intros Hx. unfold sql_like, group_pattern.
  rewrite !list_ascii_of_string_app, list_ascii_of_lower.
  change (list_ascii_of_string "%") with ["%"%char].
  cbn [app like]. change (Ascii.eqb "%" "%") with true. cbv iota.
  apply like_star_app, like_star_here, like_lower; [|apply like_percent].
  rewrite <- !list_ascii_of_lower, Hx. reflexivity.
Qed.

(** ** [get_records_by_group] *)

Lemma select_inner_grouped_tags (f : string -> bool) (d : database) :
  exists h,
    select_inner_grouped (fun _ n => f n) d
    = map (fun r => star r ++ [h r])
          (List.filter (fun r => existsb f (inner_joined d (rowid r)))
             (record_rows d)).
Proof.
  exists (fun r => group_concat
                     (map Some (filter (fun n => f n = true)
                                  (inner_joined d (rowid r))))).
  unfold select_inner_grouped. apply omap_filter. intros r.
  destruct (filter (fun n => f n = true) (inner_joined d (rowid r)))
    as [|n ns] eqn:E.
  - apply filter_nil_existsb in E. rewrite E. reflexivity.
  - destruct (existsb f (inner_joined d (rowid r))) eqn:Ex; [reflexivity|].
    apply filter_nil_existsb in Ex. rewrite Ex in E. discriminate E.
Qed.

(** X12: [get_records_by_group] returns the Records that have a tag whose name
    matches [%group%], the group in lower case, as LIKE matches: without
    regard to case, and with [%] and [_] in the group as wildcards.  So a
    Record with a tag whose name contains the group, in whatever case, is
    returned; and a Record without a tag never is. *)
Theorem get_records_by_group_matches (group : string) (w : world) :
  record_columns (view w) <> [] ->
  Forall readable (record_rows (view w)) ->
  let found :=
    map record_of_row
      (List.filter
         (fun r => existsb (fun n => sql_like n (group_pattern group))
                     (inner_joined (view w) (rowid r)))
         (record_rows (view w))) in
  get_records_by_group group w = (Ok found, w)
  /\ (forall r pre x post,
        r ∈ record_rows (view w) ->
        pre +:+ x +:+ post ∈ inner_joined (view w) (rowid r) ->
        lower x = lower group ->
        record_of_row r ∈ found)
  /\ (forall r, r ∈ record_rows (view w) ->
                tagged (view w) r = false ->
                forall rec, rec ∈ found -> id_ rec <> VInt (rowid r)).
Proof.
  intros Hcols Hrows found. split; [|split].
  - unfold get_records_by_group, bind, execute, lift.
    destruct (record_columns (view w)) as [|c cols] eqn:E; [congruence|].
    destruct (select_inner_grouped_tags
                (fun n => sql_like n ("%" +:+ lower group +:+ "%")) (view w))
      as [h Hh].
    rewrite Hh.
    rewrite map_rows_rows by (apply Forall_list_filter; exact Hrows).
    reflexivity.
  - intros r pre x post Hr Hn Hx. unfold found.
    apply list_elem_of_fmap. exists r. split; [reflexivity|].
    apply list_elem_of_In, filter_In. split; [apply list_elem_of_In; exact Hr|].
    apply existsb_exists. exists (pre +:+ x +:+ post).
    split; [apply list_elem_of_In; exact Hn|].
    apply sql_like_group_pattern. exact Hx.
  - intros r Hr Ht rec Hrec Hid. unfold found in Hrec.
    apply list_elem_of_fmap in Hrec. destruct Hrec as (r' & -> & Hr').
    apply list_elem_of_In, filter_In in Hr'. destruct Hr' as [_ Hex].
    simpl in Hid. injection Hid as Hid.
    unfold tagged in Ht. rewrite <- Hid in Ht.
    destruct (inner_joined (view w) (rowid r')); [discriminate Hex|discriminate Ht].
Qed.

(** ** [get_all_records_locations] *)

Lemma locations_loop (vs acc : list value) (w : world) :
  for_fold (map (fun v => [v]) vs) acc (fun result row =>
    r0 <- lift (index row 0) ;;
    if truthy r0 then ret (result ++ [r0]) else ret result) w
  = (Ok (acc ++ List.filter truthy vs), w).
Proof.
  revert acc. induction vs as [|v vs IH]; intros acc.
  - simpl. rewrite app_nil_r. reflexivity.
  - cbn [map for_fold List.filter]. unfold bind at 1. unfold bind at 1.
    unfold lift at 1, index at 1. cbn [lookup list_lookup].
    destruct (truthy v); unfold ret at 1; rewrite IH.
    + rewrite <- app_assoc. reflexivity.
    + reflexivity.
Qed.

Lemma map_row_location (row : list value) (rec : Record_) :
  map_row_to_record row = Ok rec ->
  location rec = default VNull (row !! 16%nat).
Proof.
  intros Hr.
  assert (Hlen : (19 <= length row)%nat)
    by exact (proj1 (map_row_to_record_ok row rec Hr)).
  do 19 (destruct row as [|? row]; [simpl in Hlen; lia|]).
  unfold map_row_to_record, index in Hr. simpl in Hr.
  destruct (if truthy _ then _ else _) as [gs|e]; simpl in Hr; [|discriminate Hr].
  injection Hr as <-. reflexivity.
Qed.

Lemma map_rows_locations (rows : list rec_row) (f : rec_row -> value)
    (all : list Record_) :
  map_rows (map (fun r => star r ++ [f r]) rows) = Ok all ->
  map location all = map (fun r => cell r 15) rows.
Proof.
  revert all. induction rows as [|r rows IH]; intros all; cbn [map map_rows].
  - intros [= <-]. reflexivity.
  - intros H.
    destruct (map_row_to_record (star r ++ [f r])) as [rec|] eqn:Hrec;
      [|discriminate H].
    destruct (map_rows _) as [rs|]; [|discriminate H].
    cbn [obind] in H. injection H as <-.
    cbn [map]. rewrite (IH rs eq_refl). f_equal.
    rewrite (map_row_location _ _ Hrec). unfold star, cell.
    destruct r as [i cs]. simpl.
    assert (Hlen : (19 <= length (VInt i :: cs
                                  ++ [f {| rowid := i; cells := cs |}]))%nat)
      by exact (proj1 (map_row_to_record_ok _ _ Hrec)).
    simpl in Hlen. rewrite length_app in Hlen. simpl in Hlen.
    rewrite lookup_app_l by lia. reflexivity.
Qed.

(** X13: [get_all_records_locations] returns the locations that are not empty
    (None and the empty text are left out), one for each such Record row,
    in the order of the rows; on the current schema these are the
    non-empty locations of the Records [get_all_records] returns.  Where
    the table has no [location] column the statement is rejected. *)
Theorem get_all_records_locations_spec (w : world) :
  ("location" ∈ column_names (view w) ->
   get_all_records_locations w
   = (Ok (List.filter truthy
            (map (cell_of (view w) "location") (record_rows (view w)))), w))
  /\ ("location" ∉ column_names (view w) ->
      get_all_records_locations w = (Raise OperationalError, w))
  /\ (schema_of (view w) = current_schema ->
      forall all,
        get_all_records w = (Ok all, w) ->
        get_all_records_locations w
        = (Ok (List.filter truthy (map location all)), w)).
Proof.
  assert (Hin : "location" ∈ column_names (view w) ->
                get_all_records_locations w
                = (Ok (List.filter truthy
                         (map (cell_of (view w) "location")
                            (record_rows (view w)))), w)).
  { intros Hc. unfold get_all_records_locations.
    erewrite bind_ok.
    2:{ unfold execute. rewrite bool_decide_eq_true_2 by exact Hc.
        rewrite <- (map_map (cell_of (view w) "location") (fun v => [v])).
        reflexivity. }
    apply locations_loop. }
  split; [exact Hin|]. split.
  - intros Hc. unfold get_all_records_locations, bind, execute.
    rewrite bool_decide_eq_false_2 by exact Hc. reflexivity.
  - intros Hs all Hall.
    destruct (schema_current_columns _ Hs)
      as (d1&d2&d3&d4&d5&d6&d7&d8&d9&d10&d11&d12&d13&d14&d15&d16&d17&d18&Hcols).
    rewrite Hin by (unfold column_names; rewrite Hcols;
                    apply list_elem_of_In; simpl; tauto).
    unfold get_all_records, bind, select, lift in Hall.
    rewrite select_grouped_all in Hall.
    destruct (map_rows _) as [rs|] eqn:Hrs; [|discriminate Hall].
    injection Hall as ->.
    rewrite (map_rows_locations _ _ _ Hrs).
    do 3 f_equal. apply map_ext. intros r.
    unfold cell_of, cell, column_names. rewrite Hcols. reflexivity.
Qed.

(** ** The Tag table: unique ids, unique names, lower case *)

Lemma preserves_bind {A B} (P : database -> Prop) (m : M A) (f : A -> M B) :
  preserves P m -> (forall a, preserves P (f a)) -> preserves P (bind m f).
Proof.
  intros Hm Hf w Hw. unfold bind. specialize (Hm w Hw).
  destruct (m w) as [[a|e] w1]; simpl in *; [apply Hf; exact Hm|exact Hm].
Qed.

Lemma preserves_dml {A} (P : database -> Prop)
    (stmt : bool -> database -> outcome (A * database)) :
  (forall fk d a d', stmt fk d = Ok (a, d') -> P d -> P d') ->
  preserves P (dml stmt).
Proof.
  intros H w Hw. unfold dml.
  destruct (stmt (foreign_keys w) (view w)) as [[a d]|e] eqn:E; simpl;
    [exact (H _ _ _ _ E Hw)|exact Hw].
Qed.

Lemma preserves_ddl (P : database -> Prop) (stmt : database -> outcome database) :
  (forall d d', stmt d = Ok d' -> P d -> P d') -> preserves P (ddl stmt).
Proof.
  intros H w Hw. unfold ddl.
  destruct (stmt (view w)) as [d|e] eqn:E; simpl; [exact (H _ _ E Hw)|exact Hw].
Qed.

Lemma preserves_for_each {A} (P : database -> Prop) (l : list A)
    (body : A -> M unit) :
  (forall a, preserves P (body a)) -> preserves P (for_each l body).
Proof.
  intros Hb. induction l as [|a l IH]; [intros w Hw; exact Hw|].
  apply preserves_bind; [apply Hb|intros _; exact IH].
Qed.

Lemma preserves_for_fold {A S} (P : database -> Prop) (l : list A) (s : S)
    (body : S -> A -> M S) :
  (forall s a, preserves P (body s a)) -> preserves P (for_fold l s body).
Proof.
  intros Hb. revert s. induction l as [|a l IH]; intros s; [intros w Hw; exact Hw|].
  apply preserves_bind; [apply Hb|intros s'; apply IH].
Qed.

Lemma tags_wf_same (d d' : database) :
  tag_rows d' = tag_rows d -> tags_wf d -> tags_wf d'.
Proof. unfold tags_wf. intros ->. tauto. Qed.

Lemma next_rowid_not_in (ids : list Z) : next_rowid ids ∉ ids.
Proof.
  intros Hin. pose proof (next_rowid_fresh ids) as H.
  rewrite Forall_forall in H. specialize (H _ Hin). lia.
Qed.

Lemma tags_wf_insert (tag : string) (fk : bool) (d d' : database) (i : Z) :
  sql_insert_tag (lower tag) fk d = Ok (i, d') -> tags_wf d -> tags_wf d'.
Proof.
  unfold sql_insert_tag, tags_wf.
  destruct (bool_decide _) eqn:E; [discriminate|].
  apply bool_decide_eq_false in E.
  intros [= <- <-] (Hi & Hn & Hl). cbn [tag_rows with_tags].
  rewrite !map_app. cbn [map fst snd].
  split; [|split].
  - apply NoDup_app. split; [exact Hi|]. split; [|apply NoDup_singleton].
    intros x Hx Hx'. apply list_elem_of_singleton in Hx'. subst x.
    exact (next_rowid_not_in _ Hx).
  - apply NoDup_app. split; [exact Hn|]. split; [|apply NoDup_singleton].
    intros x Hx Hx'. apply list_elem_of_singleton in Hx'. subst x. exact (E Hx).
  - apply Forall_app. split; [exact Hl|].
    constructor; [apply lower_idem|constructor].
Qed.

Lemma NoDup_map_filter {A B} (f : A -> B) (P : A -> Prop)
    `{forall x, Decision (P x)} (l : list A) :
  NoDup (map f l) -> NoDup (map f (filter P l)).
Proof.
  induction l as [|a l IH]; [intros; constructor|].
  cbn [map]. rewrite NoDup_cons. intros [Ha Hl].
  rewrite filter_cons. destruct (decide (P a)); [|exact (IH Hl)].
  cbn [map]. apply NoDup_cons. split; [|exact (IH Hl)].
  intros Hin. apply Ha. apply list_elem_of_fmap in Hin.
  destruct Hin as (x & -> & Hx). apply list_elem_of_filter in Hx.
  apply list_elem_of_fmap. exists x. tauto.
Qed.

Lemma tags_wf_delete (p : Z * string -> bool) (fk : bool) (d d' : database) :
  sql_delete_tags p fk d = Ok (tt, d') -> tags_wf d -> tags_wf d'.
Proof.
  unfold sql_delete_tags, tags_wf. intros [= <-] (Hi & Hn & Hl).
  cbn [tag_rows with_tags with_tagset].
  split; [apply NoDup_map_filter; exact Hi|].
  split; [apply NoDup_map_filter; exact Hn|].
  apply Forall_forall. intros t Ht. apply list_elem_of_filter in Ht.
  rewrite Forall_forall in Hl. apply Hl. tauto.
Qed.

Lemma sql_add_column_tags (c : string) (a : affinity) (v : value)
    (d d' : database) :
  sql_add_column c a v d = Ok d' -> tag_rows d' = tag_rows d.
Proof.
  unfold sql_add_column. destruct (record_columns d); [discriminate|].
  destruct (bool_decide _); [discriminate|]. intros [= <-]. reflexivity.
Qed.

Lemma sql_rename_column_tags (a b : string) (d d' : database) :
  sql_rename_column a b d = Ok d' -> tag_rows d' = tag_rows d.
Proof.
  unfold sql_rename_column. destruct (_ && _); [|discriminate].
  intros [= <-]. reflexivity.
Qed.

Ltac wf_same :=
  intros; eapply tags_wf_same; [|eassumption];
  match goal with
  | H : sql_add_column _ _ _ _ = Ok _ |- _ => exact (sql_add_column_tags _ _ _ _ _ H)
  | H : sql_rename_column _ _ _ = Ok _ |- _ => exact (sql_rename_column_tags _ _ _ _ H)
  | H : sql_create_record ?d = Ok _ |- _ =>
      revert H; unfold sql_create_record; destruct (record_columns d);
      intros H; injection H; intros; subst; reflexivity
  | H : sql_insert_record _ _ ?d = Ok _ |- _ =>
      revert H; unfold sql_insert_record;
      destruct (resolve (record_columns d) _); intros H; [|discriminate H];
      injection H; intros; subst; reflexivity
  | H : sql_update_record _ _ _ ?d = Ok _ |- _ =>
      revert H; unfold sql_update_record;
      destruct (resolve (record_columns d) _); intros H; [|discriminate H];
      injection H; intros; subst; reflexivity
  | H : sql_insert_tagset _ _ _ _ = Ok _ |- _ =>
      revert H; unfold sql_insert_tagset;
      match goal with
      | |- (if ?b then _ else _) = _ -> _ => destruct b
      end; intros H; [discriminate H|]; injection H; intros; subst; reflexivity
  | H : _ = Ok _ |- _ => injection H; intros; subst; reflexivity
  end.

Ltac wf :=
  repeat first
    [ apply preserves_bind; [|intros]
    | apply preserves_for_each; intros
    | apply preserves_for_fold; intros
    | apply preserves_dml;
        first [ intros ? ? ? ? ?H; exact (tags_wf_insert _ _ _ _ _ H)
              | intros ? ? [] ? ?H; exact (tags_wf_delete _ _ _ _ H)
              | wf_same ]
    | apply preserves_ddl; wf_same
    | intros ?w ?Hw; exact Hw ].

Lemma tags_wf_migrations (ver : Z) (migration : M unit) :
  migration_map !! ver = Some migration -> preserves tags_wf migration.
Proof.
  unfold migration_map. intros H.
  repeat (apply lookup_insert_Some in H; destruct H as [[_ <-]|[_ H]];
          [unfold _migrate_1_to_2, _migrate_2_to_3, _migrate_3_to_4,
             _migrate_4_to_5, _migrate_5_to_6, _migrate_6_to_7; wf|]).
  apply lookup_singleton_Some in H. destruct H as [_ <-].
  unfold _migrate_7_to_8. wf.
Qed.

Lemma tags_wf_backup_database (ver : Z) : preserves tags_wf (_backup_database ver).
Proof.
  intros w Hw. unfold _backup_database, bind, isfile, os_remove, shutil_copy_db, ret.
  destruct (1 <? ver); [destruct (bool_decide _)|]; exact Hw.
Qed.

(** X14: The store keeps the Tag table well formed: ids without duplicates,
    names without duplicates and in lower case.  This holds of the empty
    database, and the constructor and every method that writes keep it,
    whether they return or raise. *)
Theorem tags_wf_invariant :
  tags_wf empty_database
  /\ preserves tags_wf _initialize
  /\ (forall tag, preserves tags_wf (add_tag tag))
  /\ (forall tag_name tag_id, preserves tags_wf (remove_tag tag_name tag_id))
  /\ (forall record_id tag_list,
        preserves tags_wf (set_tags_for_record record_id tag_list))
  /\ (forall record, preserves tags_wf (add_record record))
  /\ (forall record, preserves tags_wf (update_record record))
  /\ (forall i, preserves tags_wf (remove_record i)).
Proof.
  split; [repeat split; constructor|].
  split.
  { unfold _initialize, _check_database_version, select.
    do 5 (apply preserves_bind; [wf|intros _]).
    apply preserves_bind; [wf|intros row].
    apply preserves_bind; [destruct row; wf|intros _].
    destruct (bool_decide _); [|wf].
    unfold _run_migration, run_migration_with. apply preserves_for_each.
    intros ver.
    apply preserves_bind; [apply tags_wf_backup_database|intros _].
    destruct (migration_map !! ver) as [m|] eqn:E; [|wf].
    exact (tags_wf_migrations ver m E). }
  split; [intros tag; unfold add_tag; wf|].
  split; [intros tag_name [i|]; unfold remove_tag; wf|].
  split.
  { intros record_id tag_list.
    unfold set_tags_for_record, get_tags_for_record, select.
    apply preserves_bind; [wf|intros current].
    apply preserves_bind;
      [apply preserves_for_fold; intros; unfold add_tag; wf|intros dict].
    apply preserves_bind; [destruct (remove_dups _); wf|intros dict'].
    unfold sql_delete_orphan_tags. wf. }
  split; [intros record; unfold add_record; wf|].
  split; [intros record; unfold update_record; wf|].
  intros i. unfold remove_record. wf.
Qed.

(** ** [add_tag], [get_all_tags], [remove_tag] *)

Lemma is_empty_lower (s : string) : is_empty (lower s) = is_empty s.
Proof. destruct s; reflexivity. Qed.


(** X15: [get_all_tags] returns the names of the Tag rows in lower case, each
    once, and never the empty name. *)
Theorem get_all_tags_spec (w : world) :
  exists tags,
    get_all_tags w = (Ok tags, w)
    /\ NoDup tags
    /\ (forall x, x ∈ tags -> lower x = x /\ is_empty x = false)
    /\ (forall x, x ∈ tags <->
                  exists t, t ∈ tag_rows (view w)
                            /\ is_empty t.2 = false /\ x = lower t.2).
Proof.
  exists (all_tags (view w)). split; [reflexivity|].
  assert (Hiff : forall x, x ∈ all_tags (view w) <->
                   exists t, t ∈ tag_rows (view w)
                             /\ is_empty t.2 = false /\ x = lower t.2).
  { intros x. unfold all_tags.
    rewrite elem_of_remove_dups, list_elem_of_fmap. split.
    - intros (n & -> & Hn). apply list_elem_of_filter in Hn.
      destruct Hn as [He Hn]. apply list_elem_of_fmap in Hn.
      destruct Hn as (t & -> & Ht). eauto.
    - intros (t & Ht & He & ->). exists t.2. split; [reflexivity|].
      apply list_elem_of_filter. split; [exact He|].
      apply list_elem_of_fmap. eauto. }
  split; [apply NoDup_remove_dups|]. split; [|exact Hiff].
  intros x Hx. apply Hiff in Hx. destruct Hx as (t & _ & He & ->).
  split; [apply lower_idem|]. rewrite is_empty_lower. exact He.
Qed.





(** ** [set_tags_for_record] and [get_tags_for_record] *)



















(** ** The groups filter of [query_records] *)

Lemma parse_conj_tag_clause (fuel : nat) (rest : list token) (n : nat) :
  parse_conj fuel (TWord "t.name" :: TWord "LIKE" :: TSym "%" :: rest) n
  = Raise OperationalError.
Proof. destruct fuel; reflexivity. Qed.

Lemma parse_conj_after_name (fuel : nat) (rest : list token) (n : nat) :
  (forall fuel' n', parse_conj fuel' rest n' = Raise OperationalError) ->
  parse_conj fuel (name_tokens ++ TWord "AND" :: rest) n = Raise OperationalError.
Proof.
  intros H. destruct fuel; [reflexivity|].
  unfold name_tokens. cbn [app parse_conj parse_term is_sym is_word token_eqb
                             String.eqb Ascii.eqb Bool.eqb strip_prefix andb
                             parse_operand obind fst snd].
  rewrite H. reflexivity.
Qed.

Lemma parse_conj_after_eqs (fuel k : nat) (rest : list token) (n : nat) :
  (forall fuel' n', parse_conj fuel' rest n' = Raise OperationalError) ->
  parse_conj fuel
    (TSym "(" :: eqs_tokens (S k) ++ TSym ")" :: TWord "AND" :: rest) n
  = Raise OperationalError.
Proof.
  intros H. destruct fuel; [reflexivity|].
  cbn [parse_conj parse_term is_sym token_eqb Ascii.eqb Bool.eqb].
  rewrite parse_eqs_eqs_tokens.
  cbn [obind fst snd is_word token_eqb String.eqb Ascii.eqb Bool.eqb andb].
  rewrite H. reflexivity.
Qed.

(** X19: With a non-empty list of groups [query_records] never returns: the
    clause it writes for a group, [t.name LIKE %?%], is not SQL, and the
    statement is rejected with an OperationalError before any row is read,
    whatever the other filters. *)
Theorem query_records_groups_raise (name_query : option string)
    (groups model_types : option (list string))
    (show_downloaded show_not_downloaded : bool) (w : world) :
  nonempty_list groups = true ->
  query_records name_query groups model_types
    show_downloaded show_not_downloaded w
  = (Raise OperationalError, w).
Proof.
  intros Hg. destruct groups as [[|g gs]|]; try discriminate Hg. clear Hg.
  assert (Hp : parse_select
                 (select_from_tokens
                  ++ where_tokens name_query (Some (g :: gs)) model_types
                  ++ group_by_tokens)
               = Raise OperationalError).
  { unfold parse_select. rewrite strip_prefix_app. unfold where_tokens.
    cbn [nonempty_list default from_option id].
    rewrite !orb_true_r.
    change (([TWord "WHERE"] ++ ?x) ++ ?y) with (TWord "WHERE" :: x ++ y).
    cbn [app is_word token_eqb String.eqb Ascii.eqb Bool.eqb andb].
    match goal with
    | |- context [parse_conj ?f _ _] => generalize f
    end.
    intros fuel.
    assert (Htag' : forall fuel' n',
               parse_conj fuel'
                 (TWord "t.name" :: TWord "LIKE" :: TSym "%" :: TParam :: TSym "%"
                  :: tag_tokens true gs ++ group_by_tokens) n'
               = Raise OperationalError).
    { intros fuel' n'. apply parse_conj_tag_clause. }
    destruct (nonempty_str name_query);
      destruct model_types as [[|mt mts]|];
      cbn [nonempty_list orb default from_option id length app tag_tokens].
    all: rewrite <- ?app_assoc; cbn [app].
    all: try (rewrite parse_conj_tag_clause; reflexivity).
    all: try (rewrite parse_conj_after_name by exact Htag'; reflexivity).
    all: try (rewrite parse_conj_after_eqs by exact Htag'; reflexivity).
    all: rewrite parse_conj_after_name; [reflexivity|].
    all: intros fuel' n'; rewrite <- ?app_assoc; cbn [app];
      apply parse_conj_after_eqs; exact Htag'. }
  unfold query_records. apply bind_raise.
  unfold execute_select. rewrite lex_query_text. cbn [obind]. rewrite Hp.
  reflexivity.
Qed.

(** ** Opening a store *)

(** X20: A database file without a version row, be it a new file or one whose
    Version table is empty, is stamped with the current version and is not
    migrated, whatever columns its Record table has; no backup is made. *)
Theorem SQLiteStorage_unversioned (file : database) (baks : gmap Z database) :
  version_rows file = [] ->
  SQLiteStorage file baks
  = (Ok tt, committed (with_version [_DB_VERSION] (created file))
              (sqlite3_connect file baks)).
Proof.
  intros Hv.
  unfold SQLiteStorage, _initialize, _check_database_version, bind, ddl, dml,
    commit, select, ret, sql_create_record, sql_create_if_not_exists,
    sql_insert_version, committed, sqlite3_connect, created.
  destruct (record_columns file) eqn:E; cbn; rewrite ?E; cbn; rewrite ?Hv;
    cbn [fetchone head]; cbv beta iota; cbn [view version_rows with_record];
    rewrite ?Hv; rewrite bool_decide_eq_false_2 by (intros H; apply H; reflexivity);
    reflexivity.
Qed.

(** X21: A database file at the current version, or at a later one, is opened
    as it is: no statement changes it, no migration runs, no backup is
    made, and a version above the current one is not an error. *)
Theorem SQLiteStorage_current (file : database) (baks : gmap Z database) (v : Z) :
  fetchone (version_rows file) = Some v ->
  _DB_VERSION <= v ->
  record_columns file <> [] ->
  SQLiteStorage file baks = (Ok tt, sqlite3_connect file baks).
Proof.
  unfold _DB_VERSION. intros Hv Hle Hcols.
  unfold SQLiteStorage, _initialize, _check_database_version, bind, ddl, dml,
    commit, select, ret, sql_create_record, sql_create_if_not_exists,
    sqlite3_connect.
  destruct (record_columns file) eqn:E; [congruence|].
  cbn. rewrite ?E. cbn. rewrite Hv. cbn.
  destruct (bool_decide (v <> _DB_VERSION)) eqn:Eb; [|reflexivity].
  unfold _run_migration, run_migration_with, _DB_VERSION, seqZ.
  replace (Z.to_nat (8 - v)) with O by lia. reflexivity.
Qed.

(** ** What a migration does to the rows *)

Lemma extended_nil (r : rec_row) : extended [] r = r.
Proof. destruct r as [i cs]. unfold extended. simpl. rewrite app_nil_r. reflexivity. Qed.

Lemma map_extended_nil (rows : list rec_row) : map (extended []) rows = rows.
Proof.
  induction rows as [|r rows IH]; [reflexivity|].
  cbn [map]. rewrite extended_nil, IH. reflexivity.
Qed.

Lemma map_extended_app (a b : list value) (rows : list rec_row) :
  map (extended b) (map (extended a) rows) = map (extended (a ++ b)) rows.
Proof.
  rewrite map_map. apply map_ext. intros r. unfold extended. simpl.
  rewrite app_assoc. reflexivity.
Qed.

(** The part of a database a migration step must leave alone: the Record
    rows up to cells appended, the Tag rows and the TagSet rows. *)
Lemma sql_add_column_rows (c : string) (a : affinity) (v : value)
    (d d' : database) :
  sql_add_column c a v d = Ok d' ->
  record_rows d' = map (extended [v]) (record_rows d)
  /\ tag_rows d' = tag_rows d /\ tagset_rows d' = tagset_rows d.
Proof.
  unfold sql_add_column. destruct (record_columns d); [discriminate|].
  destruct (bool_decide _); [discriminate|]. intros [= <-]. auto.
Qed.

Lemma sql_rename_column_rows (a b : string) (d d' : database) :
  sql_rename_column a b d = Ok d' ->
  record_rows d' = record_rows d
  /\ tag_rows d' = tag_rows d /\ tagset_rows d' = tagset_rows d.
Proof.
  unfold sql_rename_column. destruct (_ && _); [|discriminate].
  intros [= <-]. auto.
Qed.

Lemma add_column_step_rows (c : string) (a : affinity) (v : value) (n : Z)
    (w w' : world) :
  (ddl (sql_add_column c a v) ;;
   dml sql_delete_version ;;
   dml (sql_insert_version n) ;;
   commit) w = (Ok tt, w') ->
  record_rows (view w') = map (extended [v]) (record_rows (view w))
  /\ tag_rows (view w') = tag_rows (view w)
  /\ tagset_rows (view w') = tagset_rows (view w).
Proof.
  unfold bind, ddl, dml, commit.
  destruct (sql_add_column c a v (view w)) as [d|e] eqn:E; [|discriminate].
  cbn. intros [= <-]. cbn. exact (sql_add_column_rows _ _ _ _ _ E).
Qed.

Lemma migration_rows (ver : Z) (migration : M unit) (w w' : world) :
  migration_map !! ver = Some migration ->
  migration w = (Ok tt, w') ->
  record_rows (view w') = map (extended (step_defaults ver)) (record_rows (view w))
  /\ tag_rows (view w') = tag_rows (view w)
  /\ tagset_rows (view w') = tagset_rows (view w).
Proof.
  unfold migration_map. intros H.
  apply lookup_insert_Some in H. destruct H as [[<- <-]|[_ H]];
    [apply add_column_step_rows|].
  apply lookup_insert_Some in H. destruct H as [[<- <-]|[_ H]];
    [apply add_column_step_rows|].
  apply lookup_insert_Some in H. destruct H as [[<- <-]|[_ H]].
  { unfold _migrate_3_to_4, bind, ddl, dml, commit.
    destruct (sql_rename_column _ _ (view w)) as [d1|e] eqn:E1; [|discriminate].
    cbn. destruct (sql_add_column _ _ _ d1) as [d2|e] eqn:E2; [|discriminate].
    cbn. intros [= <-]. cbn.
    destruct (sql_rename_column_rows _ _ _ _ E1) as (R1 & T1 & S1).
    destruct (sql_add_column_rows _ _ _ _ _ E2) as (R2 & T2 & S2).
    rewrite R2, T2, S2, R1, T1, S1. auto. }
  apply lookup_insert_Some in H. destruct H as [[<- <-]|[_ H]];
    [apply add_column_step_rows|].
  apply lookup_insert_Some in H. destruct H as [[<- <-]|[_ H]];
    [apply add_column_step_rows|].
  apply lookup_insert_Some in H. destruct H as [[<- <-]|[_ H]];
    [apply add_column_step_rows|].
  apply lookup_singleton_Some in H. destruct H as [<- <-].
  unfold _migrate_7_to_8, bind, ddl, dml, commit, sql_create_if_not_exists.
  cbn. destruct (sql_rename_column _ _ (view w)) as [d1|e] eqn:E1; [|discriminate].
  cbn. intros [= <-]. cbn.
  destruct (sql_rename_column_rows _ _ _ _ E1) as (R1 & T1 & S1).
  rewrite R1, T1, S1. change (step_defaults 7) with (@nil value).
  rewrite map_extended_nil. auto.
Qed.

Lemma backup_database_view (ver : Z) (w : world) :
  exists w1, _backup_database ver w = (Ok tt, w1) /\ view w1 = view w.
Proof.
  unfold _backup_database, bind, isfile, os_remove, shutil_copy_db, ret.
  destruct (1 <? ver); [destruct (bool_decide _)|]; eexists; split; reflexivity.
Qed.

Lemma migration_pass_rows (ver : Z) (w w' : world) :
  migration_pass migration_map ver w = (Ok tt, w') ->
  record_rows (view w') = map (extended (step_defaults ver)) (record_rows (view w))
  /\ tag_rows (view w') = tag_rows (view w)
  /\ tagset_rows (view w') = tagset_rows (view w).
Proof.
  unfold migration_pass. intros H.
  destruct (backup_database_view ver w) as (w1 & Hb & Hv).
  rewrite (bind_ok _ _ _ _ _ Hb) in H.
  destruct (migration_map !! ver) as [m|] eqn:E; [|discriminate H].
  rewrite <- Hv. exact (migration_rows ver m w1 w' E H).
Qed.

Lemma chain_rows (n : nat) (v : Z) (w w' : world) :
  for_each (seqZ v (Z.of_nat n)) (migration_pass migration_map) w = (Ok tt, w') ->
  record_rows (view w')
  = map (extended (seqZ v (Z.of_nat n) ≫= step_defaults)) (record_rows (view w))
  /\ tag_rows (view w') = tag_rows (view w)
  /\ tagset_rows (view w') = tagset_rows (view w).
Proof.
  revert w'. induction n as [|n IH]; intros w'.
  - cbn. intros [= <-]. rewrite map_extended_nil. auto.
  - rewrite Nat2Z.inj_succ, <- Z.add_1_r, seqZ_app by lia.
    rewrite for_each_app. intros H. apply bind_inv_ok in H.
    destruct H as ([] & w1 & H1 & H2).
    destruct (IH w1 H1) as (R1 & T1 & S1).
    change (seqZ (v + Z.of_nat n) 1) with [v + Z.of_nat n] in *.
    cbn [for_each] in H2. apply bind_inv_ok in H2.
    destruct H2 as ([] & w2 & H2 & H3). injection H3 as <-.
    destruct (migration_pass_rows _ _ _ H2) as (R2 & T2 & S2).
    rewrite R2, T2, S2, R1, T1, S1, map_extended_app, bind_app.
    change ([v + Z.of_nat n] ≫= step_defaults)
      with (step_defaults (v + Z.of_nat n) ++ []).
    rewrite app_nil_r. auto.
Qed.

Lemma schema_at_current : schema_at _DB_VERSION = current_names.
Proof. reflexivity. Qed.

(** X22: Opening a database file left at an older version [v], with the columns
    of that version: the constructor migrates it to the current schema and
    version and commits.  Every Record row is still there under its
    identifier, with the cells it had and, after them, the defaults of the
    columns added since [v]; the Tag and TagSet rows are untouched; one
    backup file is left. *)
Theorem SQLiteStorage_upgrade (file : database) (baks : gmap Z database) (v : Z) :
  1 <= v < _DB_VERSION ->
  fetchone (version_rows file) = Some v ->
  column_names file = schema_at v ->
  (forall k, is_Some (baks !! k) -> k = v - 1 /\ 1 < v) ->
  exists w' snap,
    SQLiteStorage file baks = (Ok tt, w')
    /\ disk w' = view w'
    /\ column_names (view w') = current_names
    /\ version_rows (view w') = [_DB_VERSION]
    /\ record_rows (view w') = map (extended (added_defaults v)) (record_rows file)
    /\ tag_rows (view w') = tag_rows file
    /\ tagset_rows (view w') = tagset_rows file
    /\ backups w' = {[ _DB_VERSION - 1 := snap ]}.
Proof.
  unfold _DB_VERSION. intros Hv Hver Hs Hb.
  set (w0 := sqlite3_connect file baks).
  destruct (chain_ok migration_map (Z.to_nat (8 - v)) v w0)
    as (w' & Hrun & Hs' & _ & Hpos & _);
    [lia|lia|reflexivity|exact Hs|exact Hb|].
  destruct Hpos as (Hd & Hver' & _ & snap & Hbk & _); [lia|].
  destruct (chain_rows _ _ _ _ Hrun) as (HR & HT & HS).
  replace (v + Z.of_nat (Z.to_nat (8 - v))) with 8 in * by lia.
  rewrite Z2Nat.id in * by lia.
  exists w', snap. split.
  - unfold SQLiteStorage, _initialize, _check_database_version.
    assert (Hcols : exists c cols, record_columns file = c :: cols).
    { unfold column_names in Hs. destruct (record_columns file) as [|c cols];
        [discriminate Hs|eauto]. }
    destruct Hcols as (c & cols & Hcols).
    unfold bind at 1, ddl at 1, sql_create_record at 1.
    cbn [view sqlite3_connect]. rewrite Hcols.
    unfold bind, ddl, dml, commit, select, ret, sql_create_if_not_exists.
    cbn [view disk in_txn foreign_keys backups sqlite3_connect].
    rewrite Hver.
    rewrite bool_decide_eq_true_2 by (unfold _DB_VERSION; lia).
    unfold _run_migration, _DB_VERSION. rewrite run_migration_with_eq.
    exact Hrun.
  - split; [exact Hd|]. split; [exact Hs'|]. split; [exact Hver'|].
    split; [exact HR|]. split; [exact HT|]. split; [exact HS|exact Hbk].
Qed.

(** ** Writing back what was read *)

Lemma unique_record_row (rows : list rec_row) (row : rec_row) :
  NoDup (map rowid rows) -> row ∈ rows ->
  filter (fun r => rowid r = rowid row) rows = [row].
Proof.
  induction rows as [|r rows IH]; intros Hnd Hin; [inversion Hin|].
  cbn [map] in Hnd. apply NoDup_cons in Hnd. destruct Hnd as [Hr Hnd].
  rewrite filter_cons. destruct (decide (rowid r = rowid row)) as [Heq|Hne].
  - apply elem_of_cons in Hin. destruct Hin as [Hin|Hin].
    + subst r. f_equal. apply filter_none. intros r' Hr' Heq'.
      apply Hr. rewrite <- Heq'. apply list_elem_of_fmap. eauto.
    + exfalso. apply Hr. rewrite Heq. apply list_elem_of_fmap. eauto.
  - apply elem_of_cons in Hin. destruct Hin as [Hin|Hin].
    + subst r. congruence.
    + exact (IH Hnd Hin).
Qed.

Lemma join_groups_cell (s : string) :
  join "," (if is_empty s then [] else split_comma s) = s.
Proof.
  destruct (is_empty s) eqn:E; [destruct s; [reflexivity|discriminate E]|].
  apply join_split_comma.
Qed.

(** X23: Reading a Record and writing it back changes nothing.  For a row that
    holds a Record as [add_record] and [update_record] store it (fields of
    their declared types, a model type that [by_value] maps back), with
    identifiers unique: [get_record_by_id] returns a Record, and
    [update_record] of that Record returns and leaves every row as it was,
    also where the groups, once split, are not the groups that were
    joined. *)
Theorem update_record_read_back (record : Record_) (i : Z) (w : world) :
  schema_of (view w) = current_schema ->
  NoDup (map rowid (record_rows (view w))) ->
  {| rowid := i; cells := cells_of_record record |} ∈ record_rows (view w) ->
  declared_types record ->
  ModelType_by_value (VText (ModelType_value (model_type record)))
  = model_type record ->
  exists rec,
    get_record_by_id i w = (Ok (Some rec), w)
    /\ update_record rec w = (Ok tt, committed (view w) w).
Proof.
  intros Hs Hnd Hin (Ht & Hc & Hw) Hmt.
  set (row := {| rowid := i; cells := cells_of_record record |}) in *.
  destruct (schema_current_columns _ Hs)
    as (d1&d2&d3&d4&d5&d6&d7&d8&d9&d10&d11&d12&d13&d14&d15&d16&d17&d18&Hcols).
  repeat (apply Forall_cons_1 in Ht; destruct Ht as [? Ht]).
  set (gs := if is_empty (join "," (groups record)) then []
             else split_comma (join "," (groups record))).
  assert (Hget : get_record_by_id i w
                 = (Ok (Some {| id_ := VInt i;
                                name := name record;
                                model_type := model_type record;
                                download_url := download_url record;
                                url := url record;
                                download_path := download_path record;
                                download_filename := download_filename record;
                                preview_url := preview_url record;
                                description := description record;
                                positive_prompts := positive_prompts record;
                                negative_prompts := negative_prompts record;
                                sha256_hash := sha256_hash record;
                                md5_hash := md5_hash record;
                                created_at := created_at record;
                                groups := gs;
                                subdir := subdir record;
                                location := location record;
                                weight := weight record;
                                backup_url := backup_url record |}), w)).
  { unfold get_record_by_id, bind, select, lift, ret, select_by_id.
    replace (filter (fun r : rec_row => rowid r = i) (record_rows (view w)))
      with [row] by (symmetry; exact (unique_record_row _ row Hnd Hin)).
    cbn [fetchone head]. unfold star, row at 1 2. cbn [rowid cells cells_of_record].
    unfold cells_of_record, map_row_to_record, index. simpl. rewrite Hmt.
    unfold gs. destruct (is_empty (join "," (groups record))); reflexivity. }
  eexists. split; [exact Hget|].
  unfold update_record, bind, dml, commit, sql_update_record, committed.
  cbn [id_ name model_type download_url url download_path download_filename
       preview_url description positive_prompts negative_prompts sha256_hash
       md5_hash created_at groups subdir location weight backup_url].
  rewrite Hcols. cbn [resolve map col_name index_of String.eqb Ascii.eqb Bool.eqb
                      fmap option_fmap option_map lookup list_lookup default
                      from_option col_affinity id obind].
  rewrite !affinity_cast_fits by (assumption || reflexivity).
  cbn [obind]. rewrite <- Hcols.
  replace (map _ (record_rows (view w))) with (record_rows (view w)).
  { destruct (view w); reflexivity. }
  rewrite <- (map_id (record_rows (view w))) at 1.
  apply map_ext_in. intros r Hr. apply list_elem_of_In in Hr.
  cbn [id_matches]. destruct (i =? rowid r) eqn:E; [|reflexivity].
  apply Z.eqb_eq in E. symmetry in E.
  assert (Hrow : r = row).
  { assert (H' : r ∈ filter (fun r' => rowid r' = rowid row) (record_rows (view w)))
      by (apply list_elem_of_filter; split; [exact E|exact Hr]).
    rewrite (unique_record_row _ row Hnd Hin) in H'.
    apply list_elem_of_singleton in H'. exact H'. }
  subst r. unfold row, gs. cbn [rowid cells cells_of_record foldl fst snd].
  rewrite join_groups_cell. reflexivity.
Qed.

(** ** Identifiers [add_tag] assigns *)






(** ** [remove_record], [update_record] and the reads *)

(** X26: After [remove_record i], [get_all_records] returns the Records it
    returned before without those of identifier [i], in the same order;
    this holds whether or not foreign keys are enforced. *)
Theorem remove_record_then_get_all (i : Z) (w : world) :
  Forall readable (record_rows (view w)) ->
  exists w',
    remove_record i w = (Ok tt, w')
    /\ get_all_records w = (Ok (map record_of_row (record_rows (view w))), w)
    /\ get_all_records w'
       = (Ok (map record_of_row
                (filter (fun r => rowid r <> i) (record_rows (view w)))), w')
    /\ (forall rec, rec ∈ map record_of_row
                            (filter (fun r => rowid r <> i) (record_rows (view w)))
                    -> id_ rec <> VInt i).
Proof.
  intros Hrows.
  unfold remove_record, bind, dml, commit, sql_delete_record.
  eexists. split; [reflexivity|]. split; [exact (get_all_records_rows w Hrows)|].
  split.
  - rewrite get_all_records_rows; [reflexivity|].
    cbn [view record_rows with_tagset with_record].
    apply Forall_forall. intros r Hr. apply list_elem_of_filter in Hr.
    rewrite Forall_forall in Hrows. apply Hrows. tauto.
  - intros rec Hrec. apply list_elem_of_fmap in Hrec.
    destruct Hrec as (r & -> & Hr). apply list_elem_of_filter in Hr.
    simpl. intros [= Heq]. tauto.
Qed.

Lemma filter_map_rowid (upd : rec_row -> rec_row) (i : Z) (rows : list rec_row) :
  (forall r, rowid (upd r) = rowid r) ->
  filter (fun r => rowid r = i) (map upd rows)
  = map upd (filter (fun r => rowid r = i) rows).
Proof.
  intros H. induction rows as [|r rows IH]; [reflexivity|].
  cbn [map]. rewrite !filter_cons, H, IH.
  destruct (decide (rowid r = i)); reflexivity.
Qed.

(** X27: [update_record] followed by [get_record_by_id].  On the current
    schema, for a Record of the declared types whose groups survive the
    comma-joined column and whose identifier is that of a stored row (of
    the current width, identifiers unique): [update_record] returns, and
    [get_record_by_id] then returns the Record passed in, except that its
    [created_at] is the one the row had before. *)
Theorem update_record_then_get (record : Record_) (row : rec_row) (w : world) :
  schema_of (view w) = current_schema ->
  (forall m, ModelType_by_value (VText (ModelType_value m)) = m) ->
  declared_types record ->
  groups_survive (groups record) ->
  NoDup (map rowid (record_rows (view w))) ->
  row ∈ record_rows (view w) ->
  id_ record = VInt (rowid row) ->
  length (cells row) = 18%nat ->
  exists w',
    update_record record w = (Ok tt, w')
    /\ get_record_by_id (rowid row) w'
       = (Ok (Some (updated_record (rowid row) (cell row 12) record)), w').
Proof.
  intros Hs Hmt (Ht & Hc & Hw) Hg Hnd Hin Hid Hlen.
  destruct (schema_current_columns _ Hs)
    as (d1&d2&d3&d4&d5&d6&d7&d8&d9&d10&d11&d12&d13&d14&d15&d16&d17&d18&Hcols).
  repeat (apply Forall_cons_1 in Ht; destruct Ht as [? Ht]).
  unfold update_record, bind, dml, commit, sql_update_record.
  rewrite Hcols. cbn [resolve map col_name index_of String.eqb Ascii.eqb Bool.eqb
                      fmap option_fmap option_map lookup list_lookup default
                      from_option col_affinity id obind].
  rewrite !affinity_cast_fits by (assumption || reflexivity).
  cbn [obind]. rewrite <- Hcols.
  eexists. split; [reflexivity|].
  unfold get_record_by_id, bind, select, lift, ret, select_by_id.
  cbn [view record_rows with_record record_columns].
  rewrite filter_map_rowid
    by (intros r; destruct (id_matches (id_ record) (rowid r)); reflexivity).
  rewrite (unique_record_row _ row Hnd Hin). cbn [map].
  rewrite Hid. cbn [id_matches]. rewrite Z.eqb_refl.
  cbn [fetchone head]. unfold star. cbn [rowid cells].
  destruct row as [i cs]. cbn [rowid cells] in *.
  do 19 (destruct cs as [|? cs]; try discriminate Hlen).
  unfold map_row_to_record, index, updated_record, cell. simpl.
  pose proof (groups_cell_roundtrip _ Hg) as Hgs. simpl in Hgs.
  rewrite Hgs. simpl. rewrite Hmt. reflexivity.
Qed.

End Coverage.

(** ** The further properties at concrete inputs *)

Ltac eval_list :=
  match goal with
  | |- Forall ?P ?l => let l' := eval vm_compute in l in change (Forall P l')
  end.

Ltac all_rows tac :=
  apply Forall_forall; eval_list; repeat (constructor; [tac|]); constructor.

Ltac each_compute :=
  intros; repeat match goal with |- _ /\ _ => split end; by_compute.

Ltac readable_rows :=
  eval_list; repeat (constructor; [split; [simpl; lia|reflexivity]|]);
  constructor.

(** A row of fewer than nineteen cells raises IndexError; a number in the
    groups cell raises AttributeError. *)
Example map_row_to_record_raises :
  map_row_to_record (env := env_demo) (take 18 row_demo) = Raise IndexError
  /\ map_row_to_record (env := env_demo) (<[14%nat := VInt 5]> row_demo)
     = Raise AttributeError.
Proof. each_compute. Qed.

Lemma groups_written_back_witness :
  let r := with_id (env := env_demo) 1
             (record_demo "Anime V1" Checkpoint ["a"; "b"] EmptyString) in
  map_row_to_record row_groups_demo = Ok r
  /\ row_groups_demo !! 14%nat = Some (VText "a,b")
  /\ join "," (groups r) = "a,b".
Proof.
  intros r.
  assert (H1 : map_row_to_record row_groups_demo = Ok r) by reflexivity.
  assert (H2 : row_groups_demo !! 14%nat = Some (VText "a,b")) by reflexivity.
  exact (conj H1 (conj H2
           (groups_written_back (env := env_demo) row_groups_demo "a,b" r H1 H2))).
Defined.

(** [get_record_by_id] of an identifier the store does not hold. *)
Example get_record_by_id_missing :
  exists r,
    get_record_by_id_demo 7 store2 = (Ok (Some r), store2)
    /\ id_ r = VNull /\ name r = VNull /\ groups r = [].
Proof. eexists. split; [by_compute|]. repeat split. Qed.


Lemma remove_record_missing_id_witness :
  (forall r, r ∈ record_rows (view store2x) -> rowid r <> 7)
  /\ remove_record 7 store2x
     = (Ok tt, {| disk := view store2x; view := view store2x; in_txn := false;
                  foreign_keys := foreign_keys store2x;
                  backups := backups store2x |}).
Proof.
  assert (H1 : forall r, r ∈ record_rows (view store2x) -> rowid r <> 7)
    by (all_rows ltac:(simpl; lia)).
  exact (conj H1 (remove_record_missing_id 7 store2x H1)).
Defined.


(** The new record 2 has the tag of the removed record 2. *)
Example add_record_inherits_tags :
  tags_for (view store2y) 2 = ["y"]
  /\ (add_record_demo record_new_demo (after (remove_record 2) store2y)).1 = Ok 2
  /\ tags_for (view (after (add_record_demo record_new_demo)
                       (after (remove_record 2) store2y))) 2 = ["y"].
Proof. each_compute. Qed.


Lemma get_records_by_name_tagged_witness :
  schema_of (view store2x) = current_schema
  /\ Forall readable (record_rows (view store2x))
  /\ fits TEXT (VText "Dragon") = true
  /\ get_records_by_name (env := env_demo) (VText "Dragon") store2x
     = (Ok (map record_of_row
              (List.filter (fun r => sql_eq (cell r 0) (VText "Dragon")
                                     && tagged (view store2x) r)
                 (record_rows (view store2x)))), store2x).
Proof.
  assert (H1 : schema_of (view store2x) = current_schema) by reflexivity.
  assert (H2 : Forall readable (record_rows (view store2x))) by readable_rows.
  assert (H3 : fits TEXT (VText "Dragon") = true) by reflexivity.
  exact (conj H1 (conj H2 (conj H3
           (proj1 (get_records_by_name_tagged (env := env_demo)
                     (VText "Dragon") store2x H1 H2 H3))))).
Defined.

(** Record 1 is tagged and is found by its name; record 2 is not tagged
    and is not, though it is there. *)
Example get_records_by_name_demo :
  (get_records_by_name (env := env_demo) (VText "Anime V1") store2x).1
  = Ok [with_id (env := env_demo) 1
          (record_demo "Anime V1" Checkpoint ["a"; "b"]
             "/models/anime.safetensors")]
  /\ (get_records_by_name (env := env_demo) (VText "Dragon") store2x).1 = Ok []
  /\ (get_all_records_demo store2x).1 = Ok all_demo.
Proof. each_compute. Qed.

Lemma get_records_by_url_tagged_witness :
  schema_of (view store2x) = current_schema
  /\ Forall readable (record_rows (view store2x))
  /\ fits TEXT (VText EmptyString) = true
  /\ get_records_by_url (env := env_demo) (VText EmptyString) store2x
     = (Ok (map record_of_row
              (List.filter (fun r => sql_eq (cell r 3) (VText EmptyString)
                                     && tagged (view store2x) r)
                 (record_rows (view store2x)))), store2x).
Proof.
  assert (H1 : schema_of (view store2x) = current_schema) by reflexivity.
  assert (H2 : Forall readable (record_rows (view store2x))) by readable_rows.
  assert (H3 : fits TEXT (VText EmptyString) = true) by reflexivity.
  exact (conj H1 (conj H2 (conj H3
           (proj1 (get_records_by_url_tagged (env := env_demo)
                     (VText EmptyString) store2x H1 H2 H3))))).
Defined.

(** Both records have the empty url; the tagged one is returned. *)
Example get_records_by_url_demo :
  (get_records_by_url (env := env_demo) (VText EmptyString) store2x).1
  = Ok [with_id (env := env_demo) 1
          (record_demo "Anime V1" Checkpoint ["a"; "b"]
             "/models/anime.safetensors")]
  /\ (get_records_by_url (env := env_demo) (VText EmptyString) store2).1 = Ok [].
Proof. each_compute. Qed.

Lemma get_records_by_download_destination_tagged_witness :
  schema_of (view store2x) = current_schema
  /\ Forall readable (record_rows (view store2x))
  /\ fits TEXT (VText EmptyString) = true
  /\ fits TEXT VNull = true
  /\ get_records_by_download_destination (env := env_demo)
       (VText EmptyString) VNull store2x
     = (Ok (map record_of_row
              (List.filter (fun r => sql_eq (cell r 4) (VText EmptyString)
                                     && sql_eq (cell r 5) VNull
                                     && tagged (view store2x) r)
                 (record_rows (view store2x)))), store2x).
Proof.
  assert (H1 : schema_of (view store2x) = current_schema) by reflexivity.
  assert (H2 : Forall readable (record_rows (view store2x))) by readable_rows.
  assert (H3 : fits TEXT (VText EmptyString) = true) by reflexivity.
  assert (H4 : fits TEXT VNull = true) by reflexivity.
  exact (conj H1 (conj H2 (conj H3 (conj H4
           (proj1 (get_records_by_download_destination_tagged (env := env_demo)
                     (VText EmptyString) VNull store2x H1 H2 H3 H4)))))).
Defined.

(** The path and the file name must both match; a file name of None
    matches nothing. *)
Example get_records_by_download_destination_demo :
  (get_records_by_download_destination (env := env_demo)
     (VText EmptyString) (VText EmptyString) store2x).1
  = Ok [with_id (env := env_demo) 1
          (record_demo "Anime V1" Checkpoint ["a"; "b"]
             "/models/anime.safetensors")]
  /\ (get_records_by_download_destination (env := env_demo)
        (VText EmptyString) (VText "x.bin") store2x).1 = Ok []
  /\ (get_records_by_download_destination (env := env_demo)
        (VText EmptyString) VNull store2x).1 = Ok [].
Proof. each_compute. Qed.

Lemma get_records_by_group_matches_witness :
  record_columns (view store2x) <> []
  /\ Forall readable (record_rows (view store2x))
  /\ get_records_by_group (env := env_demo) "X" store2x
     = (Ok (map record_of_row
              (List.filter
                 (fun r => existsb (fun n => sql_like n (group_pattern "X"))
                             (inner_joined (view store2x) (rowid r)))
                 (record_rows (view store2x)))), store2x).
Proof.
  assert (H1 : record_columns (view store2x) <> [])
    by (vm_compute; discriminate).
  assert (H2 : Forall readable (record_rows (view store2x))) by readable_rows.
  exact (conj H1 (conj H2
           (proj1 (get_records_by_group_matches (env := env_demo) "X" store2x
                     H1 H2)))).
Defined.

(** The group is matched without regard to case, and [_] in it stands for
    any character; the empty group finds every tagged record. *)
Example get_records_by_group_demo :
  (get_records_by_group (env := env_demo) "X" store2x).1
  = Ok [with_id (env := env_demo) 1
          (record_demo "Anime V1" Checkpoint ["a"; "b"]
             "/models/anime.safetensors")]
  /\ (get_records_by_group (env := env_demo) "_" store2x).1
     = (get_records_by_group (env := env_demo) "x" store2x).1
  /\ (get_records_by_group (env := env_demo) EmptyString store2x).1
     = (get_records_by_group (env := env_demo) "x" store2x).1
  /\ (get_records_by_group (env := env_demo) "y" store2x).1 = Ok [].
Proof. each_compute. Qed.

(** The locations that are not empty, and the statement on a table that
    has no such column yet. *)
Example get_all_records_locations_demo :
  (get_all_records_locations store2).1 = Ok [VText "/models/anime.safetensors"]
  /\ (get_all_records_locations (sqlite3_connect (with_record
        (filter (fun c => col_name c ∈ schema_at 4) current_columns) []
        empty_database) ∅)).1
     = Raise OperationalError.
Proof. each_compute. Qed.


(** Tags are stored in lower case; the same name in another case is a
    duplicate. *)
Example add_tag_demo :
  (add_tag "Y" store2x).1 = Ok 2
  /\ (get_all_tags (after (add_tag "Y") store2x)).1 = Ok ["x"; "y"]
  /\ (add_tag "y" (after (add_tag "Y") store2x)).1 = Raise IntegrityError
  /\ (add_tag "X" store2x).1 = Raise IntegrityError.
Proof. each_compute. Qed.


(** The tag is gone, its TagSet row is not; the empty name removes
    nothing; an identifier is used whatever the name. *)
Example remove_tag_demo :
  let w := after (remove_tag "X" None) store2x in
  tag_rows (view w) = []
  /\ tagset_rows (view w) = [(1, 1)]
  /\ tags_for (view w) 1 = []
  /\ view (after (remove_tag EmptyString None) store2x) = view store2x
  /\ tag_rows (view (after (remove_tag "nothing" (Some 1)) store2x)) = [].
Proof. each_compute. Qed.


(** The tag the record has is kept, the new one is added once, the empty
    name is dropped. *)
Example set_tags_for_record_demo :
  let w := after (set_tags_for_record 1 ["X"; "New"; EmptyString; "new"]) store2x in
  (get_tags_for_record 1 w).1 = Ok ["new"; "x"]
  /\ (get_all_tags w).1 = Ok ["x"; "new"]
  /\ (get_tags_for_record 2 w).1 = Ok [].
Proof. each_compute. Qed.

Lemma query_records_groups_raise_witness :
  nonempty_list (Some ["x"]) = true
  /\ query_records_demo None (Some ["x"]) (Some ["Checkpoint"]) true true store2x
     = (Raise OperationalError, store2x).
Proof.
  assert (H1 : nonempty_list (Some ["x"]) = true) by reflexivity.
  exact (conj H1 (query_records_groups_raise (env := env_demo) None (Some ["x"])
                    (Some ["Checkpoint"]) true true store2x H1)).
Defined.

Lemma query_records_model_types_witness :
  ["Lora"] <> []
  /\ "model_type" ∈ column_names (view store2)
  /\ query_records_demo None None (Some ["Lora"]) true true store2
     = (match map_rows
                (map (fun r => star r
                               ++ [group_concat (joined (view store2) (rowid r))])
                     (List.filter (model_type_in (view store2) ["Lora"])
                        (record_rows (view store2)))) with
        | Ok rs => Ok (List.filter (kept (env := env_demo) true true) rs)
        | Raise e => Raise e
        end, store2).
Proof.
  assert (H1 : ["Lora"] <> ([] : list string)) by discriminate.
  assert (H2 : "model_type" ∈ column_names (view store2)) by compute_done.
  exact (conj H1 (conj H2
           (query_records_model_types (env := env_demo) ["Lora"] true true store2
              H1 H2))).
Defined.

(** The query by model type at work. *)
Example query_records_by_model_type :
  (query_records_demo None None (Some ["Lora"]) true true store2).1
  = Ok [with_id (env := env_demo) 2 (record_demo "Dragon" Lora [] EmptyString)]
  /\ (query_records_demo None None (Some ["Lora"; "Checkpoint"]) true true
        store2).1 = Ok all_demo
  /\ (query_records_demo None None (Some ["lora"]) true true store2).1 = Ok [].
Proof. each_compute. Qed.

Lemma SQLiteStorage_unversioned_witness :
  version_rows empty_database = []
  /\ SQLiteStorage empty_database ∅
     = (Ok tt, committed (with_version [_DB_VERSION] (created empty_database))
                 (sqlite3_connect empty_database ∅)).
Proof.
  assert (H1 : version_rows empty_database = []) by reflexivity.
  exact (conj H1 (SQLiteStorage_unversioned empty_database ∅ H1)).
Defined.

(** A file of version 6 whose version row was lost is taken for a current
    one: it keeps the columns of version 6. *)
Example SQLiteStorage_lost_version :
  let w := (SQLiteStorage (with_version [] database_v6) ∅).2 in
  version_rows (view w) = [8]
  /\ column_names (view w) = schema_at 6
  /\ backups w = ∅.
Proof. each_compute. Qed.

Lemma SQLiteStorage_current_witness :
  fetchone (version_rows database_v9) = Some 9
  /\ _DB_VERSION <= 9
  /\ record_columns database_v9 <> []
  /\ SQLiteStorage database_v9 ∅ = (Ok tt, sqlite3_connect database_v9 ∅).
Proof.
  assert (H1 : fetchone (version_rows database_v9) = Some 9) by reflexivity.
  assert (H2 : _DB_VERSION <= 9) by (unfold _DB_VERSION; lia).
  assert (H3 : record_columns database_v9 <> [])
    by (vm_compute; discriminate).
  exact (conj H1 (conj H2 (conj H3
           (SQLiteStorage_current database_v9 ∅ 9 H1 H2 H3)))).
Defined.

Lemma SQLiteStorage_upgrade_witness :
  1 <= 6 < _DB_VERSION
  /\ fetchone (version_rows database_v6) = Some 6
  /\ column_names database_v6 = schema_at 6
  /\ (forall k, is_Some ((∅ : gmap Z database) !! k) -> k = 6 - 1 /\ 1 < 6)
  /\ exists w' snap,
       SQLiteStorage database_v6 ∅ = (Ok tt, w')
       /\ disk w' = view w'
       /\ column_names (view w') = current_names
       /\ version_rows (view w') = [_DB_VERSION]
       /\ record_rows (view w')
          = map (extended (added_defaults 6)) (record_rows database_v6)
       /\ tag_rows (view w') = tag_rows database_v6
       /\ tagset_rows (view w') = tagset_rows database_v6
       /\ backups w' = {[ _DB_VERSION - 1 := snap ]}.
Proof.
  assert (H1 : 1 <= 6 < _DB_VERSION) by (unfold _DB_VERSION; lia).
  assert (H2 : fetchone (version_rows database_v6) = Some 6) by reflexivity.
  assert (H3 : column_names database_v6 = schema_at 6) by reflexivity.
  assert (H4 : forall k, is_Some ((∅ : gmap Z database) !! k) ->
                         k = 6 - 1 /\ 1 < 6)
    by (exact (backups_before_empty 6 store_v6 eq_refl)).
  exact (conj H1 (conj H2 (conj H3 (conj H4
           (SQLiteStorage_upgrade database_v6 ∅ 6 H1 H2 H3 H4))))).
Defined.

(** The row of the version 6 file after the upgrade: its cells, then the
    default of the one column added since. *)
Example SQLiteStorage_upgrade_row :
  added_defaults 6 = [VText EmptyString]
  /\ added_defaults 1
     = [VInt 0; VText EmptyString; VText EmptyString; VText EmptyString;
        VReal 1; VText EmptyString]
  /\ record_rows (view (SQLiteStorage database_v6 ∅).2)
     = [ {| rowid := 1; cells := replicate 18 (VText EmptyString) |} ].
Proof. each_compute. Qed.

Lemma update_record_read_back_witness :
  let record := record_demo "Dragon" Lora [] EmptyString in
  schema_of (view store2) = current_schema
  /\ NoDup (map rowid (record_rows (view store2)))
  /\ {| rowid := 2; cells := cells_of_record record |} ∈ record_rows (view store2)
  /\ declared_types record
  /\ by_value_demo (VText (value_demo Lora)) = Lora
  /\ exists rec,
       get_record_by_id_demo 2 store2 = (Ok (Some rec), store2)
       /\ update_record_demo rec store2 = (Ok tt, committed (view store2) store2).
Proof.
  intros record.
  assert (H1 : schema_of (view store2) = current_schema) by reflexivity.
  assert (H2 : NoDup (map rowid (record_rows (view store2)))) by compute_done.
  assert (H3 : {| rowid := 2; cells := cells_of_record record |}
               ∈ record_rows (view store2)).
  { apply list_elem_of_In. vm_compute. right. left. reflexivity. }
  assert (H4 : declared_types record).
  { unfold declared_types. split; [|split; reflexivity]. repeat constructor. }
  assert (H5 : by_value_demo (VText (value_demo Lora)) = Lora) by reflexivity.
  exact (conj H1 (conj H2 (conj H3 (conj H4 (conj H5
           (update_record_read_back (env := env_demo) record 2 store2
              H1 H2 H3 H4 H5)))))).
Defined.


(** Record 1 was tagged x; after x is removed and z added, it is tagged z. *)
Example add_tag_inherits_records :
  let w := after (add_tag "z") (after (remove_tag "x" None) store2x) in
  tags_for (view store2x) 1 = ["x"] /\ tags_for (view w) 1 = ["z"].
Proof. each_compute. Qed.

Lemma remove_record_then_get_all_witness :
  Forall readable (record_rows (view store2x))
  /\ exists w',
       remove_record 1 store2x = (Ok tt, w')
       /\ get_all_records_demo store2x
          = (Ok (map record_of_row (record_rows (view store2x))), store2x)
       /\ get_all_records_demo w'
          = (Ok (map record_of_row
                   (filter (fun r => rowid r <> 1) (record_rows (view store2x)))),
             w')
       /\ (forall rec,
             rec ∈ map (record_of_row (env := env_demo))
                     (filter (fun r => rowid r <> 1) (record_rows (view store2x)))
             -> id_ rec <> VInt 1).
Proof.
  assert (H1 : Forall readable (record_rows (view store2x))) by readable_rows.
  exact (conj H1 (remove_record_then_get_all (env := env_demo) 1 store2x H1)).
Defined.

(** Record 1 is gone from the list; asked for by its identifier, the store
    still answers, with a Record of Nones. *)
Example remove_record_then_reads :
  let w := after (remove_record 1) store2x in
  (get_all_records_demo w).1
  = Ok [with_id (env := env_demo) 2 (record_demo "Dragon" Lora [] EmptyString)]
  /\ (exists r, (get_record_by_id_demo 1 w).1 = Ok (Some r) /\ name r = VNull).
Proof.
  intros w. split; [by_compute|].
  eexists. split; [by_compute|reflexivity].
Qed.

Lemma update_record_then_get_witness :
  let row := {| rowid := 1;
                cells := cells_of_record (env := env_demo)
                           (record_demo "Anime V1" Checkpoint ["a"; "b"]
                              "/models/anime.safetensors") |} in
  schema_of (view store2) = current_schema
  /\ declared_types record_update_demo
  /\ groups_survive (groups record_update_demo)
  /\ NoDup (map rowid (record_rows (view store2)))
  /\ row ∈ record_rows (view store2)
  /\ id_ record_update_demo = VInt (rowid row)
  /\ length (cells row) = 18%nat
  /\ exists w',
       update_record_demo record_update_demo store2 = (Ok tt, w')
       /\ get_record_by_id_demo (rowid row) w'
          = (Ok (Some (updated_record (rowid row) (cell row 12)
                         record_update_demo)), w').
Proof.
  intros row.
  assert (H1 : schema_of (view store2) = current_schema) by reflexivity.
  assert (H2 : declared_types record_update_demo).
  { unfold declared_types. split; [|split; reflexivity]. repeat constructor. }
  assert (H3 : groups_survive (groups record_update_demo)).
  { split; [repeat constructor|discriminate]. }
  assert (H4 : NoDup (map rowid (record_rows (view store2)))) by compute_done.
  assert (H5 : row ∈ record_rows (view store2)).
  { apply list_elem_of_In. vm_compute. left. reflexivity. }
  assert (H6 : id_ record_update_demo = VInt (rowid row)) by reflexivity.
  assert (H7 : length (cells row) = 18%nat) by reflexivity.
  exact (conj H1 (conj H2 (conj H3 (conj H4 (conj H5 (conj H6 (conj H7
           (update_record_then_get (env := env_demo) record_update_demo row
              store2 H1 by_value_value_demo H2 H3 H4 H5 H6 H7)))))))).
Defined.

(** The Record read back has the new name and groups, and the timestamp
    of the row, not the one passed in. *)
Example update_record_then_reads :
  exists r,
    (get_record_by_id_demo 1 (after (update_record_demo record_update_demo)
                                store2)).1 = Ok (Some r)
    /\ name r = VText "Anime V2" /\ groups r = ["c"]
    /\ created_at r = VInt 0
    /\ created_at record_update_demo = VInt 1700000000.
Proof. eexists. split; [by_compute|]. repeat split. Qed.
